(** * Image build orchestration of make_arch_iso_gui.py

    A shallow embedding of the build thread [ISOBuilderThread]: the
    manifest builder [_build_package_list], the package selection and
    local-repository staging of [run], the log-driven build loop and the
    artifact verification that ends [run].

    Python [str] values are modelled as lists of 8-bit characters, read as
    the code points U+0000 .. U+00FF; on that range the character classes
    below are the ones CPython uses. Python [set] values are [gset]s; the
    order in which CPython iterates a set is not fixed by the language and
    is a parameter of the model. *)

From Stdlib Require Import Ascii String.
From stdpp Require Import gmap list sorting.

Local Open Scope list_scope.

(** ** Text *)

Module Py.

Definition text := list ascii.

(** A Python string literal. *)
Definition str (s : string) : text := list_ascii_of_string s.

Definition code (c : ascii) : N := N_of_ascii c.

Definition LF : ascii := ascii_of_N 10.
Definition CR : ascii := ascii_of_N 13.

Definition is_lf (c : ascii) : bool := N.eqb (code c) 10.
Definition is_cr (c : ascii) : bool := N.eqb (code c) 13.

(** [str.isspace] on one character: TAB LF VT FF CR, FS GS RS US, SPACE,
    NEL and NBSP. *)
Definition is_space (c : ascii) : bool :=
  existsb (N.eqb (code c)) [9; 10; 11; 12; 13; 28; 29; 30; 31; 32; 133; 160]%N.

(** The line boundaries of [str.splitlines]: LF VT FF CR FS GS RS NEL. *)
Definition is_linebreak (c : ascii) : bool :=
  existsb (N.eqb (code c)) [10; 11; 12; 13; 28; 29; 30; 133]%N.

(** [str.lower] on one character: A-Z and the Latin-1 capitals. *)
Definition lower_char (c : ascii) : ascii :=
  let n := code c in
  if ((65 <=? n) && (n <=? 90))%N then ascii_of_N (n + 32)
  else if ((192 <=? n) && (n <=? 222) && negb (n =? 215))%N
       then ascii_of_N (n + 32)
  else c.

Definition lower (s : text) : text := map lower_char s.

Fixpoint lstrip (s : text) : text :=
  match s with
  | [] => []
  | c :: s' => if is_space c then lstrip s' else s
  end.

Fixpoint rstrip (s : text) : text :=
  match s with
  | [] => []
  | c :: s' =>
      match rstrip s' with
      | [] => if is_space c then [] else [c]
      | r => c :: r
      end
  end.

Definition strip (s : text) : text := rstrip (lstrip s).

Fixpoint startswith (pre s : text) : bool :=
  match pre, s with
  | [], _ => true
  | _ :: _, [] => false
  | p :: pre', c :: s' => bool_decide (p = c) && startswith pre' s'
  end.

(** [sub in s] on strings. *)
Fixpoint contains (sub s : text) : bool :=
  startswith sub s ||
  match s with
  | [] => false
  | _ :: s' => contains sub s'
  end.

(** [sep.join(parts)]. *)
Fixpoint join (sep : text) (parts : list text) : text :=
  match parts with
  | [] => []
  | [p] => p
  | p :: ps => p ++ sep ++ join sep ps
  end.

(** [str.splitlines()]: the boundary characters are dropped, CR LF counts
    as one boundary, and a final boundary opens no empty last line. *)
Fixpoint splitlines (s : text) : list text :=
  match s with
  | [] => []
  | c :: s' =>
      if is_linebreak c then
        match s' with
        | c' :: s'' =>
            if is_cr c && is_lf c' then [] :: splitlines s''
            else [] :: splitlines s'
        | [] => [[]]
        end
      else
        match splitlines s' with
        | [] => [[c]]
        | l :: ls => (c :: l) :: ls
        end
  end.

(** Reading a file opened in text mode with the default [newline=None]:
    CR LF and a lone CR both arrive as LF. *)
Fixpoint universal_newlines (s : text) : text :=
  match s with
  | [] => []
  | c :: s' =>
      if is_cr c then
        match s' with
        | c' :: s'' =>
            if is_lf c' then LF :: universal_newlines s''
            else LF :: universal_newlines s'
        | [] => [LF]
        end
      else c :: universal_newlines s'
  end.

(** Cutting a text after every LF, the terminators kept. *)
Fixpoint split_keepends (s : text) : list text :=
  match s with
  | [] => []
  | c :: s' =>
      if is_lf c then [c] :: split_keepends s'
      else
        match split_keepends s' with
        | [] => [[c]]
        | l :: ls => (c :: l) :: ls
        end
  end.

(** [f.read()] and [f.readlines()] of a text-mode file with contents
    [raw]. *)
Definition read (raw : text) : text := universal_newlines raw.
Definition readlines (raw : text) : list text :=
  split_keepends (universal_newlines raw).

(** Comparison of strings, code point by code point. *)
Fixpoint text_leb (a b : text) : bool :=
  match a, b with
  | [], _ => true
  | _ :: _, [] => false
  | x :: a', y :: b' =>
      if (code x <? code y)%N then true
      else if (code x =? code y)%N then text_leb a' b'
      else false
  end.

Definition text_le (a b : text) : Prop := text_leb a b = true.

Global Instance text_le_dec : RelDecision text_le.
Proof. intros a b. unfold text_le. apply _. Defined.

(** The order in which a run of the interpreter iterates its sets: some
    enumeration of the elements, each once. *)
Record set_iteration := {
  iterate : gset text -> list text;
  iterate_perm : forall S, iterate S ≡ₚ elements S
}.

(** [sorted(S)] for a set [S]. *)
Definition sorted (o : set_iteration) (S : gset text) : list text :=
  merge_sort text_le (iterate o S).

End Py.

Import Py.

(** ** Exceptions and the signals of the build thread *)

Inductive exn :=
  | FileNotFoundError (message : text)
  | ValueError (message : text).

Inductive outcome (A : Type) :=
  | Returned (a : A)
  | Raised (e : exn).
Arguments Returned {A} a.
Arguments Raised {A} e.

(** What the thread sends to its observers: [output_signal],
    [progress_signal] and [finished_signal]. *)
Inductive signal :=
  | output_signal (message : text)
  | progress_signal (value : Z)
  | finished_signal (success : bool) (message : text).

(** The two number formats of the f-strings, [{x:.2f}] of a size in GB
    (given in bytes) and [{n}] of an integer, are left open. *)
Record formatting := {
  fmt_gb : Z -> text;
  fmt_int : Z -> text
}.

(** ** Manifest builder: [ISOBuilderThread._build_package_list] *)

Definition required_packages : gset text :=
  {[ str "mkinitcpio"; str "mkinitcpio-archiso"; str "squashfs-tools";
     str "linux"; str "linux-firmware"; str "base" ]}.

(** [stripped and not stripped.startswith('#')] for [stripped =
    line.strip()]. *)
Definition is_package_line (line : text) : bool :=
  let stripped := strip line in
  negb (bool_decide (stripped = [])) && negb (startswith (str "#") stripped).

Definition base_packages_of (base_lines : list text) : list text :=
  map strip (filter (fun line => is_package_line line = true) base_lines).

Definition excluded_effective_of (excluded_packages : list text) : gset text :=
  list_to_set excluded_packages ∖ required_packages.

Definition excluded_ignored_of (excluded_packages : list text) : gset text :=
  list_to_set excluded_packages ∩ required_packages.

Definition base_lines_filtered_of
    (excluded_effective : gset text) (base_lines : list text) : list text :=
  filter (fun line =>
            negb (is_package_line line
                  && bool_decide (strip line ∈ excluded_effective)) = true)
         base_lines.

Definition custom_packages_of (o : set_iteration)
    (excluded_effective base_package_set : gset text)
    (packages : list text) : list text :=
  let custom_packages :=
    filter (fun pkg =>
              negb (bool_decide (strip pkg = []))
              && negb (bool_decide (pkg ∈ excluded_effective)) = true)
           packages in
  let custom_packages :=
    filter (fun pkg => negb (bool_decide (pkg ∈ base_package_set)) = true)
           custom_packages in
  sorted o (list_to_set custom_packages).

Definition required_missing_of (o : set_iteration)
    (custom_packages : list text) (base_package_set : gset text) : list text :=
  sorted o (required_packages ∖ (list_to_set custom_packages ∪ base_package_set)).

(** One [f.write(f"{pkg}\n")] per package. *)
Definition write_packages (pkgs : list text) : text :=
  concat (map (fun pkg => pkg ++ [LF]) pkgs).

(** Everything the [with open(pkg_file, 'w', ..., newline='')] block
    writes. *)
Definition written_manifest
    (base_lines_filtered required_missing custom_packages : list text) : text :=
  (if bool_decide (base_lines_filtered = []) then []
   else rstrip (join [LF] base_lines_filtered) ++ [LF])
  ++
  (if bool_decide (required_missing = []) && bool_decide (custom_packages = [])
   then []
   else str "
# Added from current system
" ++ write_packages required_missing ++ write_packages custom_packages).

(** The list comprehension over [f.readlines()] that ends the function. *)
Definition reread_pkg_lines (contents : text) : list text :=
  map strip (filter (fun line => is_package_line line = true) (readlines contents)).

Record build_result := {
  pkg_file : text;             (* the path returned *)
  pkg_file_contents : text;    (* what the file holds on return *)
  pkg_lines : list text;
  pkg_count : nat;
  required : gset text;
  emitted : list signal
}.

(** The body of [_build_package_list] once the file is known to exist with
    contents [raw]. *)
Definition build_package_list (o : set_iteration) (path raw : text)
    (packages excluded_packages : list text) : build_result :=
  let base_lines := splitlines (read raw) in
  let base_packages := base_packages_of base_lines in
  let base_package_set : gset text := list_to_set base_packages in
  let excluded_effective := excluded_effective_of excluded_packages in
  let excluded_ignored := excluded_ignored_of excluded_packages in
  let warn :=
    if bool_decide (excluded_ignored = ∅) then []
    else [output_signal
            (str "[WARN] Ignoring exclusions for required packages: "
             ++ join (str ", ") (sorted o excluded_ignored) ++ [LF])] in
  let base_lines_filtered := base_lines_filtered_of excluded_effective base_lines in
  let custom_packages :=
    custom_packages_of o excluded_effective base_package_set packages in
  let required_missing :=
    required_missing_of o custom_packages base_package_set in
  let info :=
    if bool_decide (required_missing = []) then []
    else [output_signal
            (str "[INFO] Adding required packages missing from base list: "
             ++ join (str ", ") required_missing ++ [LF])] in
  let contents :=
    written_manifest base_lines_filtered required_missing custom_packages in
  let pkg_lines := reread_pkg_lines contents in
  {| pkg_file := path;
     pkg_file_contents := contents;
     pkg_lines := pkg_lines;
     pkg_count := length pkg_lines;
     required := required_packages;
     emitted := warn ++ info |}.

(** [_build_package_list]: [profile] is the contents of
    [profile_dir/packages.x86_64], [None] when the file does not exist. *)
Definition _build_package_list (o : set_iteration) (path : text)
    (profile : option text) (packages excluded_packages : list text)
    : outcome build_result :=
  match profile with
  | None => Raised (FileNotFoundError (str "packages.x86_64 not found"))
  | Some raw => Returned (build_package_list o path raw packages excluded_packages)
  end.

(** The check of [run] on what the builder returned. *)
Definition missing_critical (o : set_iteration) (r : build_result) : list text :=
  filter (fun crit_pkg => negb (bool_decide (crit_pkg ∈ pkg_lines r)) = true)
         (iterate o (required r)).

Definition check_required (f : formatting) (o : set_iteration) (r : build_result)
    : outcome (list signal) :=
  let missing := missing_critical o r in
  if bool_decide (missing = []) then
    Returned
      ((if bool_decide (pkg_count r < 10)%nat then
          [output_signal
             (str "[WARN] Package list is very small ("
              ++ fmt_int f (Z.of_nat (pkg_count r))
              ++ str " packages). This may cause boot issues." ++ [LF])]
        else [])
       ++ [output_signal
             (str "[INFO] Package list created with "
              ++ fmt_int f (Z.of_nat (pkg_count r)) ++ str " packages" ++ [LF]);
           output_signal
             (str "[INFO] Package list file: " ++ pkg_file r ++ [LF]);
           progress_signal 40])
  else
    Raised (ValueError (str "Package list missing critical packages: "
                        ++ join (str ", ") missing)).

(** ** Package selection and local repository: the middle of [run] *)

(** [str.split(sep)] for a one-character separator. *)
Fixpoint split_on (sep : ascii) (s : text) : list text :=
  match s with
  | [] => [[]]
  | c :: s' =>
      if bool_decide (c = sep) then [] :: split_on sep s'
      else
        match split_on sep s' with
        | [] => [[c]]
        | l :: ls => (c :: l) :: ls
        end
  end.

Record cache_file := {
  file_name : text;
  st_mtime : Z
}.

(** A name matches the pattern [*.pkg.tar.*] when it has [.pkg.tar.]
    somewhere inside. *)
Definition is_pkg_archive (name : text) : bool :=
  contains (str ".pkg.tar.") name.

(** The machine the build runs on, as far as [run] asks it:
    whether [pacman -Si pkg] and [pacman -Ql pkg] return 0, what
    [Path('/var/cache/pacman/pkg/').glob(f"{pkg}-*.pkg.tar.*")] lists, and
    whether [cp] of a cached file into the local repository succeeds. The
    glob only lists names that end in [-*.pkg.tar.*]. *)
Record host := {
  pacman_Si : text -> bool;
  pacman_Ql : text -> bool;
  cache_glob : text -> list cache_file;
  cp_ok : cache_file -> bool;
  cache_glob_archive :
    forall pkg f, f ∈ cache_glob pkg -> is_pkg_archive (file_name f) = true
}.

(** [sorted(pkg_files, key=lambda p: p.stat().st_mtime)]: stable, oldest
    first. *)
Fixpoint insert_by_mtime (f : cache_file) (l : list cache_file) : list cache_file :=
  match l with
  | [] => [f]
  | g :: l' =>
      if (st_mtime f <=? st_mtime g)%Z then f :: l
      else g :: insert_by_mtime f l'
  end.

Definition sorted_by_mtime (l : list cache_file) : list cache_file :=
  foldr insert_by_mtime [] l.

(** [sorted(...)[-1]]: the file modified last. *)
Definition newest (pkg_files : list cache_file) : option cache_file :=
  last (sorted_by_mtime pkg_files).

Record staging := {
  successfully_copied_aur : list text;
  failed_aur_packages : list text;
  local_repo : list text;          (* file names in local_repo_dir *)
  staging_log : list signal
}.

(** [cp file local_repo_dir] with [check=False]. *)
Definition cp_into (h : host) (f : cache_file) (dir : list text) : list text :=
  if cp_ok h f then
    if bool_decide (file_name f ∈ dir) then dir else dir ++ [file_name f]
  else dir.

(** One turn of [for pkg in aur_packages]. *)
Definition stage_package (h : host) (st : staging) (pkg : text) : staging :=
  if pacman_Ql h pkg then
    match cache_glob h pkg with
    | f0 :: fs =>
        let pkg_file := default f0 (newest (f0 :: fs)) in
        {| successfully_copied_aur := successfully_copied_aur st ++ [pkg];
           failed_aur_packages := failed_aur_packages st;
           local_repo := cp_into h pkg_file (local_repo st);
           staging_log :=
             staging_log st
             ++ [output_signal (str "  - Copying " ++ file_name pkg_file ++ [LF])] |}
    | [] =>
        {| successfully_copied_aur := successfully_copied_aur st;
           failed_aur_packages := failed_aur_packages st ++ [pkg];
           local_repo := local_repo st;
           staging_log :=
             staging_log st
             ++ [output_signal
                   (str "  - [WARN] Package file not found in cache: " ++ pkg
                    ++ str " (will be excluded from ISO)" ++ [LF])] |}
    end
  else st.

Definition stage_packages (h : host) (dir : list text) (aur_packages : list text)
    : staging :=
  foldl (stage_package h)
        {| successfully_copied_aur := []; failed_aur_packages := [];
           local_repo := dir; staging_log := [] |}
        aur_packages.

(** The stanza appended to the staged [pacman.conf]. *)
Definition local_repo_stanza : text :=
  str "
[local-repo]
" ++ str "SigLevel = Optional TrustAll
" ++ str "Server = file:///opt/local-repo
".

Definition gui_must : list text :=
  [str "xorg-server"; str "gnome-shell"; str "gnome-session"; str "gdm";
   str "networkmanager"; str "mesa"].

Definition distro_prefixes : list text :=
  [str "cachyos-"; str "garuda-"; str "endeavour-"; str "manjaro-"].

(** One turn of [for must in gui_must], on [(packages, added_gui, log)]. *)
Definition add_gui_package (excluded_packages : gset text) (all_packages : list text)
    (acc : list text * list text * list signal) (must : text)
    : list text * list text * list signal :=
  let '(packages, added_gui, log) := acc in
  if bool_decide (must ∈ excluded_packages) then
    (packages, added_gui,
     log ++ [output_signal
               (str "[WARN] GUI-required package '" ++ must
                ++ str "' is excluded. Live GNOME may not start." ++ [LF])])
  else if bool_decide (must ∉ packages) && bool_decide (must ∉ all_packages) then
    (packages ++ [must], added_gui ++ [must], log)
  else acc.

Record config := {
  include_custom_repos : bool;
  excluded_packages : list text
}.

Record selection := {
  sel_repo_packages : list text;
  sel_aur_packages : list text;
  sel_copied : list text;            (* successfully_copied_aur, before exclusions *)
  sel_failed : list text;            (* failed_aur_packages *)
  sel_local_repo : list text;        (* file names in local_repo_dir *)
  sel_repo_add : option (list text); (* the files handed to repo-add, if it ran *)
  sel_pacman_conf : text;            (* the staged pacman.conf *)
  sel_packages : list text;          (* what goes to _build_package_list *)
  sel_log : list signal
}.

(** From the output of [pacman -Qqe] to the package list of the two
    branches on [include_custom_repos]. [dir] lists the local repository
    directory and [conf] is the staged [pacman.conf] when the stage begins.
    Of the log, the messages about staging are kept. *)
Definition classify_and_stage (f : formatting) (h : host) (cfg : config)
    (dir : list text) (conf : text) (stdout : text) : selection :=
  let all_packages := split_on LF (strip stdout) in
  let named := filter (fun pkg => negb (bool_decide (strip pkg = [])) = true)
                      all_packages in
  let excluded_set : gset text := list_to_set (excluded_packages cfg) in
    if include_custom_repos cfg then
      let repo_packages := filter (fun pkg => pacman_Si h pkg = true) named in
      let aur_packages := filter (fun pkg => pacman_Si h pkg = false) named in
      let st :=
        if bool_decide (aur_packages = []) then
          {| successfully_copied_aur := []; failed_aur_packages := [];
             local_repo := dir; staging_log := [] |}
        else stage_packages h dir aur_packages in
      let pkg_files := filter (fun name => is_pkg_archive name = true) (local_repo st) in
      let index := bool_decide (aur_packages ≠ []) && negb (bool_decide (pkg_files = [])) in
      let repo_packages' :=
        if bool_decide (excluded_set = ∅) then repo_packages
        else filter (fun pkg => pkg ∉ excluded_set) repo_packages in
      let copied' :=
        if bool_decide (excluded_set = ∅) then successfully_copied_aur st
        else filter (fun pkg => pkg ∉ excluded_set) (successfully_copied_aur st) in
      {| sel_repo_packages := repo_packages';
         sel_aur_packages := aur_packages;
         sel_copied := successfully_copied_aur st;
         sel_failed := failed_aur_packages st;
         sel_local_repo := local_repo st;
         sel_repo_add := if index then Some pkg_files else None;
         sel_pacman_conf := if index then conf ++ local_repo_stanza else conf;
         sel_packages := repo_packages' ++ copied';
         sel_log :=
           (if bool_decide (aur_packages = []) then []
            else
              [output_signal
                 (str "[INFO] Copying " ++ fmt_int f (Z.of_nat (length aur_packages))
                  ++ str " AUR packages to local repository..." ++ [LF])]
              ++ staging_log st
              ++ [output_signal
                    (if index then str "[INFO] Creating local repository database..." ++ [LF]
                     else str "[WARN] No AUR package files were successfully copied to local repository" ++ [LF])])
           ++ (if bool_decide (failed_aur_packages st = []) then []
               else
                 output_signal
                   (str "[INFO] Excluding "
                    ++ fmt_int f (Z.of_nat (length (failed_aur_packages st)))
                    ++ str " AUR packages that couldn't be found:" ++ [LF])
                 :: map (fun pkg => output_signal (str "  - " ++ pkg ++ [LF]))
                        (failed_aur_packages st)) |}
    else
      let packages := filter (fun pkg => pacman_Si h pkg = true) named in
      let others := filter (fun pkg => pacman_Si h pkg = false) named in
      let is_distro pkg := existsb (fun prefix => contains prefix pkg) distro_prefixes in
      {| sel_repo_packages := packages;
         sel_aur_packages := filter (fun pkg => is_distro pkg = false) others;
         sel_copied := [];
         sel_failed := [];
         sel_local_repo := dir;
         sel_repo_add := None;
         sel_pacman_conf := conf;
         sel_packages := packages;
         sel_log := [] |}.

(** Up to the call of [_build_package_list]: the packages of
    [classify_and_stage], then the loop over [gui_must]. *)
Definition select_packages (f : formatting) (h : host) (cfg : config)
    (dir : list text) (conf : text) (stdout : text) : selection :=
  let all_packages := split_on LF (strip stdout) in
  let excluded_set : gset text := list_to_set (excluded_packages cfg) in
  let base := classify_and_stage f h cfg dir conf stdout in
  let '(packages, added_gui, gui_log) :=
    foldl (add_gui_package excluded_set all_packages)
          (sel_packages base, [], []) gui_must in
  {| sel_repo_packages := sel_repo_packages base;
     sel_aur_packages := sel_aur_packages base;
     sel_copied := sel_copied base;
     sel_failed := sel_failed base;
     sel_local_repo := sel_local_repo base;
     sel_repo_add := sel_repo_add base;
     sel_pacman_conf := sel_pacman_conf base;
     sel_packages := packages;
     sel_log := sel_log base ++ gui_log |}.

(** ** Build driver: the loop of [run] over the output of mkarchiso *)

Definition non_fatal_patterns : list text :=
  [str "/boot/grub/grub.cfg.new: no such file or directory";
   str "running in chroot";
   str "skipped: running in chroot";
   str "errors were encountered during the build. the image may not be complete"].

Definition error_keywords : list text :=
  [str "error:"; str "failed"; str "fatal:"; str "cannot"; str "unable"].

Record loop_state := {
  error_detected : bool;
  trace : list signal
}.

(** The progress value one line triggers, by the [if]/[elif] chain. *)
Definition line_progress (line_lower : text) : option Z :=
  if contains (str "squashfs") line_lower
     && (contains (str "creating") line_lower || contains (str "created") line_lower)
  then Some 80%Z
  else if contains (str "iso") line_lower && contains (str "creating") line_lower
  then Some 90%Z
  else if contains (str "packages") line_lower && contains (str "installing") line_lower
  then Some 50%Z
  else if contains (str "building") line_lower && contains (str "airootfs") line_lower
  then Some 60%Z
  else None.

(** One turn of [for line in self.process.stdout]. *)
Definition loop_step (st : loop_state) (line : text) : loop_state :=
  let relayed := trace st ++ [output_signal line] in
  let line_lower := lower line in
  let is_non_fatal :=
    existsb (fun pattern => contains pattern line_lower) non_fatal_patterns in
  let st1 :=
    if negb is_non_fatal
       && existsb (fun keyword => contains keyword line_lower) error_keywords
    then
      if negb (contains (str "warning") line_lower) then
        {| error_detected := true;
           trace := relayed ++ [output_signal (str "[ERROR DETECTED] " ++ line)] |}
      else {| error_detected := error_detected st; trace := relayed |}
    else {| error_detected := error_detected st; trace := relayed |} in
  match line_progress line_lower with
  | Some value =>
      {| error_detected := error_detected st1;
         trace := trace st1 ++ [progress_signal value] |}
  | None => st1
  end.

(** The loop runs until the stream of the subprocess ends; then
    [self.process.wait()] and [progress_signal.emit(100)]. *)
Definition build_loop (lines : list text) : loop_state :=
  let st := foldl loop_step {| error_detected := false; trace := [] |} lines in
  {| error_detected := error_detected st;
     trace := trace st ++ [progress_signal 100] |}.

Definition progress_values (t : list signal) : list Z :=
  omap (fun s => match s with progress_signal v => Some v | _ => None end) t.

Definition relayed_lines (t : list signal) : list text :=
  omap (fun s => match s with output_signal m => Some m | _ => None end) t.

(** ** Artifact verifier: the end of [run] *)

Record file_stat := {
  path : text;
  st_size : Z    (* bytes *)
}.

(** What the build left behind: the exit code of mkarchiso, the matches of
    [Path(output_dir).glob('*.iso')] and of
    [Path(build_dir).rglob('*.squashfs')], whether [output_dir/arch] exists
    and the matches of [rglob('*.squashfs')] below it, and exit code and
    output of [file iso_file] ([None] when running it raised). *)
Record build_site := {
  returncode : Z;
  iso_files : list file_stat;
  build_squashfs : list file_stat;
  arch_dir_exists : bool;
  arch_squashfs : list file_stat;
  file_cmd : option (Z * text)
}.

(** Sizes are compared in GB, [st_size / 1024**3] as a float. The division
    by a power of two is exact, so [size > 1.0] is [st_size > 1024**3] and
    [size < 1.0] is [st_size < 1024**3]; no integer lies between
    [0.1 * 1024**3] and the float nearest to 0.1 times [1024**3], so
    [squashfs_size < 0.1] is [10 * st_size < 1024**3]. *)
Definition GiB : Z := 1024 ^ 3.

Definition size_gt_1 (bytes : Z) : bool := (GiB <? bytes)%Z.
Definition size_lt_1 (bytes : Z) : bool := (bytes <? GiB)%Z.
Definition size_lt_tenth (bytes : Z) : bool := (10 * bytes <? GiB)%Z.

Definition rule : text := concat (replicate 60 (str "=")).

(** The search for the payload: the build tree first, then
    [output_dir/arch] when it exists. *)
Definition located_squashfs (site : build_site) : list file_stat :=
  match build_squashfs site with
  | [] => if arch_dir_exists site then arch_squashfs site else []
  | found => found
  end.

Definition verify (f : formatting) (build_dir output_dir : text)
    (error_detected : bool) (site : build_site) : list signal :=
  match iso_files site with
  | iso_file :: _ =>
      let size := st_size iso_file in
      let head :=
        [output_signal ([LF] ++ rule ++ [LF]);
         (if bool_decide (returncode site = 0%Z)
          then output_signal (str "[SUCCESS] ISO build completed!" ++ [LF])
          else output_signal
                 (str "[WARNING] Build completed with warnings/errors, but ISO was created."
                  ++ [LF]));
         output_signal (str "[INFO] ISO created: " ++ path iso_file ++ [LF]);
         output_signal (str "[INFO] Size: " ++ fmt_gb f size ++ str " GB" ++ [LF]);
         output_signal ([LF] ++ str "[INFO] Verifying build artifacts..." ++ [LF])] in
      let squashfs_files := located_squashfs site in
      let '(squashfs_found, payload) :=
        match squashfs_files with
        | squashfs :: _ =>
            (true,
             output_signal
               (str "[INFO] Squashfs found in build dir: " ++ path squashfs
                ++ str " (" ++ fmt_gb f (st_size squashfs) ++ str " GB)" ++ [LF])
             :: (if size_lt_tenth (st_size squashfs)
                 then [output_signal
                         (str "[WARN] Squashfs file is very small - may be corrupted or empty!"
                          ++ [LF])]
                 else []))
        | [] =>
            if size_gt_1 size then
              (true,
               [output_signal
                  (str "[INFO] Squashfs not found in build directory. Checking ISO contents..."
                   ++ [LF]);
                output_signal
                  (str "[INFO] ISO size is reasonable. Squashfs is likely embedded in the ISO (normal behavior)."
                   ++ [LF])])
            else
              (false,
               [output_signal
                  (str "[INFO] Squashfs not found in build directory. Checking ISO contents..."
                   ++ [LF]);
                output_signal
                  (str "[WARN] ISO size is suspiciously small. Squashfs may be missing."
                   ++ [LF])])
        end in
      let structure :=
        output_signal (str "[INFO] Verifying ISO structure..." ++ [LF])
        :: match file_cmd site with
           | Some (rc, stdout) =>
               if bool_decide (rc = 0%Z) then
                 output_signal (str "[INFO] ISO file type: " ++ strip stdout ++ [LF])
                 :: (if contains (str "ISO 9660") stdout
                        || contains (str "bootable") (lower stdout)
                     then [output_signal
                             (str "[INFO] ISO appears to be a valid bootable image." ++ [LF])]
                     else [])
               else []
           | None => []
           end in
      head ++ payload ++ structure ++
      (if negb squashfs_found && size_lt_1 size then
         [output_signal
            (str "[ERROR] Build verification failed: ISO is too small and squashfs not found."
             ++ [LF])]
         ++ (if error_detected
             then [output_signal
                     (str "[ERROR] Errors were detected in mkarchiso output (see above)"
                      ++ [LF])]
             else [])
         ++ [finished_signal false (str "ISO verification failed - may not boot")]
       else [finished_signal true (path iso_file)])
  | [] =>
      if bool_decide (returncode site = 0%Z) then
        [output_signal
           ([LF] ++ str "[ERROR] Build process completed but ISO file not found!" ++ [LF]);
         output_signal (str "[ERROR] Check build directory: " ++ build_dir ++ [LF]);
         output_signal (str "[ERROR] Check output directory: " ++ output_dir ++ [LF]);
         finished_signal false (str "ISO file not found in output directory")]
      else
        [output_signal
           ([LF] ++ str "[ERROR] ISO build failed! (exit code: "
            ++ fmt_int f (returncode site) ++ str ")" ++ [LF]);
         finished_signal false
           (str "Build process failed with exit code " ++ fmt_int f (returncode site))]
  end.

(** From [Popen] to the end of [run]: the loop over the output, then the
    verification of what the build left. *)
Definition build_and_verify (f : formatting) (build_dir output_dir : text)
    (lines : list text) (site : build_site) : list signal :=
  let st := build_loop lines in
  trace st ++ verify f build_dir output_dir (error_detected st) site.

(** The [BuildOutcome] an observer reads off the signals. *)
Inductive build_outcome :=
  | Success (artifact_path : text)
  | Failure (reason : text).

Definition outcomes (t : list signal) : list build_outcome :=
  omap (fun s => match s with
                 | finished_signal true m => Some (Success m)
                 | finished_signal false m => Some (Failure m)
                 | _ => None
                 end) t.

(** The messages that carry a warning tag. *)
Definition warnings (t : list signal) : list text :=
  filter (fun m => startswith (str "[WARN]") m = true) (relayed_lines t).

(** Two iteration orders for sets. *)
Program Definition canonical_iteration : set_iteration :=
  {| iterate := elements |}.
Next Obligation. reflexivity. Qed.

Program Definition reversed_iteration : set_iteration :=
  {| iterate := fun S => reverse (elements S) |}.
Next Obligation. intros S. apply reverse_Permutation. Qed.

(** A formatting to run the model with: sizes and numbers are not
    printed. *)
Definition plain_formatting : formatting :=
  {| fmt_gb := fun _ => str "?"; fmt_int := fun _ => str "?" |}.

(** ** Files written into the image root *)

(** The package list for the installer, [/root/pkglist.txt]:
    ["\n".join(pkg_lines) + "\n"]. *)
Definition pkglist_txt (pkg_lines : list text) : text :=
  join [LF] pkg_lines ++ [LF].

(** [profile_dir/exclude_dirs.txt], written when [exclude_dirs] is not
    empty: ["\n".join(exclude_dirs).rstrip() + "\n"]. *)
Definition exclude_dirs_txt (exclude_dirs : list text) : option text :=
  if bool_decide (exclude_dirs = []) then None
  else Some (rstrip (join [LF] exclude_dirs) ++ [LF]).

(** ** USB writer: [USBWriterThread.run] *)

(** What the writer finds: the effective user id, whether the device
    exists, the size of the image, the exit code of [umount -f device*],
    which of the partitions 1 to 9 exist and how [umount -f] goes for each,
    and the output lines and exit code of [dd]. A call that raises is given
    by the text of its exception, [str(e)]. *)
Record usb_site := {
  geteuid : Z;
  device_exists : bool;
  iso_getsize : text + Z;
  umount_device : text + Z;
  partition_exists : Z -> bool;
  umount_partition : Z -> option text;   (* [Some e]: the call raised *)
  dd : text + (list text * Z)
}.

(** The handler [except Exception as e]. *)
Definition usb_raised (e : text) : list signal :=
  [output_signal ([LF] ++ str "[ERROR] " ++ e ++ [LF])] ++ [finished_signal false e].

(** [for part_num in range(1, 10)], up to the first call that raises. *)
Fixpoint umount_partitions (site : usb_site) (part_nums : list Z) : option text :=
  match part_nums with
  | [] => None
  | part_num :: rest =>
      if partition_exists site part_num then
        match umount_partition site part_num with
        | Some e => Some e
        | None => umount_partitions site rest
        end
      else umount_partitions site rest
  end.

(** One turn of [for line in self.process.stdout]. *)
Definition dd_line (line : text) : list signal :=
  output_signal line
  :: (if contains (str "records in") line || contains (str "records out") line
      then [progress_signal 60]
      else if contains (str "copied") (lower line) then [progress_signal 80]
      else []).

Definition usb_run (f : formatting) (iso_path device : text) (site : usb_site)
    : list signal :=
  if negb (bool_decide (geteuid site = 0%Z)) then
    [finished_signal false (str "Error: Must run as root (use sudo) to write to USB")]
  else if negb (device_exists site) then
    [finished_signal false (str "Error: Device " ++ device ++ str " does not exist")]
  else
    match iso_getsize site with
    | inl e => usb_raised e
    | inr iso_size =>
        let announced :=
          [output_signal
             ([LF] ++ str "[INFO] Writing ISO to USB device: " ++ device ++ [LF]);
           output_signal (str "[INFO] ISO size: " ++ fmt_gb f iso_size ++ str " GB" ++ [LF]);
           output_signal
             (str "[WARN] This will erase all data on " ++ device ++ str "!" ++ [LF]);
           output_signal
             (str "[INFO] Writing... (this may take several minutes)" ++ [LF]);
           progress_signal 10;
           output_signal (str "[INFO] Unmounting device partitions..." ++ [LF])] in
        match umount_device site with
        | inl e => announced ++ usb_raised e
        | inr returncode =>
            match (if bool_decide (returncode <> 0%Z)
                   then umount_partitions site [1; 2; 3; 4; 5; 6; 7; 8; 9]%Z
                   else None) with
            | Some e => announced ++ usb_raised e
            | None =>
                let unmounted :=
                  announced
                  ++ [progress_signal 20;
                      output_signal (str "[INFO] Writing ISO to " ++ device ++ str "..." ++ [LF])] in
                match dd site with
                | inl e => unmounted ++ usb_raised e
                | inr (lines, dd_returncode) =>
                    unmounted ++ concat (map dd_line lines)
                    ++ (if bool_decide (dd_returncode = 0%Z) then
                          [progress_signal 100;
                           output_signal
                             ([LF] ++ str "[SUCCESS] ISO written to USB device successfully!"
                              ++ [LF]);
                           output_signal (str "[INFO] Device: " ++ device ++ [LF]);
                           output_signal
                             (str "[INFO] You can now boot from this USB drive." ++ [LF])]
                          ++ [finished_signal true (str "ISO written to " ++ device)]
                        else
                          [output_signal
                             ([LF] ++ str "[ERROR] Failed to write ISO to USB device!" ++ [LF])]
                          ++ [finished_signal false (str "USB write process failed")])
                end
            end
        end
    end.

(** ** The profile definition: [profiledef.sh] *)

(** The double quote of the f-strings. *)
Definition DQ : ascii := ascii_of_N 34.

(** One turn of [for line in lines]: what is appended to
    [updated_lines]. *)
Definition profiledef_line (iso_name iso_label line : text) : text :=
  let stripped := strip line in
  if startswith (str "iso_name=") stripped then
    str "iso_name=" ++ [DQ] ++ iso_name ++ [DQ; LF]
  else if startswith (str "iso_label=") stripped then
    str "iso_label=" ++ [DQ] ++ iso_label ++ [DQ; LF]
  else if startswith (str "iso_publisher=") stripped then
    str "iso_publisher=" ++ [DQ] ++ str "Custom Arch Linux" ++ [DQ; LF]
  else if startswith (str "iso_application=") stripped then
    str "iso_application=" ++ [DQ] ++ str "Custom Arch Linux Live/Install"
    ++ [DQ; LF]
  else if startswith (str "pacman_conf=") stripped then
    str "pacman_conf=" ++ [DQ] ++ str "pacman.conf" ++ [DQ; LF]
  else line.

(** The two exceptions of the step: [FileNotFoundError("profiledef.sh not
    found")] and [IOError("profiledef.sh write failed")]. *)
Inductive profiledef_failure :=
  | profiledef_not_found
  | profiledef_write_failed.

(** The rewriting of [profile_dir/profiledef.sh]. [original] is the
    contents of [/usr/share/archiso/configs/releng/profiledef.sh] and
    [profiledef] those of the file in the profile, [None] for a file that
    does not exist. The file is written with [newline=''], so what
    [writelines] is given is what the file holds; the result is the new
    contents of the file in the profile. *)
Definition customize_profiledef (iso_name iso_label : text)
    (original profiledef : option text) : profiledef_failure + text :=
  match profiledef with
  | None => inl profiledef_not_found
  | Some own =>
      let lines := readlines (default own original) in
      let updated_lines := map (profiledef_line iso_name iso_label) lines in
      let written := concat updated_lines in
      if bool_decide (written = []) then inl profiledef_write_failed
      else inr written
  end.

(** ** The dialogs and the main window *)

(** A Python [dict] with text keys, by its items in insertion order;
    [dict_set d k v] is [d[k] = v]. *)
Fixpoint dict_set {V} (d : list (text * V)) (k : text) (v : V) : list (text * V) :=
  match d with
  | [] => [(k, v)]
  | (k', v') :: d' =>
      if bool_decide (k' = k) then (k', v) :: d' else (k', v') :: dict_set d' k v
  end.

Definition DEFAULT_EXCLUDE_DIRS : list text :=
  [str ".cache"; str "cache"; str ".local/share/Trash";
   str "Downloads"; str "Downloads/*";
   str "Templates"; str "Public"; str "Videos"; str "Music";
   str ".mozilla/firefox/*/cache2";
   str ".config/google-chrome/*/Cache";
   str ".config/chromium/*/Cache";
   str "snap"; str ".snap";
   str ".docker"; str "docker";
   str "VirtualBox VMs"; str ".VirtualBox";
   str "tmp"; str "temp"; str ".tmp";
   str "node_modules"; str "__pycache__";
   str ".npm"; str ".yarn"; str ".gradle"; str ".m2";
   str ".steam"; str ".local/share/Steam";
   str "go/pkg"; str ".cargo/registry"].

(** What the user does while a dialog of exclusions is open: the four
    buttons, with the answer to the input box and the current row. *)
Inductive exclusions_event :=
  | press_add_custom (input : text) (ok : bool)
  | press_remove (current_row : Z)
  | press_select_all
  | press_deselect_all.

Module ExclusionsDialog.

(** The rows of [exclude_list], text and check state. [__init__] with a
    [dict] adds one row for each of its items. *)
Definition init (exclude_items : list (text * bool)) : list (text * bool) :=
  map (fun '(excl_dir, checked) => (excl_dir, checked)) exclude_items.

Definition add_custom_exclusion (exclude_list : list (text * bool))
    (input : text) (ok : bool) : list (text * bool) :=
  if ok && negb (bool_decide (strip input = [])) then
    if existsb (fun item => bool_decide (item.1 = strip input)) exclude_list
    then exclude_list
    else exclude_list ++ [(strip input, true)]
  else exclude_list.

(** [takeItem] of a row that does not exist takes nothing. *)
Definition remove_exclusion (exclude_list : list (text * bool))
    (current_row : Z) : list (text * bool) :=
  if (0 <=? current_row)%Z then delete (Z.to_nat current_row) exclude_list
  else exclude_list.

Definition select_all_exclusions (exclude_list : list (text * bool))
    : list (text * bool) :=
  map (fun item => (item.1, true)) exclude_list.

Definition deselect_all_exclusions (exclude_list : list (text * bool))
    : list (text * bool) :=
  map (fun item => (item.1, false)) exclude_list.

Definition get_selected_exclusions (exclude_list : list (text * bool))
    : list text :=
  map fst (filter (fun item => item.2 = true) exclude_list).

Definition get_all_exclusions (exclude_list : list (text * bool))
    : list (text * bool) :=
  foldl (fun exclusions item => dict_set exclusions item.1 item.2) [] exclude_list.

Definition handle (exclude_list : list (text * bool)) (e : exclusions_event)
    : list (text * bool) :=
  match e with
  | press_add_custom input ok => add_custom_exclusion exclude_list input ok
  | press_remove current_row => remove_exclusion exclude_list current_row
  | press_select_all => select_all_exclusions exclude_list
  | press_deselect_all => deselect_all_exclusions exclude_list
  end.

(** [dialog.exec()]: the rows when the dialog closes. *)
Definition exec (exclude_items : list (text * bool))
    (events : list exclusions_event) : list (text * bool) :=
  foldl handle (init exclude_items) events.

End ExclusionsDialog.

Module PackageLoaderThread.

(** The key of [all_packages.sort]: [(not x['is_aur'], x['name'].lower())],
    and the order of such pairs. *)
Definition key (x : text * bool) : bool * text := (negb x.2, lower x.1).

Definition key_leb (a b : bool * text) : bool :=
  if bool_decide (a.1 = b.1) then text_leb a.2 b.2 else negb a.1.

(** [list.sort(key=...)]: stable. *)
Fixpoint insert_by_key (x : text * bool) (l : list (text * bool))
    : list (text * bool) :=
  match l with
  | [] => [x]
  | y :: l' =>
      if key_leb (key x) (key y) then x :: l else y :: insert_by_key x l'
  end.

Definition sort_by_key (l : list (text * bool)) : list (text * bool) :=
  foldr insert_by_key [] l.

(** What [finished_signal] carries: the packages as pairs of [name] and
    [is_aur], and the set of the AUR packages. [pacman_Qqe] is the output
    of [pacman -Qqe], [None] when the call raises. *)
Definition run (h : host) (pacman_Qqe : option text)
    : list (text * bool) * gset text :=
  match pacman_Qqe with
  | Some stdout =>
      let package_names :=
        map strip
            (filter (fun pkg => negb (bool_decide (strip pkg = [])) = true)
                    (split_on LF (strip stdout))) in
      let all_packages :=
        map (fun pkg => (pkg, negb (pacman_Si h pkg))) package_names in
      let aur_packages : gset text :=
        list_to_set (filter (fun pkg => pacman_Si h pkg = false) package_names) in
      (sort_by_key all_packages, aur_packages)
  | None => ([], ∅)
  end.

End PackageLoaderThread.

Module PackageSelectionDialog.

Record state := {
  all_packages : list (text * bool);     (* name, is_aur *)
  aur_packages : gset text;
  excluded_packages : list text;
  package_list : list (text * bool)      (* the rows: text, check state *)
}.

(** The dialog as [__init__] leaves it, before the loader has finished. *)
Definition init (excluded : list text) : state :=
  {| all_packages := []; aur_packages := ∅; excluded_packages := excluded;
     package_list := [] |}.

Definition populate_list (st : state) (filter_text : text) : state :=
  let filter_lower := lower filter_text in
  {| all_packages := all_packages st;
     aur_packages := aur_packages st;
     excluded_packages := excluded_packages st;
     package_list :=
       map (fun pkg_info => (pkg_info.1, false))
           (filter (fun pkg_info =>
                      negb (bool_decide (filter_text = []))
                      && negb (contains filter_lower (lower pkg_info.1)) = false)
                   (all_packages st)) |}.

(** The first row with the text [pkg] is checked. *)
Fixpoint check_first (pkg : text) (rows : list (text * bool))
    : list (text * bool) :=
  match rows with
  | [] => []
  | item :: rest =>
      if bool_decide (item.1 = pkg) then (item.1, true) :: rest
      else item :: check_first pkg rest
  end.

Definition on_loading_finished (st : state) (loaded : list (text * bool))
    (aur : gset text) : state :=
  let st1 :=
    {| all_packages := loaded; aur_packages := aur;
       excluded_packages := excluded_packages st;
       package_list := package_list st |} in
  if bool_decide (loaded = []) then st1
  else
    let st2 := populate_list st1 [] in
    {| all_packages := all_packages st2;
       aur_packages := aur_packages st2;
       excluded_packages := excluded_packages st2;
       package_list :=
         foldl (fun rows pkg => check_first pkg rows) (package_list st2)
               (excluded_packages st2) |}.

Definition filter_packages (st : state) (input : text) : state :=
  populate_list st input.

Definition get_excluded_packages (st : state) : list text :=
  map fst (filter (fun item => item.2 = true) (package_list st)).

End PackageSelectionDialog.


Module ISOBuilderGUI.

(** [exclude_list_items] as [init_ui] sets it. *)
Definition initial_exclude_list_items : list (text * bool) :=
  foldl (fun items excl_dir => dict_set items excl_dir true) []
        DEFAULT_EXCLUDE_DIRS.

(** [exclude_list_items] after [show_exclusions_dialog]. *)
Definition show_exclusions_dialog (exclude_list_items : list (text * bool))
    (events : list exclusions_event) (accepted : bool) : list (text * bool) :=
  if accepted
  then ExclusionsDialog.get_all_exclusions
         (ExclusionsDialog.exec exclude_list_items events)
  else exclude_list_items.

Definition get_selected_exclusions (exclude_list_items : list (text * bool))
    : list text :=
  map fst (filter (fun item => item.2 = true) exclude_list_items).



End ISOBuilderGUI.

(** ** The theme script: [apply-QoGir.py] *)

Module ApplyQogir.

Definition THEME_DARK : text := str "Qogir-Dark".
Definition THEME_LIGHT : text := str "Qogir-Light".

Definition new_exports (theme_name : text) : list text :=
  [str "export QT_QPA_PLATFORMTHEME=qt5ct";
   str "export QT_STYLE_OVERRIDE=" ++ theme_name;
   str "export QT_QTA_PLATFORM=x11"].

(** The contents of [~/.profile] after [apply_qt_theme], when no call
    raises. [profile] holds the contents before, [None] for a file that
    does not exist; the file is opened for appending. *)
Definition profile_after (theme_name : text) (profile : option text) : text :=
  let profile_text :=
    match profile with
    | Some raw => read raw
    | None => []
    end in
  default [] profile
  ++ concat (map (fun line => line ++ [LF])
                 (filter (fun line => contains line profile_text = false)
                         (new_exports theme_name))).

End ApplyQogir.

(** ** The theme switcher: [set_gtk4_theme.py] *)

Module SetGtk4Theme.

(** [s.replace(old, new)] for an [old] that is not empty: the occurrences
    of [old] are taken from the left and do not overlap. [skip] counts the
    characters of a replaced occurrence that are still to be passed. *)
Fixpoint replace_skip (old new : text) (skip : nat) (s : text) : text :=
  match s with
  | [] => []
  | c :: s' =>
      match skip with
      | S k => replace_skip old new k s'
      | O =>
          if startswith old s
          then new ++ replace_skip old new (length old - 1) s'
          else c :: replace_skip old new 0 s'
      end
  end.

Definition replace (old new s : text) : text := replace_skip old new 0 s.

(** The contents of the Qt configuration file after [set_qt_theme], when
    no call raises; [qt_config_file] holds the contents before, [None] for
    a file that does not exist. *)
Definition set_qt_theme (style : text) (qt_config_file : option text) : text :=
  match qt_config_file with
  | Some raw =>
      let current_content := read raw in
      replace (str "style=gtk3") (str "style=" ++ style)
              (replace (str "style=gtk2") (str "style=" ++ style) current_content)
  | None => str "[Appearance]
style=" ++ style ++ [LF]
  end.

End SetGtk4Theme.

(** ** Sample inputs *)

(** A host given by its package cache: the glob [{pkg}-*.pkg.tar.*] over
    the listing [cache], for a name [pkg] without glob characters. *)
Definition glob_pkg (cache : list cache_file) (pkg : text) : list cache_file :=
  filter (fun file =>
            startswith (pkg ++ str "-") (file_name file)
            && contains (str ".pkg.tar.")
                 (drop (length (pkg ++ str "-")) (file_name file)) = true)
         cache.

Program Definition host_of_cache (si ql : text -> bool)
    (cache : list cache_file) (cp : cache_file -> bool) : host :=
  {| pacman_Si := si; pacman_Ql := ql;
     cache_glob := glob_pkg cache; cp_ok := cp |}.
Next Obligation.
  intros si ql cache cp pkg file [H _]%list_elem_of_filter.
  apply andb_prop in H as [_ H]. unfold is_pkg_archive.
  revert H. generalize (length (pkg ++ str "-")) as n.
  generalize (file_name file) as name. clear.
  intros name n. revert name.
  induction n as [|n IH]; intros name; [done|].
  destruct name as [|c name]; [done|].
  intros H%IH. cbn [contains]. rewrite H. apply orb_true_r.
Qed.

(** [vim] comes from a repository; [yay] and [paru] do not. The cache has
    two builds of [yay] and none of [paru]. *)
Definition sample_cache : list cache_file :=
  [ {| file_name := str "yay-12.3.5-1-x86_64.pkg.tar.zst"; st_mtime := 200 |};
    {| file_name := str "yay-12.3.4-1-x86_64.pkg.tar.zst"; st_mtime := 100 |};
    {| file_name := str "vim-9.1-1-x86_64.pkg.tar.zst"; st_mtime := 150 |} ].

Definition sample_host : host :=
  host_of_cache (fun pkg => bool_decide (pkg = str "vim")) (fun _ => true)
                sample_cache (fun _ => true).

(** The sample machine when every [cp] into the local repository fails. *)
Definition host_with_failing_cp : host :=
  host_of_cache (fun pkg => bool_decide (pkg = str "vim")) (fun _ => true)
                sample_cache (fun _ => false).

(** The same machine when [pacman -Ql] fails. *)
Definition host_without_file_lists : host :=
  host_of_cache (fun pkg => bool_decide (pkg = str "vim")) (fun _ => false)
                sample_cache (fun _ => true).

(** The same machine with an empty package cache. *)
Definition host_without_cache : host :=
  host_of_cache (fun pkg => bool_decide (pkg = str "vim")) (fun _ => true)
                [] (fun _ => true).

Definition sample_config : config :=
  {| include_custom_repos := true; excluded_packages := [] |}.

Definition sample_inventory : text := str "vim
yay
paru
".

Definition sample_pacman_conf : text := str "[options]
".

(** A profile definition as it may come with a profile. *)
Definition sample_profiledef : text := str "#!/usr/bin/env bash
iso_name=archlinux
  iso_label=ARCH_2024
install_dir=arch
pacman_conf=other.conf".

(** Three sites a build may leave: no image; an image of 2.0 GB without
    payload; an image of 0.05 GB with a payload of 0.01 GB. *)
Definition site_without_image : build_site :=
  {| returncode := 0; iso_files := []; build_squashfs := [];
     arch_dir_exists := false; arch_squashfs := []; file_cmd := None |}.

Definition site_large_image : build_site :=
  {| returncode := 0;
     iso_files := [ {| path := str "/out/arch.iso"; st_size := 2147483648 |} ];
     build_squashfs := []; arch_dir_exists := false; arch_squashfs := [];
     file_cmd := None |}.

Definition site_small_image : build_site :=
  {| returncode := 0;
     iso_files := [ {| path := str "/out/arch.iso"; st_size := 53687091 |} ];
     build_squashfs := []; arch_dir_exists := false; arch_squashfs := [];
     file_cmd := None |}.

Definition site_small_payload : build_site :=
  {| returncode := 0;
     iso_files := [ {| path := str "/out/arch.iso"; st_size := 53687091 |} ];
     build_squashfs :=
       [ {| path := str "/work/build/iso/arch/x86_64/airootfs.squashfs";
            st_size := 10737418 |} ];
     arch_dir_exists := false; arch_squashfs := [];
     file_cmd := None |}.

(** ** Notions used in the statements *)

(** A text without LF and CR: one line for [readlines]. *)
Definition no_newline (l : text) : bool :=
  forallb (fun c => negb (is_lf c || is_cr c)) l.

(** A text without any boundary of [splitlines]. *)
Definition no_linebreak (l : text) : bool :=
  forallb (fun c => negb (is_linebreak c)) l.

(** What the final re-read makes of the line [f.write(f"{pkg}\n")]. *)
Definition line_tokens (pkg : text) : list text :=
  reread_pkg_lines (pkg ++ [LF]).

(** A name that is written as one line and read back as itself: no
    whitespace around it, no LF and no CR inside. *)
Definition clean_name (pkg : text) : Prop :=
  strip pkg = pkg /\ no_newline pkg = true.

(** [sub] occurs somewhere in [s]. *)
Definition occurs (sub s : text) : Prop :=
  exists pre post, s = pre ++ sub ++ post.

(** A fatal signal in the words of the specification: an error keyword
    occurs in the line, whatever the case of its letters, [warning] does
    not, and no entry of the non-fatal list does. *)
Definition fatal_signal (line : text) : Prop :=
  (exists keyword, keyword ∈ error_keywords /\ occurs keyword (lower line))
  /\ ~ occurs (str "warning") (lower line)
  /\ (forall pattern, pattern ∈ non_fatal_patterns -> ~ occurs pattern (lower line)).

Definition idle : loop_state := {| error_detected := false; trace := [] |}.

(** Whether the loop records the line as an error, and what it sends for
    the line. *)
Definition records_fatal (line : text) : bool :=
  error_detected (loop_step idle line).

Definition line_signals (line : text) : list signal :=
  trace (loop_step idle line).

(** The progress value of a line of output, if it has one. *)
Definition milestone (line : text) : option Z := line_progress (lower line).

(** What the log shows for one line of output. *)
Definition relayed (line : text) : list text :=
  line :: (if records_fatal line then [str "[ERROR DETECTED] " ++ line] else []).

(** The inventory as [run] splits it. *)
Definition all_packages_of (stdout : text) : list text :=
  split_on LF (strip stdout).

Definition named_packages_of (stdout : text) : list text :=
  filter (fun pkg => negb (bool_decide (strip pkg = [])) = true)
         (all_packages_of stdout).

(** The artifact of a package can be staged: its files can be listed and
    the cache has a file for it. *)
Definition stageable (h : host) (pkg : text) : bool :=
  pacman_Ql h pkg && negb (bool_decide (cache_glob h pkg = [])).

(** The test a package of the inventory passes to be selected; it asks the
    host about this package only. *)
Definition selectable (h : host) (cfg : config) (pkg : text) : bool :=
  if include_custom_repos cfg then
    negb (bool_decide (pkg ∈ excluded_packages cfg))
    && (pacman_Si h pkg || stageable h pkg)
  else pacman_Si h pkg.

(** The file [run] picks for a package from what the cache lists. *)
Definition picked (files : list cache_file) : option cache_file :=
  match files with
  | [] => None
  | f0 :: fs => Some (default f0 (newest (f0 :: fs)))
  end.

(** A file of that name was copied into the local repository for one of
    the packages [aur_packages]. *)
Definition artifact_copied (h : host) (aur_packages : list text) (name : text)
    : Prop :=
  exists pkg file,
    pkg ∈ aur_packages /\ pacman_Ql h pkg = true
    /\ picked (cache_glob h pkg) = Some file
    /\ cp_ok h file = true /\ name = file_name file.

(** A name that is one token of a package list: no whitespace around it,
    no line boundary inside, and not a comment. *)
Definition token_name (pkg : text) : Prop :=
  strip pkg = pkg /\ no_linebreak pkg = true
  /\ startswith (str "#") pkg = false.

(** The comment that opens the added block. *)
Definition added_header : text := str "# Added from current system".

(** The settings [run] makes in [profiledef.sh], key and value. *)
Definition configured (iso_name iso_label : text) : list (text * text) :=
  [(str "iso_name=", iso_name);
   (str "iso_label=", iso_label);
   (str "iso_publisher=", str "Custom Arch Linux");
   (str "iso_application=", str "Custom Arch Linux Live/Install");
   (str "pacman_conf=", str "pacman.conf")].

(** The line [key"value"] with its line end. *)
Definition setting (key value : text) : text :=
  key ++ [DQ] ++ value ++ [DQ; LF].

(** A line that sets one of the keys, whatever the space before it. *)
Definition is_setting (line : text) : bool :=
  existsb (fun kv => startswith kv.1 (strip line)) (configured [] []).

(** The lines a file is cut into: each ends in its only LF and has no
    CR, but the last one, which may have no line end at all. *)
Definition full_line (l : text) : Prop :=
  exists body, l = body ++ [LF] /\ no_newline body = true.

Definition part_line (l : text) : Prop :=
  l <> [] /\ no_newline l = true.

Fixpoint line_list (ls : list text) : Prop :=
  match ls with
  | [] => True
  | l :: ls' => (full_line l \/ (part_line l /\ ls' = [])) /\ line_list ls'
  end.

(** Everything the USB writer needs goes well: it runs as root, the
    device exists, the size of the image can be read, no [umount] raises,
    and [dd] runs and exits with 0. *)
Definition usb_write_possible (site : usb_site) : Prop :=
  geteuid site = 0%Z
  /\ device_exists site = true
  /\ (exists iso_size, iso_getsize site = inr iso_size)
  /\ (exists returncode,
        umount_device site = inr returncode
        /\ (returncode <> 0%Z ->
            umount_partitions site [1; 2; 3; 4; 5; 6; 7; 8; 9]%Z = None))
  /\ (exists lines, dd site = inr (lines, 0%Z)).

(** The order of the list the package loader sends: AUR packages before
    the others, and by name without regard to case within each kind. *)
Definition aur_first (x y : text * bool) : Prop :=
  (x.2 = true /\ y.2 = false)
  \/ (x.2 = y.2 /\ text_le (lower x.1) (lower y.1)).

(** The packages of the inventory as the loader names and marks them. *)
Definition loader_packages_of (h : host) (stdout : text) : list (text * bool) :=
  map (fun pkg => (pkg, negb (pacman_Si h pkg)))
      (map strip (named_packages_of stdout)).

(** A pattern as the dialog of exclusions holds it: not empty, no space
    around it, on one line. *)
Definition pattern_name (p : text) : Prop :=
  strip p = p /\ p <> [] /\ no_linebreak p = true.

(** The input box of the dialog gives one line. *)
Definition single_line_input (e : exclusions_event) : Prop :=
  match e with
  | press_add_custom input _ => no_linebreak input = true
  | _ => True
  end.

(** * Properties *)

(** ** Characters and stripping *)

Section text_facts.

Implicit Types (c : ascii) (s a b l : text) (ls : list text).

Lemma is_lf_eq c : is_lf c = true <-> c = LF.
Proof.
  unfold is_lf, code. rewrite N.eqb_eq. split.
  - intros H. rewrite <- (ascii_N_embedding c), H. reflexivity.
  - intros ->. reflexivity.
Qed.

Lemma is_cr_eq c : is_cr c = true <-> c = CR.
Proof.
  unfold is_cr, code. rewrite N.eqb_eq. split.
  - intros H. rewrite <- (ascii_N_embedding c), H. reflexivity.
  - intros ->. reflexivity.
Qed.

Lemma linebreak_is_space c : is_linebreak c = true -> is_space c = true.
Proof.
  unfold is_linebreak, is_space. rewrite !existsb_exists.
  intros (n & Hn & Hc). exists n. split; [|exact Hc].
  simpl in *. tauto.
Qed.

Lemma lf_is_linebreak c : is_lf c = true -> is_linebreak c = true.
Proof. intros ->%is_lf_eq. reflexivity. Qed.

Lemma cr_is_linebreak c : is_cr c = true -> is_linebreak c = true.
Proof. intros ->%is_cr_eq. reflexivity. Qed.

Lemma lstrip_all_space s : forallb is_space s = true -> lstrip s = [].
Proof.
  induction s as [|c s IH]; simpl; [done|].
  intros [Hc Hs]%andb_prop. rewrite Hc. auto.
Qed.

Lemma rstrip_nil s : rstrip s = [] <-> forallb is_space s = true.
Proof.
  induction s as [|c s IH]; simpl; [done|].
  destruct (rstrip s) as [|r rs] eqn:E.
  - destruct (is_space c); simpl; [|split; done].
    rewrite <- IH. done.
  - split; [done|]. intros [_ Hs]%andb_prop. apply IH in Hs. done.
Qed.

Lemma rstrip_cons c s :
  rstrip (c :: s) = if forallb is_space (c :: s) then [] else c :: rstrip s.
Proof.
  simpl. destruct (rstrip s) as [|r rs] eqn:E.
  - apply rstrip_nil in E. rewrite E, andb_true_r. by destruct (is_space c).
  - assert (forallb is_space s = false) as ->.
    { destruct (forallb is_space s) eqn:F; [|done].
      apply rstrip_nil in F. congruence. }
    by rewrite andb_false_r.
Qed.

Lemma rstrip_app a b :
  rstrip (a ++ b) = if forallb is_space b then rstrip a else a ++ rstrip b.
Proof.
  induction a as [|c a IH].
  - simpl. destruct (forallb is_space b) eqn:F; [|done]. by apply rstrip_nil.
  - rewrite <- app_comm_cons, !rstrip_cons, IH.
    simpl. rewrite forallb_app.
    destruct (forallb is_space b) eqn:F.
    + by rewrite andb_true_r.
    + by rewrite !andb_false_r.
Qed.

Lemma lstrip_app a b :
  lstrip (a ++ b) = if forallb is_space a then lstrip b else lstrip a ++ b.
Proof.
  induction a as [|c a IH]; simpl; [done|].
  destruct (is_space c); simpl; done.
Qed.

Lemma forallb_lstrip_false s :
  forallb is_space s = false -> forallb is_space (lstrip s) = false.
Proof.
  induction s as [|c s IH]; simpl; [done|].
  destruct (is_space c) eqn:E; simpl; [done|]. by rewrite E.
Qed.

(** Whitespace after a text does not change what [strip] returns. *)
Lemma strip_app_space a b : forallb is_space b = true -> strip (a ++ b) = strip a.
Proof.
  intros Hb. unfold strip. rewrite lstrip_app.
  destruct (forallb is_space a) eqn:Ha.
  - rewrite (lstrip_all_space a Ha), (lstrip_all_space b Hb). done.
  - rewrite rstrip_app, Hb. done.
Qed.

Lemma rstrip_decompose s :
  exists ws, s = rstrip s ++ ws /\ forallb is_space ws = true.
Proof.
  induction s as [|c s (ws & Hs & Hws)].
  - by exists [].
  - rewrite rstrip_cons. destruct (forallb is_space (c :: s)) eqn:F.
    + by exists (c :: s).
    + exists ws. split; [|done]. simpl. by rewrite <- Hs.
Qed.

Lemma strip_rstrip s : strip (rstrip s) = strip s.
Proof.
  destruct (rstrip_decompose s) as (ws & Hs & Hws).
  rewrite Hs at 2. by rewrite strip_app_space.
Qed.

Lemma strip_all_space s : forallb is_space s = true -> strip s = [].
Proof. intros H. unfold strip. by rewrite lstrip_all_space. Qed.


Lemma is_package_line_strip_eq a b :
  strip a = strip b -> is_package_line a = is_package_line b.
Proof. unfold is_package_line. by intros ->. Qed.

Lemma is_package_line_blank s :
  forallb is_space s = true -> is_package_line s = false.
Proof. intros H. unfold is_package_line. by rewrite strip_all_space. Qed.

End text_facts.

(** ** Lines of a file *)

Section line_facts.

Implicit Types (c : ascii) (s a b l rest : text) (ls : list text).

Lemma no_linebreak_no_newline l : no_linebreak l = true -> no_newline l = true.
Proof.
  unfold no_linebreak, no_newline. rewrite !forallb_forall.
  intros H c Hc. specialize (H c Hc).
  destruct (is_lf c) eqn:E1; [by rewrite (lf_is_linebreak c E1) in H|].
  destruct (is_cr c) eqn:E2; [by rewrite (cr_is_linebreak c E2) in H|]. done.
Qed.

Lemma no_newline_cons c l :
  no_newline (c :: l) = true <->
  is_lf c = false /\ is_cr c = false /\ no_newline l = true.
Proof.
  unfold no_newline. simpl. rewrite andb_true_iff, negb_true_iff, orb_false_iff.
  tauto.
Qed.

Lemma universal_newlines_id l :
  forallb (fun c => negb (is_cr c)) l = true -> universal_newlines l = l.
Proof.
  induction l as [|c l IH]; simpl; [done|].
  intros [Hc Hl]%andb_prop. apply negb_true_iff in Hc. rewrite Hc.
  by rewrite IH.
Qed.

Lemma universal_newlines_line l rest :
  no_newline l = true ->
  universal_newlines (l ++ LF :: rest) = l ++ LF :: universal_newlines rest.
Proof.
  induction l as [|c l IH]; [done|].
  intros (_ & Hcr & Hl)%no_newline_cons. simpl. rewrite Hcr.
  by rewrite IH.
Qed.

Lemma universal_newlines_cr_lf c c' s :
  is_cr c = true -> is_lf c' = true ->
  universal_newlines (c :: c' :: s) = LF :: universal_newlines s.
Proof. intros H1 H2. simpl. by rewrite H1, H2. Qed.

Lemma universal_newlines_cr c c' s :
  is_cr c = true -> is_lf c' = false ->
  universal_newlines (c :: c' :: s) = LF :: universal_newlines (c' :: s).
Proof.
  intros H1 H2.
  change (universal_newlines (c :: c' :: s))
    with (if is_cr c
          then if is_lf c' then LF :: universal_newlines s
               else LF :: universal_newlines (c' :: s)
          else c :: universal_newlines (c' :: s)).
  by rewrite H1, H2.
Qed.

Lemma universal_newlines_other c s :
  is_cr c = false -> universal_newlines (c :: s) = c :: universal_newlines s.
Proof. intros H. simpl. by rewrite H. Qed.

(** Translation of the line ends stops at every LF. *)
Lemma universal_newlines_app_lf a b :
  universal_newlines (a ++ LF :: b)
  = universal_newlines (a ++ [LF]) ++ universal_newlines b.
Proof.
  remember (length a) as n eqn:Hn. revert a Hn.
  induction n as [n IH] using lt_wf_ind. intros a Hn.
  destruct a as [|c a]; [done|]. cbn [app].
  destruct (is_cr c) eqn:Hc.
  - destruct a as [|c' a].
    { cbn [app]. by rewrite !(universal_newlines_cr_lf c LF). }
    cbn [app]. destruct (is_lf c') eqn:Hc'.
    + rewrite !(universal_newlines_cr_lf c c') by done.
      cbn [app]. f_equal. apply (IH (length a)); simpl in *; [lia|done].
    + rewrite !(universal_newlines_cr c c') by done.
      cbn [app]. f_equal.
      apply (IH (length (c' :: a)) ltac:(simpl in *; lia) (c' :: a) eq_refl).
  - rewrite !(universal_newlines_other c) by done.
    cbn [app]. f_equal. apply (IH (length a)); simpl in *; [lia|done].
Qed.

Lemma universal_newlines_snoc_lf a :
  exists u, universal_newlines (a ++ [LF]) = u ++ [LF].
Proof.
  remember (length a) as n eqn:Hn. revert a Hn.
  induction n as [n IH] using lt_wf_ind. intros a Hn.
  destruct a as [|c a]; [by exists []|]. cbn [app].
  destruct (is_cr c) eqn:Hc.
  - destruct a as [|c' a].
    { exists []. cbn [app]. by rewrite (universal_newlines_cr_lf c LF). }
    cbn [app]. destruct (is_lf c') eqn:Hc'.
    + rewrite (universal_newlines_cr_lf c c') by done.
      destruct (IH (length a) ltac:(simpl in *; lia) a eq_refl) as [u Hu].
      exists (LF :: u). by rewrite Hu.
    + rewrite (universal_newlines_cr c c') by done.
      destruct (IH (length (c' :: a)) ltac:(simpl in *; lia) (c' :: a) eq_refl)
        as [u Hu].
      exists (LF :: u). cbn [app] in Hu. by rewrite Hu.
  - rewrite (universal_newlines_other c) by done.
    destruct (IH (length a) ltac:(simpl in *; lia) a eq_refl) as [u Hu].
    exists (c :: u). by rewrite Hu.
Qed.

Lemma split_keepends_nil s : split_keepends s = [] -> s = [].
Proof.
  destruct s as [|c s]; [done|]. simpl.
  destruct (is_lf c); [done|]. by destruct (split_keepends s).
Qed.

Lemma split_keepends_app_lf a b :
  split_keepends (a ++ LF :: b) = split_keepends (a ++ [LF]) ++ split_keepends b.
Proof.
  induction a as [|c a IH]; [done|]. simpl.
  destruct (is_lf c); [by rewrite IH|].
  rewrite IH. destruct (split_keepends (a ++ [LF])) as [|l ls] eqn:E; [|done].
  apply split_keepends_nil in E. by destruct a.
Qed.

Lemma split_keepends_line l :
  no_newline l = true -> split_keepends (l ++ [LF]) = [l ++ [LF]].
Proof.
  induction l as [|c l IH]; [done|].
  intros (Hlf & _ & Hl)%no_newline_cons. simpl. rewrite Hlf.
  by rewrite IH.
Qed.

(** [readlines] cuts at every LF of the file. *)
Lemma readlines_app_lf a b :
  readlines (a ++ LF :: b) = readlines (a ++ [LF]) ++ readlines b.
Proof.
  unfold readlines. rewrite universal_newlines_app_lf.
  destruct (universal_newlines_snoc_lf a) as [u ->].
  rewrite <- app_assoc. simpl. apply split_keepends_app_lf.
Qed.

Lemma readlines_line l :
  no_newline l = true -> readlines (l ++ [LF]) = [l ++ [LF]].
Proof.
  intros Hl. unfold readlines.
  rewrite (universal_newlines_line l [] Hl). simpl.
  by apply split_keepends_line.
Qed.

Lemma reread_app_lf a b :
  reread_pkg_lines (a ++ LF :: b)
  = reread_pkg_lines (a ++ [LF]) ++ reread_pkg_lines b.
Proof.
  unfold reread_pkg_lines.
  by rewrite readlines_app_lf, filter_app, map_app.
Qed.

Lemma strip_snoc_lf l : strip (l ++ [LF]) = strip l.
Proof. by apply strip_app_space. Qed.

Lemma reread_line l :
  no_newline l = true ->
  reread_pkg_lines (l ++ [LF]) = if is_package_line l then [strip l] else [].
Proof.
  intros Hl. unfold reread_pkg_lines. rewrite (readlines_line l Hl).
  rewrite filter_cons, filter_nil.
  rewrite (is_package_line_strip_eq (l ++ [LF]) l (strip_snoc_lf l)).
  destruct (is_package_line l) eqn:E.
  - rewrite decide_True by done. simpl. by rewrite strip_snoc_lf.
  - rewrite decide_False by done. done.
Qed.

Lemma base_packages_of_cons l ls :
  base_packages_of (l :: ls)
  = (if is_package_line l then [strip l] else []) ++ base_packages_of ls.
Proof.
  unfold base_packages_of. rewrite filter_cons.
  destruct (is_package_line l) eqn:E.
  - by rewrite decide_True.
  - by rewrite decide_False.
Qed.

Lemma base_packages_of_app ls1 ls2 :
  base_packages_of (ls1 ++ ls2) = base_packages_of ls1 ++ base_packages_of ls2.
Proof. unfold base_packages_of. by rewrite filter_app, map_app. Qed.

(** Lines joined by LF and closed by one are read back as they were. *)
Lemma reread_join ls rest :
  Forall (fun l => no_newline l = true) ls ->
  reread_pkg_lines (join [LF] ls ++ LF :: rest)
  = base_packages_of ls ++ reread_pkg_lines rest.
Proof.
  induction 1 as [|l ls Hl Hls IH].
  - etrans; [exact (reread_app_lf [] rest)|]. reflexivity.
  - rewrite base_packages_of_cons.
    destruct ls as [|l' ls].
    + simpl join. rewrite reread_app_lf, (reread_line l Hl).
      unfold base_packages_of at 1. rewrite filter_nil. simpl.
      by rewrite app_nil_r.
    + change (join [LF] (l :: l' :: ls)) with (l ++ [LF] ++ join [LF] (l' :: ls)).
      set (J := join [LF] (l' :: ls)) in *.
      assert ((l ++ [LF] ++ J) ++ LF :: rest = l ++ LF :: (J ++ LF :: rest)) as ->
        by (by rewrite <- !app_assoc).
      rewrite reread_app_lf, (reread_line l Hl), IH.
      by rewrite app_assoc.
Qed.

Lemma join_snoc ls l :
  ls <> [] -> join [LF] (ls ++ [l]) = join [LF] ls ++ LF :: l.
Proof.
  induction ls as [|x ls IH]; [done|]. intros _.
  destruct ls as [|y ls]; [done|].
  change (join [LF] ((x :: y :: ls) ++ [l]))
    with (x ++ [LF] ++ join [LF] ((y :: ls) ++ [l])).
  rewrite IH by done.
  change (join [LF] (x :: y :: ls)) with (x ++ [LF] ++ join [LF] (y :: ls)).
  by rewrite <- !app_assoc.
Qed.

(** [rstrip] of the joined lines drops blank lines at the end and the
    trailing whitespace of the last line that has a token. *)
Lemma rstrip_join_lines (q : ascii -> bool) ls :
  Forall (fun l => forallb q l = true) ls ->
  exists ls',
    rstrip (join [LF] ls) = join [LF] ls'
    /\ Forall (fun l => forallb q l = true) ls'
    /\ base_packages_of ls' = base_packages_of ls.
Proof.
  induction ls as [|l ls IH] using rev_ind.
  - intros _. by exists [].
  - intros [Hls Hl]%Forall_app. rewrite Forall_singleton in Hl.
    destruct (rstrip_decompose l) as (ws & Hws & Hsp).
    assert (forallb q (rstrip l) = true) as Hrl.
    { assert (forallb q (rstrip l ++ ws) = true) as H by (by rewrite <- Hws).
      rewrite forallb_app in H. by apply andb_prop in H as [? _]. }
    assert (base_packages_of [rstrip l] = base_packages_of [l]) as Hsame.
    { rewrite !base_packages_of_cons.
      by rewrite (is_package_line_strip_eq _ _ (strip_rstrip l)), strip_rstrip. }
    destruct ls as [|x ls _] using rev_ind.
    + exists [rstrip l]. split_and!; [done|by apply Forall_singleton|done].
    + rewrite (join_snoc (ls ++ [x])) by (by destruct ls).
      rewrite rstrip_app.
      destruct (forallb is_space (LF :: l)) eqn:F.
      * destruct (IH Hls) as (ls' & E1 & E2 & E3).
        exists ls'. split_and!; [done|done|].
        rewrite E3, (base_packages_of_app _ [l]), base_packages_of_cons.
        simpl in F. rewrite (is_package_line_blank l F).
        by rewrite !app_nil_r.
      * exists ((ls ++ [x]) ++ [rstrip l]). split_and!.
        -- rewrite (join_snoc (ls ++ [x])) by (by destruct ls). f_equal.
           rewrite rstrip_cons, F. done.
        -- apply Forall_app. split; [done|by apply Forall_singleton].
        -- rewrite !(base_packages_of_app (ls ++ [x])). by rewrite Hsame.
Qed.

Lemma rstrip_join ls :
  Forall (fun l => no_newline l = true) ls ->
  exists ls',
    rstrip (join [LF] ls) = join [LF] ls'
    /\ Forall (fun l => no_newline l = true) ls'
    /\ base_packages_of ls' = base_packages_of ls.
Proof. apply rstrip_join_lines. Qed.

Lemma splitlines_no_linebreak s :
  Forall (fun l => no_linebreak l = true) (splitlines s).
Proof.
  remember (length s) as n eqn:Hn. revert s Hn.
  induction n as [n IH] using lt_wf_ind. intros s Hn.
  destruct s as [|c s]; [constructor|]. simpl.
  destruct (is_linebreak c) eqn:Hc.
  - destruct s as [|c' s]; [by repeat constructor|].
    destruct (is_cr c && is_lf c').
    + constructor; [done|]. apply (IH (length s)); simpl in *; [lia|done].
    + constructor; [done|]. apply (IH (length (c' :: s))); simpl in *; [lia|done].
  - assert (Forall (fun l => no_linebreak l = true) (splitlines s)) as H.
    { apply (IH (length s)); simpl in *; [lia|done]. }
    destruct (splitlines s) as [|l ls].
    + repeat constructor. unfold no_linebreak. simpl. by rewrite Hc.
    + inversion H as [|? ? Hl Hls]; subst. constructor; [|done].
      unfold no_linebreak in *. simpl. by rewrite Hc.
Qed.

End line_facts.

(** ** Sorting *)

Section sorting_facts.

Implicit Types (o : set_iteration).

Lemma code_inj (x y : ascii) : code x = code y -> x = y.
Proof.
  unfold code. intros H.
  by rewrite <- (ascii_N_embedding x), <- (ascii_N_embedding y), H.
Qed.

Global Instance text_le_trans : Transitive text_le.
Proof.
  unfold text_le. intros a. induction a as [|x a IH]; intros b c; [done|].
  destruct b as [|y b]; [done|]. destruct c as [|z c]; [done|]. simpl.
  destruct (N.ltb_spec (code x) (code y)), (N.ltb_spec (code y) (code z)),
    (N.ltb_spec (code x) (code z)); try done; try lia;
  destruct (N.eqb_spec (code x) (code y)), (N.eqb_spec (code y) (code z)),
    (N.eqb_spec (code x) (code z)); try done; try lia.
  apply IH.
Qed.

Global Instance text_le_antisymm : AntiSymm (=) text_le.
Proof.
  unfold text_le. intros a. induction a as [|x a IH]; intros b.
  - by destruct b.
  - destruct b as [|y b]; [done|]. simpl.
    destruct (N.ltb_spec (code x) (code y)), (N.ltb_spec (code y) (code x));
      try lia;
    destruct (N.eqb_spec (code x) (code y)), (N.eqb_spec (code y) (code x));
      try done; try lia.
    intros H1 H2. f_equal; [by apply code_inj|by apply IH].
Qed.

Global Instance text_le_total : Total text_le.
Proof.
  unfold text_le. intros a. induction a as [|x a IH]; intros b; [by left|].
  destruct b as [|y b]; [by right|]. simpl.
  destruct (N.ltb_spec (code x) (code y)), (N.ltb_spec (code y) (code x));
    try lia; try (by left); try (by right).
  destruct (N.eqb_spec (code x) (code y)), (N.eqb_spec (code y) (code x));
    try lia. apply IH.
Qed.

Lemma sorted_perm o (S : gset text) : sorted o S ≡ₚ elements S.
Proof. unfold sorted. by rewrite merge_sort_Permutation, iterate_perm. Qed.

Lemma elem_of_sorted o (S : gset text) x : x ∈ sorted o S <-> x ∈ S.
Proof. by rewrite sorted_perm, elem_of_elements. Qed.

Lemma NoDup_sorted o (S : gset text) : NoDup (sorted o S).
Proof. rewrite sorted_perm. apply NoDup_elements. Qed.


(** [sorted] of a set does not depend on the order the set is iterated
    in. *)
Lemma sorted_iteration (o1 o2 : set_iteration) (S : gset text) : sorted o1 S = sorted o2 S.
Proof.
  apply (Sorted_unique text_le).
  - apply Sorted_merge_sort, _.
  - apply Sorted_merge_sort, _.
  - by rewrite !sorted_perm.
Qed.

End sorting_facts.

(** ** Manifest builder *)

Section manifest_facts.

Implicit Types (o : set_iteration) (raw path l : text).
Implicit Types (packages excluded ls : list text).

Lemma base_packages_filtered (E : gset text) ls :
  base_packages_of (base_lines_filtered_of E ls)
  = filter (fun p => p ∉ E) (base_packages_of ls).
Proof.
  induction ls as [|l ls IH]; [done|].
  unfold base_lines_filtered_of in *. rewrite filter_cons.
  rewrite (base_packages_of_cons l ls).
  destruct (is_package_line l) eqn:Hl; cbn [andb app].
  - rewrite filter_cons. destruct (decide (strip l ∈ E)) as [Hin|Hout].
    + rewrite (bool_decide_eq_true_2 _ Hin). cbn [negb].
      rewrite decide_False by done. rewrite decide_False by tauto. apply IH.
    + rewrite (bool_decide_eq_false_2 _ Hout). cbn [negb].
      rewrite decide_True by done. rewrite decide_True by done.
      rewrite base_packages_of_cons, Hl. cbn [app]. by rewrite IH.
  - cbn [negb]. rewrite decide_True by done.
    rewrite base_packages_of_cons, Hl. apply IH.
Qed.

Lemma base_lines_filtered_no_newline (E : gset text) ls :
  Forall (fun l => no_newline l = true) ls ->
  Forall (fun l => no_newline l = true) (base_lines_filtered_of E ls).
Proof.
  intros H. unfold base_lines_filtered_of.
  rewrite Forall_forall in *. intros l [_ Hl]%list_elem_of_filter. by apply H.
Qed.

Lemma reread_write_packages ps rest :
  reread_pkg_lines (write_packages ps ++ rest)
  = concat (map line_tokens ps) ++ reread_pkg_lines rest.
Proof.
  induction ps as [|p ps IH]; [reflexivity|].
  unfold write_packages in *. cbn [map concat].
  rewrite <- !app_assoc. cbn [app].
  rewrite reread_app_lf, IH. reflexivity.
Qed.

Lemma reread_write_packages_all ps :
  reread_pkg_lines (write_packages ps) = concat (map line_tokens ps).
Proof.
  rewrite <- (app_nil_r (write_packages ps)), reread_write_packages.
  apply app_nil_r.
Qed.

Lemma reread_header rest :
  reread_pkg_lines (str "
# Added from current system
" ++ rest) = reread_pkg_lines rest.
Proof.
  change (str "
# Added from current system
" ++ rest) with ([] ++ LF :: (str "# Added from current system" ++ LF :: rest)).
  by rewrite reread_app_lf, reread_app_lf.
Qed.

(** What the re-read of the written file returns: the tokens of the base
    list that are not effectively excluded, then what each added line is
    read as. *)
Lemma reread_written_manifest (E : gset text) ls required_missing custom_packages :
  Forall (fun l => no_newline l = true) ls ->
  reread_pkg_lines
    (written_manifest (base_lines_filtered_of E ls) required_missing custom_packages)
  = filter (fun p => p ∉ E) (base_packages_of ls)
    ++ concat (map line_tokens required_missing)
    ++ concat (map line_tokens custom_packages).
Proof.
  intros Hls. unfold written_manifest.
  set (added :=
         if bool_decide (required_missing = []) && bool_decide (custom_packages = [])
         then []
         else _).
  assert (reread_pkg_lines added
          = concat (map line_tokens required_missing)
            ++ concat (map line_tokens custom_packages)) as Hadded.
  { unfold added. destruct (decide (required_missing = [])) as [->|H1].
    - destruct (decide (custom_packages = [])) as [->|H2]; [done|].
      rewrite bool_decide_eq_true_2, (bool_decide_eq_false_2 _ H2) by done.
      cbn [andb].
      by rewrite reread_header, reread_write_packages, reread_write_packages_all.
    - rewrite (bool_decide_eq_false_2 _ H1). cbn [andb].
      by rewrite reread_header, reread_write_packages, reread_write_packages_all. }
  rewrite <- base_packages_filtered.
  pose proof (base_lines_filtered_no_newline E ls Hls) as Hf.
  destruct (decide (base_lines_filtered_of E ls = [])) as [Hnil|Hne].
  - rewrite bool_decide_eq_true_2 by done. cbn [app].
    by rewrite Hadded, Hnil.
  - rewrite bool_decide_eq_false_2 by done.
    destruct (rstrip_join _ Hf) as (ls' & -> & Hls' & <-).
    rewrite <- app_assoc. cbn [app]. by rewrite (reread_join ls' _ Hls'), Hadded.
Qed.

Lemma read_lines_no_newline raw :
  Forall (fun l => no_newline l = true) (splitlines (read raw)).
Proof.
  eapply Forall_impl; [apply splitlines_no_linebreak|].
  intros l. apply no_linebreak_no_newline.
Qed.

(** The list returned as [pkg_lines]. *)
Lemma pkg_lines_spec o path raw packages excluded :
  let base_packages := base_packages_of (splitlines (read raw)) in
  let E := excluded_effective_of excluded in
  let custom := custom_packages_of o E (list_to_set base_packages) packages in
  let missing := required_missing_of o custom (list_to_set base_packages) in
  pkg_lines (build_package_list o path raw packages excluded)
  = filter (fun p => p ∉ E) base_packages
    ++ concat (map line_tokens missing)
    ++ concat (map line_tokens custom).
Proof.
  intros. unfold build_package_list. cbn [pkg_lines].
  apply reread_written_manifest, read_lines_no_newline.
Qed.

Lemma required_cases p :
  p ∈ required_packages ->
  p = str "mkinitcpio" \/ p = str "mkinitcpio-archiso" \/ p = str "squashfs-tools"
  \/ p = str "linux" \/ p = str "linux-firmware" \/ p = str "base".
Proof.
  unfold required_packages. rewrite !elem_of_union, !elem_of_singleton. tauto.
Qed.

Lemma line_tokens_required p : p ∈ required_packages -> line_tokens p = [p].
Proof.
  intros H. apply required_cases in H.
  destruct H as [->|[->|[->|[->|[->| ->]]]]]; by vm_compute.
Qed.

Lemma line_tokens_all_required ps :
  Forall (fun p => p ∈ required_packages) ps ->
  concat (map line_tokens ps) = ps.
Proof.
  induction 1 as [|p ps Hp Hps IH]; [done|].
  cbn [map concat]. by rewrite (line_tokens_required p Hp), IH.
Qed.

Lemma elem_of_custom_packages o (E B : gset text) packages p :
  p ∈ custom_packages_of o E B packages
  <-> p ∈ packages /\ strip p <> [] /\ (p ∉ E) /\ (p ∉ B).
Proof.
  unfold custom_packages_of. rewrite elem_of_sorted, elem_of_list_to_set.
  rewrite !list_elem_of_filter.
  rewrite negb_true_iff, bool_decide_eq_false.
  rewrite andb_true_iff, !negb_true_iff, !bool_decide_eq_false.
  tauto.
Qed.

Lemma elem_of_required_missing o (custom : list text) (B : gset text) p :
  p ∈ required_missing_of o custom B
  <-> p ∈ required_packages /\ (p ∉ custom) /\ (p ∉ B).
Proof.
  unfold required_missing_of.
  rewrite elem_of_sorted, elem_of_difference, elem_of_union, elem_of_list_to_set.
  tauto.
Qed.

End manifest_facts.

(** ** The claims about the manifest *)

Section manifest_claims.

Implicit Types (f : formatting) (o : set_iteration) (raw path : text).
Implicit Types (packages excluded : list text).

Lemma filter_none {A} (P : A -> Prop) `{!forall x, Decision (P x)} (l : list A) :
  (forall x, x ∈ l -> ~ P x) -> filter P l = [].
Proof.
  induction l as [|x l IH]; [done|]. intros Hall.
  rewrite filter_cons, decide_False by (apply Hall; left).
  apply IH. intros y Hy. apply Hall. by right.
Qed.

Lemma filter_all {A} (P : A -> Prop) `{!forall x, Decision (P x)} (l : list A) :
  (forall x, x ∈ l -> P x) -> filter P l = l.
Proof.
  induction l as [|x l IH]; [done|]. intros Hall.
  rewrite filter_cons, decide_True by (apply Hall; left).
  f_equal. apply IH. intros y Hy. apply Hall. by right.
Qed.

Lemma elem_of_concat_map (g : text -> list text) (ps : list text) (x p : text) :
  p ∈ ps -> x ∈ g p -> x ∈ concat (map g ps).
Proof.
  rewrite !list_elem_of_In. intros Hp Hx. apply in_concat.
  exists (g p). split; [by apply in_map|done].
Qed.

Lemma required_not_effectively_excluded excluded p :
  p ∈ required_packages -> p ∉ excluded_effective_of excluded.
Proof. unfold excluded_effective_of. rewrite elem_of_difference. tauto. Qed.

Lemma base_token_kept o path raw packages excluded t :
  t ∈ base_packages_of (splitlines (read raw)) ->
  t ∉ excluded_effective_of excluded ->
  t ∈ pkg_lines (build_package_list o path raw packages excluded).
Proof.
  intros Ht Hex. rewrite pkg_lines_spec. apply elem_of_app. left.
  by apply list_elem_of_filter.
Qed.

Lemma required_in_pkg_lines o path raw packages excluded p :
  p ∈ required_packages ->
  p ∈ pkg_lines (build_package_list o path raw packages excluded).
Proof.
  intros Hp.
  set (B := base_packages_of (splitlines (read raw))).
  destruct (decide (p ∈ B)) as [HB|HB].
  { apply base_token_kept; [done|]. by apply required_not_effectively_excluded. }
  rewrite pkg_lines_spec. fold B.
  set (custom := custom_packages_of o _ _ packages).
  apply elem_of_app. right. apply elem_of_app.
  destruct (decide (p ∈ custom)) as [HC|HC].
  - right. apply (elem_of_concat_map line_tokens custom p p HC).
    rewrite (line_tokens_required p Hp). by left.
  - left. apply (elem_of_concat_map line_tokens _ p p).
    + apply elem_of_required_missing. split_and!; [done|done|].
      by rewrite elem_of_list_to_set.
    + rewrite (line_tokens_required p Hp). by left.
Qed.

Lemma effective_exclusions_idem excluded :
  excluded_effective_of (elements (excluded_effective_of excluded))
  = excluded_effective_of excluded.
Proof.
  unfold excluded_effective_of at 1. rewrite list_to_set_elements_L.
  unfold excluded_effective_of. apply set_eq. intros x.
  rewrite !elem_of_difference. tauto.
Qed.

(** C1. Whatever the exclusions [E], the base list and the candidates,
    the builder returns; the exclusions it applies are [E] minus the
    required set (the file written is the one written for those exclusions
    alone, and a token of the base list outside of them stays); the list
    re-read from the file has every required package; and so the check of
    [run] finds nothing missing and does not raise. *)
Theorem required_packages_always_in_manifest
    f o path raw packages excluded :
  exists r,
    _build_package_list o path (Some raw) packages excluded = Returned r
    /\ excluded_effective_of excluded = list_to_set excluded ∖ required_packages
    /\ pkg_file_contents r
       = pkg_file_contents
           (build_package_list o path raw packages
              (elements (excluded_effective_of excluded)))
    /\ (forall t, t ∈ base_packages_of (splitlines (read raw)) ->
                  t ∉ excluded_effective_of excluded -> t ∈ pkg_lines r)
    /\ (forall p, p ∈ required_packages -> p ∈ pkg_lines r)
    /\ missing_critical o r = []
    /\ exists log, check_required f o r = Returned log.
Proof.
  exists (build_package_list o path raw packages excluded).
  assert (missing_critical o (build_package_list o path raw packages excluded) = [])
    as Hmissing.
  { unfold missing_critical. apply filter_none. intros p Hp.
    rewrite negb_true_iff, bool_decide_eq_false. intros Hnot. apply Hnot.
    apply required_in_pkg_lines.
    cbn [required build_package_list] in Hp.
    by rewrite iterate_perm, elem_of_elements in Hp. }
  split_and!; [done|done| | | |done|].
  - unfold build_package_list. cbn [pkg_file_contents].
    by rewrite effective_exclusions_idem.
  - intros t. apply base_token_kept.
  - intros p. apply required_in_pkg_lines.
  - unfold check_required. rewrite Hmissing.
    rewrite bool_decide_eq_true_2 by done. eauto.
Qed.

Lemma line_tokens_clean p :
  clean_name p -> line_tokens p = if is_package_line p then [p] else [].
Proof.
  intros [Hs Hn]. unfold line_tokens. rewrite (reread_line p Hn). by rewrite Hs.
Qed.

Lemma concat_line_tokens_clean ps :
  Forall clean_name ps ->
  concat (map line_tokens ps) = filter (fun p => is_package_line p = true) ps.
Proof.
  induction 1 as [|p ps Hp Hps IH]; [done|].
  cbn [map concat]. rewrite filter_cons, (line_tokens_clean p Hp), IH.
  destruct (is_package_line p).
  - by rewrite decide_True.
  - by rewrite decide_False.
Qed.

Lemma custom_packages_clean o (E B : gset text) packages :
  Forall clean_name packages ->
  Forall clean_name (custom_packages_of o E B packages).
Proof.
  rewrite !Forall_forall. intros H p Hp.
  apply elem_of_custom_packages in Hp as (Hp & _). by apply H.
Qed.

Lemma required_missing_required o (custom : list text) (B : gset text) :
  Forall (fun p => p ∈ required_packages) (required_missing_of o custom B).
Proof.
  apply Forall_forall. intros p Hp.
  by apply elem_of_required_missing in Hp as (Hp & _).
Qed.

(** C3, as the code has it. When the base list names no package twice and
    every candidate name is clean, the list re-read from the written file
    has no package twice: as a set it is as large as the list is long. *)
Theorem manifest_no_duplicates o path raw packages excluded :
  NoDup (base_packages_of (splitlines (read raw))) ->
  Forall clean_name packages ->
  let manifest := pkg_lines (build_package_list o path raw packages excluded) in
  NoDup manifest
  /\ size (list_to_set manifest : gset text) = length manifest.
Proof.
  intros Hbase Hclean manifest.
  assert (NoDup manifest) as Hnodup.
  { unfold manifest. rewrite pkg_lines_spec.
    set (B := base_packages_of (splitlines (read raw))) in *.
    set (E := excluded_effective_of excluded).
    set (custom := custom_packages_of o E (list_to_set B) packages).
    set (missing := required_missing_of o custom (list_to_set B)).
    rewrite (line_tokens_all_required missing)
      by apply required_missing_required.
    rewrite (concat_line_tokens_clean custom)
      by (by apply custom_packages_clean).
    apply NoDup_app. split_and!.
    - by apply NoDup_filter.
    - intros x [_ HxB]%list_elem_of_filter [Hx|Hx]%elem_of_app.
      + apply elem_of_required_missing in Hx as (_ & _ & Hx).
        by rewrite elem_of_list_to_set in Hx.
      + apply list_elem_of_filter in Hx as [_ Hx].
        apply elem_of_custom_packages in Hx as (_ & _ & _ & Hx).
        by rewrite elem_of_list_to_set in Hx.
    - apply NoDup_app. split_and!.
      + apply NoDup_sorted.
      + intros x Hx [_ Hc]%list_elem_of_filter.
        by apply elem_of_required_missing in Hx as (_ & Hx & _).
      + apply NoDup_filter, NoDup_sorted. }
  split; [done|]. by apply size_list_to_set.
Qed.

(** The claim C3 fails when the base list itself names a package twice:
    both lines are kept. *)
Lemma manifest_duplicates_from_base :
  let manifest :=
    pkg_lines (build_package_list canonical_iteration (str "packages.x86_64")
                 (str "vim
vim
") [] []) in
  ~ NoDup manifest
  /\ size (list_to_set manifest : gset text) <> length manifest.
Proof.
  intros manifest.
  assert (manifest
          = [str "vim"; str "vim"; str "base"; str "linux"; str "linux-firmware";
             str "mkinitcpio"; str "mkinitcpio-archiso"; str "squashfs-tools"])
    as -> by (by vm_compute).
  split.
  - intros [Hvim _]%NoDup_cons. apply Hvim. by left.
  - by vm_compute.
Qed.

Lemma manifest_no_duplicates_witness :
  let manifest :=
    pkg_lines (build_package_list canonical_iteration (str "packages.x86_64")
                 (str "# base list
vim
git
") [str "htop"; str "vim"] [str "git"]) in
  NoDup manifest
  /\ size (list_to_set manifest : gset text) = length manifest.
Proof.
  apply manifest_no_duplicates.
  - apply (bool_decide_unpack _). by vm_compute.
  - repeat constructor; reflexivity.
Defined.

Lemma build_package_list_iteration
    (o1 o2 : set_iteration) path raw packages excluded :
  build_package_list o1 path raw packages excluded
  = build_package_list o2 path raw packages excluded.
Proof.
  unfold build_package_list, custom_packages_of, required_missing_of.
  by rewrite !(sorted_iteration o1 o2).
Qed.

(** Two runs of the builder on the same base list, candidates and
    exclusions leave the same bytes in the file and return the same
    values, in whatever order each run iterates its sets. *)
Lemma build_package_list_deterministic
    (o1 o2 : set_iteration) path (profile : option text) packages excluded :
  _build_package_list o1 path profile packages excluded
  = _build_package_list o2 path profile packages excluded.
Proof.
  destruct profile as [raw|]; [|done]. cbn [_build_package_list]. f_equal.
  apply build_package_list_iteration.
Qed.

(** The scenarios A and B of the specification: an excluded candidate is
    left out and the missing required packages are added after the base
    list; an exclusion of [base] is reported and not applied. *)
Example scenario_excluded_candidate :
  pkg_lines (build_package_list canonical_iteration (str "packages.x86_64")
               (str "a
b
c
") [str "b"; str "d"] [str "d"])
  = [str "a"; str "b"; str "c"; str "base"; str "linux"; str "linux-firmware";
     str "mkinitcpio"; str "mkinitcpio-archiso"; str "squashfs-tools"].
Proof. by vm_compute. Qed.

Example scenario_required_exclusion_ignored :
  let r := build_package_list canonical_iteration (str "packages.x86_64")
             (str "base
linux
") [] [str "base"] in
  str "base" ∈ pkg_lines r
  /\ head (emitted r)
     = Some (output_signal
               (str "[WARN] Ignoring exclusions for required packages: base"
                ++ [LF])).
Proof.
  intros r. split; [|by vm_compute].
  apply (bool_decide_unpack _). by vm_compute.
Qed.

End manifest_claims.

(** ** Running the builder on its own output *)

Section rerun_facts.

Implicit Types (o : set_iteration) (raw path l p : text).
Implicit Types (packages excluded ls L : list text).

Lemma rstrip_idem l : rstrip (rstrip l) = rstrip l.
Proof.
  destruct (rstrip_decompose l) as (ws & Hl & Hws).
  apply (f_equal rstrip) in Hl. rewrite rstrip_app, Hws in Hl. done.
Qed.

Lemma strip_fixed_rstrip p : strip p = p -> rstrip p = p.
Proof. intros H. rewrite <- H at 1. unfold strip. by rewrite rstrip_idem. Qed.

Lemma splitlines_line l rest :
  no_linebreak l = true -> splitlines (l ++ LF :: rest) = l :: splitlines rest.
Proof.
  induction l as [|c l IH].
  - intros _. by destruct rest.
  - intros [Hc Hl]%andb_prop. apply negb_true_iff in Hc.
    cbn [app splitlines]. rewrite Hc. by rewrite (IH Hl).
Qed.

Lemma join_cons2 l1 l2 ls :
  join [LF] (l1 :: l2 :: ls) = l1 ++ LF :: join [LF] (l2 :: ls).
Proof. done. Qed.

Lemma join_app ls1 ls2 :
  ls1 <> [] -> ls2 <> [] ->
  join [LF] (ls1 ++ ls2) = join [LF] ls1 ++ LF :: join [LF] ls2.
Proof.
  intros H1 H2. induction ls1 as [|l ls1 IH]; [done|].
  destruct ls1 as [|l' ls1].
  - destruct ls2 as [|l2 ls2]; [done|]. done.
  - change ((l :: l' :: ls1) ++ ls2) with (l :: l' :: (ls1 ++ ls2)).
    rewrite !join_cons2. change (l' :: ls1 ++ ls2) with ((l' :: ls1) ++ ls2).
    rewrite IH by done. by rewrite <- app_assoc.
Qed.

(** The lines of a file written line by line, read back. *)
Lemma splitlines_join L :
  Forall (fun l => no_linebreak l = true) L -> L <> [] ->
  splitlines (join [LF] L ++ [LF]) = L.
Proof.
  induction 1 as [|l L Hl HL IH]; [done|]. intros _.
  destruct L as [|l' L].
  - cbn [join]. by rewrite (splitlines_line l [] Hl).
  - rewrite join_cons2, <- app_assoc. cbn [app].
    rewrite (splitlines_line _ _ Hl). by rewrite IH.
Qed.

Lemma write_packages_join ps :
  ps <> [] -> write_packages ps = join [LF] ps ++ [LF].
Proof.
  induction ps as [|p ps IH]; [done|]. intros _.
  unfold write_packages in *. cbn [map concat].
  destruct ps as [|p' ps]; [by rewrite app_nil_r|].
  rewrite IH by done. rewrite join_cons2. by rewrite <- !app_assoc.
Qed.

Lemma write_packages_app ps1 ps2 :
  write_packages (ps1 ++ ps2) = write_packages ps1 ++ write_packages ps2.
Proof. unfold write_packages. by rewrite map_app, concat_app. Qed.

Lemma forallb_join (q : ascii -> bool) L :
  q LF = true -> Forall (fun l => forallb q l = true) L ->
  forallb q (join [LF] L) = true.
Proof.
  intros Hq. induction 1 as [|l L Hl HL IH]; [done|].
  destruct L as [|l' L]; [done|].
  rewrite join_cons2, forallb_app. cbn [forallb]. by rewrite Hl, Hq, IH.
Qed.

Lemma no_linebreak_no_cr l :
  no_linebreak l = true -> forallb (fun c => negb (is_cr c)) l = true.
Proof.
  unfold no_linebreak. rewrite !forallb_forall. intros H c Hc.
  specialize (H c Hc). destruct (is_cr c) eqn:E; [|done].
  by rewrite (cr_is_linebreak c E) in H.
Qed.

(** A file made of lines ended by LF is read as it is. *)
Lemma read_joined_lines L :
  Forall (fun l => no_linebreak l = true) L ->
  read (join [LF] L ++ [LF]) = join [LF] L ++ [LF].
Proof.
  intros HL. apply universal_newlines_id.
  rewrite forallb_app. apply andb_true_intro. split; [|done].
  apply forallb_join; [done|].
  eapply Forall_impl; [exact HL|]. intros l. apply no_linebreak_no_cr.
Qed.

(** A last line that ends in a visible character keeps [rstrip] off the
    joined lines. *)
Lemma rstrip_join_last L p :
  rstrip p = p -> p <> [] -> rstrip (join [LF] (L ++ [p])) = join [LF] (L ++ [p]).
Proof.
  intros Hp Hne.
  assert (forallb is_space p = false) as Hsp.
  { destruct (forallb is_space p) eqn:F; [|done].
    apply rstrip_nil in F. congruence. }
  destruct L as [|l L]; [done|].
  rewrite (join_snoc (l :: L)) by done.
  rewrite rstrip_app. cbn [forallb]. rewrite Hsp, andb_false_r.
  f_equal. rewrite rstrip_cons. cbn [forallb]. rewrite Hsp, andb_false_r.
  by rewrite Hp.
Qed.

Lemma required_name_shape p :
  p ∈ required_packages ->
  rstrip p = p /\ p <> [] /\ no_linebreak p = true.
Proof.
  intros H. apply required_cases in H.
  destruct H as [->|[->|[->|[->|[->| ->]]]]]; by vm_compute.
Qed.

Lemma token_name_line_tokens p :
  token_name p -> strip p <> [] -> line_tokens p = [p].
Proof.
  intros (Hs & Hn & Hc) Hne.
  rewrite line_tokens_clean by (split; [done|by apply no_linebreak_no_newline]).
  unfold is_package_line. rewrite Hs in *. rewrite Hc.
  by rewrite bool_decide_eq_false_2.
Qed.

(** The file the builder writes is a list of lines, each ended by LF, the
    last of them ending in a visible character. *)
Lemma written_as_lines o path raw packages excluded :
  Forall token_name packages ->
  exists L,
    L <> []
    /\ Forall (fun l => no_linebreak l = true) L
    /\ pkg_file_contents (build_package_list o path raw packages excluded)
       = join [LF] L ++ [LF]
    /\ rstrip (join [LF] L) = join [LF] L.
Proof.
  intros Hpk.
  pose proof (required_in_pkg_lines o path raw packages excluded (str "base"))
    as Hbase.
  unfold build_package_list in *. cbn [pkg_file_contents pkg_lines] in *.
  set (lines0 := splitlines (read raw)) in *.
  set (E := excluded_effective_of excluded) in *.
  set (B := list_to_set (base_packages_of lines0) : gset text) in *.
  set (custom := custom_packages_of o E B packages) in *.
  set (missing := required_missing_of o custom B) in *.
  set (blf := base_lines_filtered_of E lines0) in *.
  assert (Forall (fun p => rstrip p = p /\ p <> [] /\ no_linebreak p = true)
                 (missing ++ custom)) as Htail.
  { apply Forall_app. split; apply Forall_forall; intros p Hp.
    - apply required_name_shape.
      by apply elem_of_required_missing in Hp as (? & _).
    - apply elem_of_custom_packages in Hp as (Hin & Hne & _).
      rewrite Forall_forall in Hpk. destruct (Hpk p Hin) as (Hs & Hn & _).
      split_and!; [by apply strip_fixed_rstrip| |done].
      intros ->. by apply Hne. }
  assert (exists ls1,
             ls1 <> []
             /\ Forall (fun l => no_linebreak l = true) ls1
             /\ rstrip (join [LF] blf) = join [LF] ls1
             /\ rstrip (join [LF] ls1) = join [LF] ls1) as (ls1 & Hne1 & Hnl1 & Hj1 & Hr1).
  { destruct (rstrip_join_lines (fun c => negb (is_linebreak c)) blf)
      as (ls' & Hj & Hnl & _).
    { unfold blf, base_lines_filtered_of. apply Forall_forall.
      intros l [_ Hl]%list_elem_of_filter.
      pose proof (splitlines_no_linebreak (read raw)) as H.
      rewrite Forall_forall in H. by apply H. }
    destruct ls' as [|l' ls'].
    - exists [[]]. split_and!; [done|by repeat constructor|done|done].
    - exists (l' :: ls'). split_and!; [done|done|done|].
      by rewrite <- Hj, rstrip_idem. }
  unfold written_manifest in *.
  assert (bool_decide (missing = []) && bool_decide (custom = [])
          = bool_decide (missing ++ custom = [])) as Hcond.
  { by destruct missing, custom. }
  rewrite Hcond in *.
  change (str "
# Added from current system
") with (LF :: added_header ++ [LF]) in *.
  rewrite <- write_packages_app in *.
  destruct (decide (missing ++ custom = [])) as [Hnil|Hne].
  - rewrite (bool_decide_eq_true_2 _ Hnil), app_nil_r in *.
    destruct (decide (blf = [])) as [Hb|Hb].
    + rewrite (bool_decide_eq_true_2 _ Hb) in Hbase.
      exfalso. eapply elem_of_nil, Hbase. by vm_compute.
    + rewrite (bool_decide_eq_false_2 _ Hb).
      exists ls1. by rewrite Hj1.
  - rewrite (bool_decide_eq_false_2 _ Hne).
    rewrite (write_packages_join _ Hne).
    destruct (missing ++ custom) as [|p tail _] using rev_ind; [done|].
    apply Forall_app in Htail as [Htail Hp].
    rewrite Forall_singleton in Hp. destruct Hp as (Hrp & Hnp & Hlp).
    assert (Forall (fun l => no_linebreak l = true)
                   ([[]; added_header] ++ tail ++ [p])) as Hnl2.
    { repeat (apply Forall_cons; split; [done|]).
      apply Forall_app. split; [|by apply Forall_singleton].
      eapply Forall_impl; [exact Htail|]. by intros ? (_ & _ & ?). }
    destruct (decide (blf = [])) as [Hb|Hb].
    + rewrite (bool_decide_eq_true_2 _ Hb).
      exists ([[]; added_header] ++ tail ++ [p]). split_and!; [done|done| |].
      * rewrite (join_app [[]; added_header]) by (done || by destruct tail).
        cbn [join app]. by rewrite <- !app_assoc.
      * rewrite (app_assoc _ tail [p]). by apply rstrip_join_last.
    + rewrite (bool_decide_eq_false_2 _ Hb), Hj1.
      exists (ls1 ++ [[]; added_header] ++ tail ++ [p]). split_and!.
      * by destruct ls1.
      * by apply Forall_app.
      * rewrite (join_app ls1) by done.
        rewrite (join_app [[]; added_header]) by (done || by destruct tail).
        cbn [join app]. by rewrite <- !app_assoc.
      * rewrite !app_assoc. apply rstrip_join_last; done.
Qed.

Lemma nil_of_no_elements {A} (l : list A) : (forall x, x ∉ l) -> l = [].
Proof. destruct l as [|x l]; [done|]. intros H. destruct (H x). by left. Qed.

(** The builder applied to the file it has written, with the candidates
    and exclusions of the first run, writes the same bytes again: a second
    run in the same profile directory changes nothing, when the candidate
    names are tokens. *)
Theorem rerun_in_place_is_stable o path raw packages excluded :
  Forall token_name packages ->
  let first := build_package_list o path raw packages excluded in
  let second :=
    build_package_list o path (pkg_file_contents first) packages excluded in
  pkg_file_contents second = pkg_file_contents first
  /\ pkg_lines second = pkg_lines first.
Proof.
  intros Hpk first second.
  destruct (written_as_lines o path raw packages excluded Hpk)
    as (L & HL & Hnl & Hfile & Hrs).
  fold first in Hfile.
  assert (Forall (fun l => no_newline l = true) L) as Hnn.
  { eapply Forall_impl; [exact Hnl|]. intros l. apply no_linebreak_no_newline. }
  assert (pkg_lines first = base_packages_of L) as Hlines.
  { unfold first, build_package_list. cbn [pkg_lines].
    fold (build_package_list o path raw packages excluded). fold first.
    change (reread_pkg_lines (pkg_file_contents first) = base_packages_of L).
    rewrite Hfile. rewrite (reread_join L [] Hnn). apply app_nil_r. }
  set (E := excluded_effective_of excluded).
  set (B := base_packages_of (splitlines (read raw))).
  (* what the first manifest holds *)
  assert (forall t, t ∈ base_packages_of L -> t ∉ E) as Hkept.
  { intros t. rewrite <- Hlines. unfold first. rewrite pkg_lines_spec.
    fold B E.
    set (custom := custom_packages_of o E (list_to_set B) packages).
    set (missing := required_missing_of o custom (list_to_set B)).
    rewrite (line_tokens_all_required missing) by apply required_missing_required.
    rewrite (concat_line_tokens_clean custom).
    2:{ apply custom_packages_clean. eapply Forall_impl; [exact Hpk|].
        intros p (? & ? & _). split; [done|by apply no_linebreak_no_newline]. }
    rewrite !elem_of_app, !list_elem_of_filter.
    intros [[? _]|[Hm|[_ Hc]]]; [done| |].
    - apply required_not_effectively_excluded.
      by apply elem_of_required_missing in Hm as (? & _).
    - by apply elem_of_custom_packages in Hc as (_ & _ & ? & _). }
  assert (forall p, p ∈ packages -> strip p <> [] -> p ∉ E ->
                    p ∈ base_packages_of L) as Hall.
  { intros p Hin Hne HE. rewrite <- Hlines. unfold first.
    rewrite pkg_lines_spec. fold B E.
    destruct (decide (p ∈ B)) as [HB|HB].
    - apply elem_of_app. left. by apply list_elem_of_filter.
    - apply elem_of_app. right. apply elem_of_app. right.
      apply (elem_of_concat_map line_tokens _ p p).
      + apply elem_of_custom_packages. split_and!; try done.
        by rewrite elem_of_list_to_set.
      + rewrite token_name_line_tokens; [by left| |done].
        rewrite Forall_forall in Hpk. by apply Hpk. }
  assert (forall p, p ∈ required_packages -> p ∈ base_packages_of L) as Hreq.
  { intros p Hp. rewrite <- Hlines. by apply required_in_pkg_lines. }
  (* the second run *)
  assert (pkg_file_contents second = join [LF] L ++ [LF]) as Hsecond.
  { unfold second, build_package_list. cbn [pkg_file_contents].
    rewrite Hfile, (read_joined_lines L Hnl), (splitlines_join L Hnl HL).
    fold E.
    assert (base_lines_filtered_of E L = L) as ->.
    { unfold base_lines_filtered_of. apply filter_all.
      intros l Hl. apply negb_true_iff, andb_false_iff.
      destruct (is_package_line l) eqn:Hpl; [right|by left].
      apply bool_decide_eq_false, Hkept.
      unfold base_packages_of. apply list_elem_of_fmap. exists l.
      split; [done|]. by apply list_elem_of_filter. }
    assert (custom_packages_of o E (list_to_set (base_packages_of L)) packages
            = []) as ->.
    { apply nil_of_no_elements. intros p Hp.
      apply elem_of_custom_packages in Hp as (Hin & Hne & HE & HB).
      apply HB, elem_of_list_to_set. by apply Hall. }
    assert (required_missing_of o [] (list_to_set (base_packages_of L)) = [])
      as ->.
    { apply nil_of_no_elements. intros p Hp.
      apply elem_of_required_missing in Hp as (Hr & _ & HB).
      apply HB, elem_of_list_to_set. by apply Hreq. }
    unfold written_manifest. rewrite (bool_decide_eq_false_2 _ HL).
    rewrite (bool_decide_eq_true_2 (@nil text = [])) by done.
    cbn [andb]. by rewrite app_nil_r, Hrs. }
  split.
  - by rewrite Hsecond, Hfile.
  - unfold second at 1. unfold build_package_list. cbn [pkg_lines].
    fold (build_package_list o path (pkg_file_contents first) packages excluded).
    fold second.
    change (reread_pkg_lines (pkg_file_contents second) = pkg_lines first).
    rewrite Hsecond, Hlines, (reread_join L [] Hnn). apply app_nil_r.
Qed.

(** C5. Two runs of the builder with the same base list, candidates and
    exclusions return the same values and leave the same bytes in the
    file, in whatever order each run iterates its sets. So does a second
    run made in succession in the same profile directory, on the file the
    first run has left there, when the candidate names are tokens, as the
    names of packages are. *)
Theorem build_package_list_idempotent
    (o1 o2 : set_iteration) path (profile : option text) raw packages excluded :
  _build_package_list o1 path profile packages excluded
  = _build_package_list o2 path profile packages excluded
  /\ (Forall token_name packages ->
      let first := build_package_list o1 path raw packages excluded in
      let second :=
        build_package_list o2 path (pkg_file_contents first) packages excluded in
      pkg_file_contents second = pkg_file_contents first
      /\ pkg_lines second = pkg_lines first).
Proof.
  split; [apply build_package_list_deterministic|].
  intros Hpk first second. unfold second.
  rewrite (build_package_list_iteration o2 o1).
  by apply rerun_in_place_is_stable.
Qed.

Lemma build_package_list_idempotent_witness :
  let packages := [str "htop"; str "vim"] in
  let excluded := [str "git"; str "base"] in
  let first :=
    build_package_list canonical_iteration (str "packages.x86_64")
      (str "# base list
vim
git
") packages excluded in
  let second :=
    build_package_list reversed_iteration (str "packages.x86_64")
      (pkg_file_contents first) packages excluded in
  pkg_file_contents second = pkg_file_contents first
  /\ pkg_lines second = pkg_lines first.
Proof.
  intros packages excluded.
  apply (build_package_list_idempotent canonical_iteration reversed_iteration
           (str "packages.x86_64") None).
  repeat constructor; reflexivity.
Defined.

(** Without that condition a second run may add lines: a candidate with a
    blank before its name is written again each time. *)
Example rerun_in_place_grows :
  let first :=
    build_package_list canonical_iteration (str "packages.x86_64")
      (str "vim
") [str " htop"] [] in
  let second :=
    build_package_list canonical_iteration (str "packages.x86_64")
      (pkg_file_contents first) [str " htop"] [] in
  pkg_file_contents second <> pkg_file_contents first.
Proof. by vm_compute. Qed.

End rerun_facts.

(** ** Build driver *)

Ltac loop_cases :=
  cbn [andb];
  repeat match goal with
         | |- context [if ?b then _ else _] =>
             lazymatch b with
             | true => fail
             | false => fail
             | _ => destruct b
             end
         | |- context [match line_progress ?x with _ => _ end] =>
             destruct (line_progress x)
         end.

Section driver_facts.

Implicit Types (line sub s : text) (lines : list text) (st : loop_state).

Lemma startswith_spec sub s :
  startswith sub s = true <-> exists post, s = sub ++ post.
Proof.
  revert s. induction sub as [|p sub IH]; intros s.
  - split; [by exists s|done].
  - destruct s as [|c s]; simpl.
    + split; [done|]. by intros [post ?].
    + rewrite andb_true_iff, bool_decide_eq_true, IH. split.
      * intros [-> [post ->]]. by exists post.
      * intros [post [= -> ->]]. eauto.
Qed.

(** [contains] decides occurrence. *)
Lemma contains_occurs sub s : contains sub s = true <-> occurs sub s.
Proof.
  unfold occurs. split.
  - induction s as [|c s IH]; simpl.
    + rewrite orb_false_r. intros [post ->]%startswith_spec. by exists [], post.
    + intros [[post ->]%startswith_spec|H]%orb_prop.
      * by exists [], post.
      * destruct (IH H) as (pre & post & ->). by exists (c :: pre), post.
  - intros (pre & post & ->). induction pre as [|c pre IH].
    + assert (startswith sub (sub ++ post) = true) as H
        by (apply startswith_spec; eauto).
      destruct (sub ++ post); simpl in *; by rewrite H.
    + cbn [app contains]. by rewrite IH, orb_true_r.
Qed.

Lemma existsb_contains (pats : list text) s :
  existsb (fun pat => contains pat s) pats = true
  <-> exists pat, pat ∈ pats /\ occurs pat s.
Proof.
  rewrite existsb_exists. split.
  - intros (pat & Hin & Hc). exists pat.
    by rewrite list_elem_of_In, <- contains_occurs.
  - intros (pat & Hin & Hc). exists pat.
    by rewrite <- list_elem_of_In, contains_occurs.
Qed.

Lemma records_fatal_eq line :
  records_fatal line
  = negb (existsb (fun pattern => contains pattern (lower line)) non_fatal_patterns)
    && existsb (fun keyword => contains keyword (lower line)) error_keywords
    && negb (contains (str "warning") (lower line)).
Proof.
  unfold records_fatal, loop_step, idle. cbn [error_detected trace].
  loop_cases; done.
Qed.

Lemma records_fatal_spec line : records_fatal line = true <-> fatal_signal line.
Proof.
  rewrite records_fatal_eq, !andb_true_iff, !negb_true_iff.
  unfold fatal_signal. rewrite <- existsb_contains.
  rewrite <- (not_true_iff_false (contains _ _)), contains_occurs.
  rewrite <- not_true_iff_false, existsb_contains.
  split.
  - intros [[Hnf Hkw] Hw]. split_and!; [done|done|].
    intros pattern Hin Hocc. apply Hnf. eauto.
  - intros (Hkw & Hw & Hnf). split_and!; [|done|done].
    intros (pattern & Hin & Hocc). by apply (Hnf pattern).
Qed.

Lemma loop_step_error st line :
  error_detected (loop_step st line) = error_detected st || records_fatal line.
Proof.
  rewrite records_fatal_eq. unfold loop_step. cbn [error_detected trace].
  destruct (negb _ && existsb _ error_keywords);
    destruct (negb (contains _ _)); loop_cases;
    cbn [error_detected andb]; by rewrite ?orb_true_r, ?orb_false_r.
Qed.

Lemma loop_step_trace st line :
  trace (loop_step st line) = trace st ++ line_signals line.
Proof.
  unfold line_signals, loop_step, idle. cbn [error_detected trace].
  loop_cases; cbn [trace app]; by rewrite <- ?app_assoc.
Qed.

Lemma foldl_loop_step st lines :
  error_detected (foldl loop_step st lines)
  = error_detected st || existsb records_fatal lines
  /\ trace (foldl loop_step st lines)
     = trace st ++ concat (map line_signals lines).
Proof.
  revert st. induction lines as [|line lines IH]; intros st.
  - cbn. by rewrite orb_false_r, app_nil_r.
  - cbn [foldl map concat existsb]. destruct (IH (loop_step st line)) as [-> ->].
    rewrite loop_step_error, loop_step_trace.
    by rewrite orb_assoc, app_assoc.
Qed.

Lemma build_loop_error lines :
  error_detected (build_loop lines) = existsb records_fatal lines.
Proof.
  unfold build_loop. cbn [error_detected].
  by destruct (foldl_loop_step idle lines) as [H _].
Qed.

Lemma build_loop_trace lines :
  trace (build_loop lines)
  = concat (map line_signals lines) ++ [progress_signal 100].
Proof.
  unfold build_loop. cbn [trace].
  destruct (foldl_loop_step idle lines) as [_ H]. unfold idle in H.
  by rewrite H.
Qed.

Lemma relayed_line_signals line :
  relayed_lines (line_signals line) = relayed line.
Proof.
  unfold relayed. rewrite records_fatal_eq.
  unfold line_signals, loop_step, idle. cbn [error_detected trace].
  destruct (negb _ && existsb _ error_keywords);
    destruct (negb (contains _ _)); loop_cases; done.
Qed.

Lemma progress_line_signals line :
  progress_values (line_signals line)
  = match milestone line with Some v => [v] | None => [] end.
Proof.
  unfold milestone, line_signals, loop_step, idle. cbn [error_detected trace].
  loop_cases; done.
Qed.

Lemma relayed_lines_concat lines :
  relayed_lines (concat (map line_signals lines)) = concat (map relayed lines).
Proof.
  induction lines as [|line lines IH]; [done|].
  cbn [map concat]. unfold relayed_lines in *.
  rewrite omap_app, IH. f_equal. apply relayed_line_signals.
Qed.

Lemma progress_values_concat lines :
  progress_values (concat (map line_signals lines)) = omap milestone lines.
Proof.
  induction lines as [|line lines IH]; [done|].
  cbn [map concat omap list_omap]. unfold progress_values in *.
  rewrite omap_app, IH. fold (progress_values (line_signals line)).
  rewrite progress_line_signals. by destruct (milestone line).
Qed.

(** C6. The loop records a line as an error exactly when the line is a
    fatal signal; the flag it hands to the verifier says whether some line
    was one; and recording changes nothing in what is read: every line of
    the stream is relayed in order, each fatal one followed by its marker,
    and the loop ends with the stream, on the progress value 100. *)
Theorem fatal_signal_recorded_and_stream_consumed :
  (forall line, records_fatal line = true <-> fatal_signal line)
  /\ (forall lines,
        error_detected (build_loop lines) = true
        <-> exists line, line ∈ lines /\ fatal_signal line)
  /\ (forall lines,
        relayed_lines (trace (build_loop lines)) = concat (map relayed lines))
  /\ (forall lines,
        last (trace (build_loop lines)) = Some (progress_signal 100)).
Proof.
  split_and!.
  - apply records_fatal_spec.
  - intros lines. rewrite build_loop_error, existsb_exists. split.
    + intros (line & Hin & Hf). exists line.
      by rewrite list_elem_of_In, <- records_fatal_spec.
    + intros (line & Hin & Hf). exists line.
      by rewrite <- list_elem_of_In, records_fatal_spec.
  - intros lines. rewrite build_loop_trace. unfold relayed_lines.
    rewrite omap_app. cbn. rewrite app_nil_r. apply relayed_lines_concat.
  - intros lines. rewrite build_loop_trace. apply last_snoc.
Qed.

Lemma line_progress_values s v :
  line_progress s = Some v -> v = 50%Z \/ v = 60%Z \/ v = 80%Z \/ v = 90%Z.
Proof.
  unfold line_progress.
  repeat match goal with
         | |- context [if ?b then _ else _] => destruct b
         end; intros [= <-]; tauto.
Qed.

Lemma milestones_values lines :
  Forall (fun v => v = 50%Z \/ v = 60%Z \/ v = 80%Z \/ v = 90%Z)
         (omap milestone lines).
Proof.
  apply Forall_forall. intros v (line & _ & Hv)%list_elem_of_omap.
  by apply (line_progress_values (lower line)).
Qed.

Lemma build_loop_progress lines :
  progress_values (trace (build_loop lines)) = omap milestone lines ++ [100%Z].
Proof.
  rewrite build_loop_trace. unfold progress_values.
  rewrite omap_app. f_equal. apply progress_values_concat.
Qed.

Lemma Sorted_snoc_top (l : list Z) (top : Z) :
  Forall (fun v => (v <= top)%Z) l ->
  Sorted Z.le (l ++ [top]) <-> Sorted Z.le l.
Proof.
  intros Hle. split.
  - intros H%Sorted_StronglySorted; [|intros ???; lia].
    by apply StronglySorted_Sorted, (StronglySorted_app_1_l _ l [top]).
  - intros H%Sorted_StronglySorted; [|intros ???; lia].
    apply StronglySorted_Sorted, StronglySorted_app_2; [|done|by repeat constructor].
    intros x1 x2 Hx1 ->%list_elem_of_singleton.
    rewrite Forall_forall in Hle. by apply Hle.
Qed.

(** C2, as the code has it. Each line of output sends at most one progress
    value, 50, 60, 80 or 90, chosen by that line alone; the values go out
    in the order of the lines and 100 follows when the stream ends. None
    exceeds that 100, and the sequence is non-decreasing exactly when the
    values of the lines come in non-decreasing order. *)
Theorem progress_follows_the_lines lines :
  let emitted := progress_values (trace (build_loop lines)) in
  emitted = omap milestone lines ++ [100%Z]
  /\ Forall (fun v => v = 50%Z \/ v = 60%Z \/ v = 80%Z \/ v = 90%Z)
            (omap milestone lines)
  /\ Forall (fun v => (50 <= v <= 100)%Z) emitted
  /\ (Sorted Z.le emitted <-> Sorted Z.le (omap milestone lines)).
Proof.
  intros emitted. unfold emitted. rewrite build_loop_progress.
  pose proof (milestones_values lines) as Hv.
  split_and!; [done|done| |].
  - apply Forall_app. split; [|repeat constructor; lia].
    eapply Forall_impl; [exact Hv|]. intros v. simpl. lia.
  - apply Sorted_snoc_top.
    eapply Forall_impl; [exact Hv|]. intros v. simpl. lia.
Qed.

(** The claim C2 fails on a stream whose lines carry their milestones out
    of order: after 90 for the line about the ISO image, the line about
    the packages sends 50. *)
Lemma progress_regresses :
  let lines :=
    [str "[mkarchiso] INFO: Creating ISO image..." ++ [LF];
     str "[mkarchiso] INFO: Installing packages to '/work/x86_64/airootfs/'..."
     ++ [LF]] in
  progress_values (trace (build_loop lines)) = [90; 50; 100]%Z
  /\ ~ Sorted Z.le (progress_values (trace (build_loop lines))).
Proof.
  intros lines.
  assert (progress_values (trace (build_loop lines)) = [90; 50; 100]%Z) as ->
    by (by vm_compute).
  split; [done|]. intros H. inversion H as [|? ? _ Hhd]; subst.
  inversion Hhd as [|? ? Hle]; subst. lia.
Qed.

End driver_facts.

(** ** Artifact verifier *)

Section verifier_facts.

Implicit Types (f : formatting) (site : build_site) (lines : list text).
Implicit Types (build_dir output_dir : text) (iso squashfs : file_stat).

Ltac verify_cases :=
  repeat match goal with
         | |- context [if ?b then _ else _] =>
             lazymatch b with
             | true => fail
             | false => fail
             | _ => destruct b eqn:?
             end
         | |- context [match file_cmd ?s with _ => _ end] =>
             destruct (file_cmd s) as [[? ?]|]
         end.

Lemma outcomes_app (t1 t2 : list signal) :
  outcomes (t1 ++ t2) = outcomes t1 ++ outcomes t2.
Proof. apply omap_app. Qed.

Lemma outcomes_line_signals (line : text) : outcomes (line_signals line) = [].
Proof.
  unfold line_signals, loop_step, idle. cbn [error_detected trace].
  loop_cases; done.
Qed.

Lemma outcomes_build_loop lines : outcomes (trace (build_loop lines)) = [].
Proof.
  rewrite build_loop_trace, outcomes_app.
  change (outcomes [progress_signal 100]) with (@nil build_outcome).
  rewrite app_nil_r.
  induction lines as [|line lines IH]; [done|].
  cbn [map concat]. by rewrite outcomes_app, IH, outcomes_line_signals.
Qed.

(** The outcome of a build is the one the verifier decides. *)
Lemma outcomes_build_and_verify f build_dir output_dir lines site :
  outcomes (build_and_verify f build_dir output_dir lines site)
  = outcomes (verify f build_dir output_dir
                (error_detected (build_loop lines)) site).
Proof.
  unfold build_and_verify. by rewrite outcomes_app, outcomes_build_loop.
Qed.

(** What the verifier decides when there is an image. *)
Lemma verify_outcome f build_dir output_dir e site iso rest :
  iso_files site = iso :: rest ->
  outcomes (verify f build_dir output_dir e site)
  = [if bool_decide (located_squashfs site = [])
        && negb (size_gt_1 (st_size iso)) && size_lt_1 (st_size iso)
     then Failure (str "ISO verification failed - may not boot")
     else Success (path iso)].
Proof.
  intros Hiso. unfold verify. rewrite Hiso.
  destruct (located_squashfs site) as [|squashfs more].
  - rewrite (bool_decide_eq_true_2 (@nil file_stat = [])) by done.
    destruct (size_gt_1 (st_size iso)), (size_lt_1 (st_size iso));
      cbn [andb negb]; verify_cases; reflexivity.
  - rewrite (bool_decide_eq_false_2 (squashfs :: more = [])) by done.
    cbn [andb negb]; verify_cases; reflexivity.
Qed.

(** C7. A build whose process exits with 0 and leaves no image in the
    output directory ends in one outcome, the failure that names the
    missing image; it is no success. *)
Theorem exit_zero_without_image_fails f build_dir output_dir lines site :
  returncode site = 0%Z ->
  iso_files site = [] ->
  outcomes (build_and_verify f build_dir output_dir lines site)
  = [Failure (str "ISO file not found in output directory")].
Proof.
  intros Hrc Hiso. rewrite outcomes_build_and_verify.
  unfold verify. rewrite Hiso, Hrc. reflexivity.
Qed.

Lemma verify_ignores_errors f build_dir output_dir e e' site :
  outcomes (verify f build_dir output_dir e site)
  = outcomes (verify f build_dir output_dir e' site).
Proof.
  destruct (iso_files site) as [|iso rest] eqn:Hiso.
  - unfold verify. by rewrite Hiso.
  - by rewrite !(verify_outcome _ _ _ _ _ _ _ Hiso).
Qed.

(** The warnings of the verifier when there is an image: one for a small
    payload, one for a small image without payload. *)
Lemma verify_warnings f build_dir output_dir e site iso rest :
  iso_files site = iso :: rest ->
  warnings (verify f build_dir output_dir e site)
  = match located_squashfs site with
    | squashfs :: _ =>
        if size_lt_tenth (st_size squashfs)
        then [str "[WARN] Squashfs file is very small - may be corrupted or empty!"
              ++ [LF]]
        else []
    | [] =>
        if size_gt_1 (st_size iso) then []
        else [str "[WARN] ISO size is suspiciously small. Squashfs may be missing."
              ++ [LF]]
    end.
Proof.
  intros Hiso. unfold verify. rewrite Hiso.
  destruct (located_squashfs site) as [|squashfs more].
  - destruct (size_gt_1 (st_size iso)); verify_cases; reflexivity.
  - destruct (size_lt_tenth (st_size squashfs)); verify_cases; reflexivity.
Qed.

Lemma located_squashfs_spec site :
  located_squashfs site <> []
  <-> build_squashfs site <> []
      \/ (arch_dir_exists site = true /\ arch_squashfs site <> []).
Proof.
  unfold located_squashfs.
  destruct (build_squashfs site) as [|x xs], (arch_dir_exists site);
    split; intros H; try done; try (by left); try (by right);
    try (by destruct H as [?|[? ?]]).
Qed.

(** C8. With an image and no payload found, the size of the image
    decides: above 1.0 GB the build succeeds and the verifier warns about
    nothing; below it the build fails. The error flag of the build loop
    changes no outcome. *)
Theorem no_payload_decided_by_size f build_dir output_dir lines site iso rest :
  iso_files site = iso :: rest ->
  located_squashfs site = [] ->
  ((GiB < st_size iso)%Z ->
     outcomes (build_and_verify f build_dir output_dir lines site)
     = [Success (path iso)]
     /\ warnings (verify f build_dir output_dir
                    (error_detected (build_loop lines)) site) = [])
  /\ ((st_size iso < GiB)%Z ->
      outcomes (build_and_verify f build_dir output_dir lines site)
      = [Failure (str "ISO verification failed - may not boot")])
  /\ (forall site' e e',
        outcomes (verify f build_dir output_dir e site')
        = outcomes (verify f build_dir output_dir e' site')).
Proof.
  intros Hiso Hloc. split_and!.
  - intros Hsize.
    rewrite outcomes_build_and_verify, (verify_outcome _ _ _ _ _ _ _ Hiso).
    rewrite (verify_warnings _ _ _ _ _ _ _ Hiso), Hloc.
    assert (size_gt_1 (st_size iso) = true) as ->
      by (by apply Z.ltb_lt).
    by rewrite andb_false_r.
  - intros Hsize.
    rewrite outcomes_build_and_verify, (verify_outcome _ _ _ _ _ _ _ Hiso), Hloc.
    assert (size_gt_1 (st_size iso) = false) as ->
      by (apply Z.ltb_ge; lia).
    assert (size_lt_1 (st_size iso) = true) as ->
      by (by apply Z.ltb_lt).
    done.
  - intros site' e e'. apply verify_ignores_errors.
Qed.

(** C10. With an image and a payload found, in the build tree or under
    [arch] in the output tree, the build succeeds whatever the two sizes
    are; a payload under 0.1 GB adds one warning and nothing else. *)
Theorem located_payload_always_passes f build_dir output_dir lines site iso rest :
  iso_files site = iso :: rest ->
  build_squashfs site <> []
  \/ (arch_dir_exists site = true /\ arch_squashfs site <> []) ->
  outcomes (build_and_verify f build_dir output_dir lines site)
  = [Success (path iso)]
  /\ exists squashfs more,
       located_squashfs site = squashfs :: more
       /\ warnings (verify f build_dir output_dir
                      (error_detected (build_loop lines)) site)
          = if size_lt_tenth (st_size squashfs)
            then [str "[WARN] Squashfs file is very small - may be corrupted or empty!"
                  ++ [LF]]
            else [].
Proof.
  intros Hiso Hloc%located_squashfs_spec.
  destruct (located_squashfs site) as [|squashfs more] eqn:E; [done|].
  split.
  - rewrite outcomes_build_and_verify, (verify_outcome _ _ _ _ _ _ _ Hiso), E.
    by rewrite (bool_decide_eq_false_2 (squashfs :: more = [])).
  - exists squashfs, more. split; [done|].
    by rewrite (verify_warnings _ _ _ _ _ _ _ Hiso), E.
Qed.

Lemma exit_zero_without_image_fails_witness :
  outcomes (build_and_verify plain_formatting (str "/work/build") (str "/out")
              [str "[mkarchiso] INFO: Done!" ++ [LF]] site_without_image)
  = [Failure (str "ISO file not found in output directory")].
Proof. apply exit_zero_without_image_fails; reflexivity. Defined.

Lemma no_payload_decided_by_size_witness :
  let lines := [str "ERROR: Failed to install packages" ++ [LF]] in
  error_detected (build_loop lines) = true
  /\ outcomes (build_and_verify plain_formatting (str "/work/build") (str "/out")
                 lines site_large_image)
     = [Success (str "/out/arch.iso")]
  /\ warnings (verify plain_formatting (str "/work/build") (str "/out")
                 (error_detected (build_loop lines)) site_large_image) = [].
Proof.
  intros lines. split; [by vm_compute|].
  apply (no_payload_decided_by_size plain_formatting (str "/work/build")
           (str "/out") lines site_large_image
           {| path := str "/out/arch.iso"; st_size := 2147483648 |} []);
    [reflexivity|reflexivity|by vm_compute].
Defined.

Lemma located_payload_always_passes_witness :
  outcomes (build_and_verify plain_formatting (str "/work/build") (str "/out")
              [] site_small_payload)
  = [Success (str "/out/arch.iso")].
Proof.
  apply (located_payload_always_passes plain_formatting (str "/work/build")
           (str "/out") [] site_small_payload
           {| path := str "/out/arch.iso"; st_size := 53687091 |} []).
  - reflexivity.
  - by left.
Defined.

(** The scenarios D and E of the specification: an image of 2.0 GB
    without payload passes, one of 0.05 GB without payload fails. *)
Example scenario_large_image :
  outcomes (build_and_verify plain_formatting (str "/work/build") (str "/out")
              [] site_large_image)
  = [Success (str "/out/arch.iso")].
Proof. by vm_compute. Qed.

Example scenario_small_image :
  outcomes (build_and_verify plain_formatting (str "/work/build") (str "/out")
              [] site_small_image)
  = [Failure (str "ISO verification failed - may not boot")].
Proof. by vm_compute. Qed.

End verifier_facts.

(** ** Package selection and local repository *)

Section staging_facts.

Implicit Types (f : formatting) (h : host) (cfg : config) (st : staging).
Implicit Types (pkg name conf stdout : text) (dir aur : list text).

Lemma insert_by_mtime_perm (file : cache_file) (l : list cache_file) :
  insert_by_mtime file l ≡ₚ file :: l.
Proof.
  induction l as [|g l IH]; [done|]. simpl.
  destruct (st_mtime file <=? st_mtime g)%Z; [done|].
  by rewrite IH, Permutation_swap.
Qed.

Lemma sorted_by_mtime_perm (l : list cache_file) : sorted_by_mtime l ≡ₚ l.
Proof.
  induction l as [|file l IH]; [done|].
  unfold sorted_by_mtime in *. cbn [foldr].
  by rewrite insert_by_mtime_perm, IH.
Qed.

(** The file picked is one of the files listed. *)
Lemma picked_elem_of (files : list cache_file) (file : cache_file) :
  picked files = Some file -> file ∈ files.
Proof.
  destruct files as [|f0 fs]; [done|]. intros [= <-].
  unfold newest. destruct (last (sorted_by_mtime (f0 :: fs))) as [x|] eqn:E.
  - apply last_Some_elem_of in E. by rewrite sorted_by_mtime_perm in E.
  - by left.
Qed.

Lemma stage_package_cases h st pkg :
  stage_package h st pkg
  = if pacman_Ql h pkg then
      match picked (cache_glob h pkg) with
      | Some pkg_file =>
          {| successfully_copied_aur := successfully_copied_aur st ++ [pkg];
             failed_aur_packages := failed_aur_packages st;
             local_repo := cp_into h pkg_file (local_repo st);
             staging_log :=
               staging_log st
               ++ [output_signal (str "  - Copying " ++ file_name pkg_file ++ [LF])] |}
      | None =>
          {| successfully_copied_aur := successfully_copied_aur st;
             failed_aur_packages := failed_aur_packages st ++ [pkg];
             local_repo := local_repo st;
             staging_log :=
               staging_log st
               ++ [output_signal
                     (str "  - [WARN] Package file not found in cache: " ++ pkg
                      ++ str " (will be excluded from ISO)" ++ [LF])] |}
      end
    else st.
Proof.
  unfold stage_package, picked. destruct (pacman_Ql h pkg); [|done].
  by destruct (cache_glob h pkg).
Qed.


(** The two lists of the loop over [aur_packages]. *)
Lemma foldl_stage_lists h st aur :
  successfully_copied_aur (foldl (stage_package h) st aur)
  = successfully_copied_aur st ++ filter (fun pkg => stageable h pkg = true) aur
  /\ failed_aur_packages (foldl (stage_package h) st aur)
     = failed_aur_packages st
       ++ filter (fun pkg => pacman_Ql h pkg = true /\ cache_glob h pkg = []) aur.
Proof.
  revert st. induction aur as [|pkg aur IH]; intros st.
  - cbn. by rewrite !app_nil_r.
  - cbn [foldl]. destruct (IH (stage_package h st pkg)) as [-> ->].
    rewrite !filter_cons. unfold stage_package, stageable.
    destruct (pacman_Ql h pkg); cbn [andb].
    + destruct (cache_glob h pkg) as [|f0 fs].
      * rewrite (bool_decide_eq_true_2 (@nil cache_file = [])) by done.
        cbn [negb successfully_copied_aur failed_aur_packages].
        repeat case_decide; try done; try tauto.
        by rewrite <- app_assoc.
      * rewrite (bool_decide_eq_false_2 (f0 :: fs = [])) by done.
        cbn [negb successfully_copied_aur failed_aur_packages].
        repeat case_decide; try done; try (by destruct_and?).
        by rewrite <- app_assoc.
    + repeat case_decide; try done. by destruct_and?.
Qed.

(** The files in the local repository after the loop. *)
Lemma foldl_stage_local_repo h st aur name :
  name ∈ local_repo (foldl (stage_package h) st aur)
  <-> name ∈ local_repo st \/ artifact_copied h aur name.
Proof.
  revert st. induction aur as [|pkg aur IH]; intros st.
  - cbn. split; [by left|]. intros [Hin|(p & file & Hp & _)]; [done|].
    by apply elem_of_nil in Hp.
  - cbn [foldl]. rewrite IH. rewrite stage_package_cases.
    unfold artifact_copied. split.
    + intros [Hin|(p & file & Hp & Hrest)].
      * destruct (pacman_Ql h pkg) eqn:Hql; [|by left].
        destruct (picked (cache_glob h pkg)) as [file|] eqn:Hpick; [|by left].
        cbn [local_repo] in Hin. unfold cp_into in Hin.
        destruct (cp_ok h file) eqn:Hcp; [|by left].
        destruct (bool_decide (file_name file ∈ local_repo st)); [by left|].
        apply elem_of_app in Hin as [? | ->%list_elem_of_singleton]; [by left|].
        right. exists pkg, file. split_and!; try done. by left.
      * right. exists p, file. split; [by right|done].
    + intros [Hin|(p & file & Hp & Hql & Hpick & Hcp & ->)].
      * left. destruct (pacman_Ql h pkg); [|done].
        destruct (picked (cache_glob h pkg)) as [file|]; [|done].
        cbn [local_repo]. unfold cp_into.
        destruct (cp_ok h file); [|done].
        destruct (bool_decide (file_name file ∈ local_repo st)); [done|].
        apply elem_of_app. by left.
      * apply elem_of_cons in Hp as [->|Hp].
        -- left. rewrite Hql, Hpick. cbn [local_repo]. unfold cp_into.
           rewrite Hcp. destruct (bool_decide (_ ∈ _)) eqn:E.
           ++ by apply bool_decide_eq_true in E.
           ++ apply elem_of_app. right. by left.
        -- right. exists p, file. by split_and!.
Qed.

Lemma artifact_copied_archive h aur name :
  artifact_copied h aur name -> is_pkg_archive name = true.
Proof.
  intros (pkg & file & _ & _ & Hpick & _ & ->).
  apply (cache_glob_archive h pkg). by apply picked_elem_of.
Qed.

(** The branch of [run] that includes custom repositories. *)
Lemma classify_and_stage_custom f h cfg dir conf stdout :
  include_custom_repos cfg = true ->
  let named := named_packages_of stdout in
  let aur := filter (fun pkg => pacman_Si h pkg = false) named in
  let st := stage_packages h dir aur in
  let sel := classify_and_stage f h cfg dir conf stdout in
  let index :=
    bool_decide (aur <> [])
    && negb (bool_decide
               (filter (fun name => is_pkg_archive name = true) (local_repo st) = [])) in
  sel_aur_packages sel = aur
  /\ sel_copied sel = successfully_copied_aur st
  /\ sel_failed sel = failed_aur_packages st
  /\ sel_local_repo sel = local_repo st
  /\ sel_repo_add sel
     = (if index
        then Some (filter (fun name => is_pkg_archive name = true) (local_repo st))
        else None)
  /\ sel_pacman_conf sel = (if index then conf ++ local_repo_stanza else conf)
  /\ sel_packages sel
     = filter (fun pkg => pkg ∉ excluded_packages cfg)
              (filter (fun pkg => pacman_Si h pkg = true) named)
       ++ filter (fun pkg => pkg ∉ excluded_packages cfg)
                 (successfully_copied_aur st).
Proof.
  intros Hcustom named aur st sel index.
  unfold sel, classify_and_stage. rewrite Hcustom.
  fold (all_packages_of stdout). fold (named_packages_of stdout). fold named.
  fold aur.
  assert ((if bool_decide (aur = [])
           then {| successfully_copied_aur := []; failed_aur_packages := [];
                   local_repo := dir; staging_log := [] |}
           else stage_packages h dir aur) = st) as ->.
  { unfold st. by destruct aur. }
  cbn [sel_aur_packages sel_copied sel_failed sel_local_repo sel_repo_add
       sel_pacman_conf sel_packages].
  split_and!; try done.
  assert (forall l : list text,
             (if bool_decide (list_to_set (excluded_packages cfg) = (∅ : gset text))
              then l
              else filter (fun pkg => pkg ∉ (list_to_set (excluded_packages cfg) : gset text)) l)
             = filter (fun pkg => pkg ∉ excluded_packages cfg) l) as Hfilter.
  { intros l. case_bool_decide as Hempty.
    - symmetry. apply filter_all. intros x _ Hx.
      assert (x ∈ (list_to_set (excluded_packages cfg) : gset text)) as Hin
        by (by apply elem_of_list_to_set).
      rewrite Hempty in Hin. by apply elem_of_empty in Hin.
    - apply list_filter_iff. intros x. by rewrite elem_of_list_to_set. }
  by rewrite !Hfilter.
Qed.

Lemma classify_and_stage_official f h cfg dir conf stdout :
  include_custom_repos cfg = false ->
  let sel := classify_and_stage f h cfg dir conf stdout in
  sel_copied sel = [] /\ sel_failed sel = []
  /\ sel_local_repo sel = dir
  /\ sel_repo_add sel = None
  /\ sel_pacman_conf sel = conf
  /\ sel_packages sel
     = filter (fun pkg => pacman_Si h pkg = true) (named_packages_of stdout).
Proof.
  intros Hofficial sel. unfold sel, classify_and_stage. by rewrite Hofficial.
Qed.

(** The loop over [gui_must] leaves everything but the package list and
    the log as it was. *)
Lemma select_packages_staging f h cfg dir conf stdout :
  let sel := select_packages f h cfg dir conf stdout in
  let base := classify_and_stage f h cfg dir conf stdout in
  sel_aur_packages sel = sel_aur_packages base
  /\ sel_copied sel = sel_copied base
  /\ sel_failed sel = sel_failed base
  /\ sel_local_repo sel = sel_local_repo base
  /\ sel_repo_add sel = sel_repo_add base
  /\ sel_pacman_conf sel = sel_pacman_conf base
  /\ sel_packages sel
     = (foldl (add_gui_package (list_to_set (excluded_packages cfg))
                               (all_packages_of stdout))
              (sel_packages base, [], []) gui_must).1.1.
Proof.
  intros sel base. unfold sel, select_packages. fold base.
  fold (all_packages_of stdout).
  by destruct (foldl _ _ gui_must) as [[packages added] log].
Qed.

Lemma foldl_gui_packages (E : gset text) (all musts : list text)
    (acc : list text * list text * list signal) (q : text) :
  q ∈ (foldl (add_gui_package E all) acc musts).1.1
  <-> q ∈ acc.1.1 \/ (q ∈ musts /\ (q ∉ E) /\ (q ∉ all)).
Proof.
  revert acc. induction musts as [|must musts IH]; intros [[packages added] log].
  - cbn. rewrite elem_of_nil. tauto.
  - cbn [foldl]. rewrite IH. unfold add_gui_package.
    rewrite elem_of_cons.
    destruct (decide (must ∈ E)) as [HE|HE].
    { rewrite (bool_decide_eq_true_2 _ HE). cbn [fst].
      split; [tauto|]. intros [?|[[->|?] ?]]; tauto. }
    rewrite (bool_decide_eq_false_2 _ HE).
    destruct (decide (must ∈ packages)) as [Hp|Hp].
    { rewrite (bool_decide_eq_false_2 (must ∉ packages)) by tauto.
      cbn [andb fst]. split; [tauto|].
      intros [?|[[->|?] ?]]; tauto. }
    rewrite (bool_decide_eq_true_2 (must ∉ packages)) by done.
    destruct (decide (must ∈ all)) as [Ha|Ha].
    { rewrite (bool_decide_eq_false_2 (must ∉ all)) by tauto.
      cbn [andb fst]. split; [tauto|].
      intros [?|[[->|?] ?]]; tauto. }
    rewrite (bool_decide_eq_true_2 (must ∉ all)) by done.
    cbn [andb fst]. rewrite elem_of_app, list_elem_of_singleton.
    split.
    + intros [[?| ->]|?]; tauto.
    + intros [?|[[->|?] ?]]; tauto.
Qed.

(** Which packages go to the manifest builder. *)
Lemma elem_of_sel_packages f h cfg dir conf stdout q :
  q ∈ sel_packages (select_packages f h cfg dir conf stdout)
  <-> (q ∈ named_packages_of stdout /\ selectable h cfg q = true)
      \/ (q ∈ gui_must /\ (q ∉ excluded_packages cfg)
          /\ (q ∉ all_packages_of stdout)).
Proof.
  destruct (select_packages_staging f h cfg dir conf stdout)
    as (_ & _ & _ & _ & _ & _ & ->).
  rewrite foldl_gui_packages. cbn [fst]. rewrite elem_of_list_to_set.
  apply or_iff_compat_r. unfold selectable.
  destruct (include_custom_repos cfg) eqn:Hcustom.
  - destruct (classify_and_stage_custom f h cfg dir conf stdout Hcustom)
      as (_ & _ & _ & _ & _ & _ & ->).
    unfold stage_packages.
    destruct (foldl_stage_lists h
                {| successfully_copied_aur := []; failed_aur_packages := [];
                   local_repo := dir; staging_log := [] |}
                (filter (fun pkg => pacman_Si h pkg = false) (named_packages_of stdout)))
      as [-> _].
    cbn [successfully_copied_aur app].
    rewrite elem_of_app, !list_elem_of_filter.
    rewrite andb_true_iff, negb_true_iff, bool_decide_eq_false, orb_true_iff.
    destruct (pacman_Si h q); intuition congruence.
  - destruct (classify_and_stage_official f h cfg dir conf stdout Hcustom)
      as (_ & _ & _ & _ & _ & ->).
    rewrite list_elem_of_filter. tauto.
Qed.

Lemma elem_of_sel_local_repo f h cfg conf stdout name :
  let sel := select_packages f h cfg [] conf stdout in
  name ∈ sel_local_repo sel
  <-> include_custom_repos cfg = true
      /\ artifact_copied h (sel_aur_packages sel) name.
Proof.
  intros sel.
  destruct (select_packages_staging f h cfg [] conf stdout)
    as (Haur & _ & _ & Hrepo & _).
  unfold sel. rewrite Hrepo, Haur.
  destruct (include_custom_repos cfg) eqn:Hcustom.
  - destruct (classify_and_stage_custom f h cfg [] conf stdout Hcustom)
      as (-> & _ & _ & -> & _).
    unfold stage_packages. rewrite foldl_stage_local_repo. cbn [local_repo].
    rewrite elem_of_nil. tauto.
  - destruct (classify_and_stage_official f h cfg [] conf stdout Hcustom)
      as (_ & _ & -> & _).
    rewrite elem_of_nil. split; [done|]. by intros [? _].
Qed.

(** C9. The local repository starts empty. A file is in it after staging
    exactly when it was copied there for a non-repository package. With no
    file in it, [repo-add] is not run and the staged [pacman.conf] is left
    as it was; with at least one, [repo-add] is run on all the files of
    the directory and the stanza of the local repository is appended. *)
Theorem repository_index_only_with_artifacts f h cfg conf stdout :
  let sel := select_packages f h cfg [] conf stdout in
  (forall name,
     name ∈ sel_local_repo sel
     <-> include_custom_repos cfg = true
         /\ artifact_copied h (sel_aur_packages sel) name)
  /\ (sel_local_repo sel = [] ->
      sel_repo_add sel = None /\ sel_pacman_conf sel = conf)
  /\ (sel_local_repo sel <> [] ->
      sel_repo_add sel = Some (sel_local_repo sel)
      /\ sel_pacman_conf sel = conf ++ local_repo_stanza).
Proof.
  intros sel. split; [apply elem_of_sel_local_repo|].
  pose proof (elem_of_sel_local_repo f h cfg conf stdout) as Hcopied.
  fold sel in Hcopied. cbv zeta in Hcopied.
  destruct (select_packages_staging f h cfg [] conf stdout)
    as (Haur & _ & _ & Hrepo & Hadd & Hconf & _).
  fold sel in Haur, Hrepo, Hadd, Hconf.
  rewrite Hadd, Hconf. rewrite Hrepo in *.
  destruct (include_custom_repos cfg) eqn:Hcustom.
  - destruct (classify_and_stage_custom f h cfg [] conf stdout Hcustom)
      as (Haur' & _ & _ & Hrepo' & -> & -> & _).
    rewrite Hrepo' in *. rewrite Haur, Haur' in Hcopied.
    set (aur := filter (fun pkg => pacman_Si h pkg = false) (named_packages_of stdout))
      in *.
    set (dir := local_repo (stage_packages h [] aur)) in *.
    assert (filter (fun name => is_pkg_archive name = true) dir = dir) as ->.
    { apply filter_all. intros name [_ Hname]%Hcopied.
      by apply (artifact_copied_archive h aur). }
    split.
    + intros ->. by rewrite (bool_decide_eq_true_2 (@nil text = [])), andb_false_r.
    + intros Hdir. rewrite (bool_decide_eq_false_2 _ Hdir).
      destruct (decide (aur = [])) as [Hnil|Hne].
      { exfalso. apply Hdir. unfold dir. by rewrite Hnil. }
      by rewrite (bool_decide_eq_true_2 _ Hne).
  - destruct (classify_and_stage_official f h cfg [] conf stdout Hcustom)
      as (_ & _ & Hrepo' & -> & -> & _).
    rewrite Hrepo'. split; [done|]. by intros [].
Qed.

(** C4, as the code has it. A non-repository package of the inventory for
    which the cache lists no file is not among the packages handed to the
    manifest builder; it is on the list of failed packages when custom
    repositories are included and its files could be listed. A package is
    handed over exactly when it passes a test of its own, or is a GUI
    package added at the end; so on another host that answers alike for a
    package, that package is selected or not as before, whatever has
    changed for the others. *)
Theorem unstaged_package_not_selected f h cfg dir conf stdout :
  let sel := select_packages f h cfg dir conf stdout in
  (forall pkg,
     pkg ∈ named_packages_of stdout ->
     pacman_Si h pkg = false ->
     cache_glob h pkg = [] ->
     (pkg ∉ sel_packages sel)
     /\ (include_custom_repos cfg = true -> pacman_Ql h pkg = true ->
         pkg ∈ sel_failed sel))
  /\ (forall q,
        q ∈ sel_packages sel
        <-> (q ∈ named_packages_of stdout /\ selectable h cfg q = true)
            \/ (q ∈ gui_must /\ (q ∉ excluded_packages cfg)
                /\ (q ∉ all_packages_of stdout)))
  /\ (forall h' q,
        pacman_Si h' q = pacman_Si h q ->
        stageable h' q = stageable h q ->
        q ∈ sel_packages (select_packages f h' cfg dir conf stdout)
        <-> q ∈ sel_packages sel).
Proof.
  intros sel. split_and!.
  - intros pkg Hnamed Hsi Hglob. split.
    + unfold sel. rewrite elem_of_sel_packages.
      intros [[_ Hsel]|(_ & _ & Hall)].
      * unfold selectable, stageable in Hsel. rewrite Hsi, Hglob in Hsel.
        rewrite (bool_decide_eq_true_2 (@nil cache_file = [])) in Hsel by done.
        by rewrite !andb_false_r in Hsel; destruct (include_custom_repos cfg).
      * apply Hall. by apply list_elem_of_filter in Hnamed as [_ ?].
    + intros Hcustom Hql.
      destruct (select_packages_staging f h cfg dir conf stdout)
        as (_ & _ & Hfailed & _).
      unfold sel. rewrite Hfailed.
      destruct (classify_and_stage_custom f h cfg dir conf stdout Hcustom)
        as (_ & _ & -> & _).
      unfold stage_packages.
      destruct (foldl_stage_lists h
                  {| successfully_copied_aur := []; failed_aur_packages := [];
                     local_repo := dir; staging_log := [] |}
                  (filter (fun pkg => pacman_Si h pkg = false)
                          (named_packages_of stdout)))
        as [_ ->].
      cbn [failed_aur_packages app]. rewrite !list_elem_of_filter. tauto.
  - intros q. apply elem_of_sel_packages.
  - intros h' q Hsi Hst. unfold sel. rewrite !elem_of_sel_packages.
    unfold selectable. by rewrite Hsi, Hst.
Qed.

(** The claim C4 fails for a package whose files [pacman -Ql] does not
    list: no file of [paru] is in the cache, and [paru] is dropped from
    the selection without being put on the list of failed packages. *)
Lemma package_dropped_without_being_marked :
  let h := host_without_file_lists in
  let sel :=
    select_packages plain_formatting h sample_config [] sample_pacman_conf
                    sample_inventory in
  str "paru" ∈ named_packages_of sample_inventory
  /\ pacman_Si h (str "paru") = false
  /\ cache_glob h (str "paru") = []
  /\ (str "paru" ∉ sel_packages sel)
  /\ sel_failed sel = [].
Proof.
  intros h sel. split_and!.
  - apply (bool_decide_unpack _). by vm_compute.
  - by vm_compute.
  - by vm_compute.
  - apply (bool_decide_unpack _). by vm_compute.
  - by vm_compute.
Qed.

Lemma unstaged_package_not_selected_witness :
  let h := host_without_cache in
  let sel :=
    select_packages plain_formatting h sample_config [] sample_pacman_conf
                    sample_inventory in
  (str "paru" ∉ sel_packages sel)
  /\ (include_custom_repos sample_config = true ->
      pacman_Ql h (str "paru") = true -> str "paru" ∈ sel_failed sel).
Proof.
  intros h sel.
  apply (unstaged_package_not_selected plain_formatting h sample_config []
           sample_pacman_conf sample_inventory).
  - apply (bool_decide_unpack _). by vm_compute.
  - reflexivity.
  - reflexivity.
Defined.

Lemma repository_index_only_with_artifacts_witness :
  let sel :=
    select_packages plain_formatting sample_host sample_config []
                    sample_pacman_conf sample_inventory in
  sel_repo_add sel = Some (sel_local_repo sel)
  /\ sel_pacman_conf sel = sample_pacman_conf ++ local_repo_stanza.
Proof.
  intros sel.
  apply (repository_index_only_with_artifacts plain_formatting sample_host
           sample_config sample_pacman_conf sample_inventory).
  by vm_compute.
Defined.

End staging_facts.

(** * Further properties *)

(** ** The manifest: order, exclusions, size *)

Section manifest_more.

Implicit Types (o : set_iteration) (raw path l t p : text).
Implicit Types (packages excluded : list text).

Lemma forallb_lstrip (q : ascii -> bool) l :
  forallb q l = true -> forallb q (lstrip l) = true.
Proof.
  induction l as [|c l IH]; [done|]. intros H. simpl.
  destruct (is_space c); [|done]. apply IH. by apply andb_prop in H as [_ ?].
Qed.

Lemma forallb_rstrip (q : ascii -> bool) l :
  forallb q l = true -> forallb q (rstrip l) = true.
Proof.
  intros H. destruct (rstrip_decompose l) as (ws & Hl & _).
  rewrite Hl, forallb_app in H. by apply andb_prop in H as [? _].
Qed.

Lemma forallb_strip (q : ascii -> bool) l :
  forallb q l = true -> forallb q (strip l) = true.
Proof. intros H. by apply forallb_rstrip, forallb_lstrip. Qed.

Lemma lstrip_idem l : lstrip (lstrip l) = lstrip l.
Proof.
  induction l as [|c l IH]; [done|]. simpl.
  destruct (is_space c) eqn:E; [done|]. simpl. by rewrite E.
Qed.

Lemma lstrip_rstrip l : lstrip (rstrip l) = rstrip (lstrip l).
Proof.
  induction l as [|c l IH]; [done|].
  rewrite rstrip_cons. cbn [lstrip forallb].
  destruct (is_space c) eqn:Hc; cbn [andb].
  - destruct (forallb is_space l) eqn:Hl.
    + cbn. rewrite (lstrip_all_space l Hl). done.
    + cbn [lstrip]. by rewrite Hc.
  - cbn [lstrip]. rewrite Hc. rewrite rstrip_cons. cbn [forallb].
    by rewrite Hc.
Qed.

Lemma strip_idem l : strip (strip l) = strip l.
Proof.
  unfold strip. by rewrite <- lstrip_rstrip, rstrip_idem, lstrip_rstrip, lstrip_idem.
Qed.

(** The lines of [readlines] have no CR, and no LF but at their end. *)
Lemma universal_newlines_no_cr s :
  forallb (fun c => negb (is_cr c)) (universal_newlines s) = true.
Proof.
  remember (length s) as n eqn:Hn. revert s Hn.
  induction n as [n IH] using lt_wf_ind. intros s Hn.
  destruct s as [|c s]; [done|].
  destruct (is_cr c) eqn:Hc.
  - destruct s as [|c' s]; [by cbn; rewrite Hc|].
    destruct (is_lf c') eqn:Hc'.
    + rewrite (universal_newlines_cr_lf c c') by done. cbn [forallb].
      apply andb_true_intro. split; [done|].
      apply (IH (length s)); simpl in *; [lia|done].
    + rewrite (universal_newlines_cr c c') by done. cbn [forallb].
      apply andb_true_intro. split; [done|].
      apply (IH (length (c' :: s))); simpl in *; [lia|done].
  - rewrite (universal_newlines_other c) by done. cbn [forallb].
    rewrite Hc. apply (IH (length s)); simpl in *; [lia|done].
Qed.

Lemma split_keepends_forallb (q : ascii -> bool) s :
  forallb q s = true ->
  Forall (fun l => forallb q l = true) (split_keepends s).
Proof.
  induction s as [|c s IH]; [constructor|].
  intros [Hc Hs]%andb_prop. specialize (IH Hs). simpl.
  destruct (is_lf c).
  - constructor; [|done]. cbn. by rewrite Hc.
  - destruct (split_keepends s) as [|l ls]; [repeat constructor; cbn; by rewrite Hc|].
    inversion IH as [|? ? Hl Hls]; subst. constructor; [|done].
    cbn. by rewrite Hc, Hl.
Qed.

Lemma split_keepends_shape s :
  Forall (fun l => exists body,
              (l = body ++ [LF] \/ l = body)
              /\ forallb (fun c => negb (is_lf c)) body = true)
         (split_keepends s).
Proof.
  induction s as [|c s IH]; [constructor|]. simpl.
  destruct (is_lf c) eqn:Hlf.
  - constructor; [|done]. exists []. split; [|done].
    left. by apply is_lf_eq in Hlf as ->.
  - destruct (split_keepends s) as [|l ls].
    + repeat constructor. exists [c]. split; [by right|]. cbn. by rewrite Hlf.
    + inversion IH as [|? ? (body & Hb & Hn) Hls]; subst.
      constructor; [|done]. exists (c :: body). split.
      * destruct Hb as [-> | ->]; [by left|by right].
      * cbn. by rewrite Hlf, Hn.
Qed.

(** What [readlines] returns, stripped, is one line. *)
Lemma readlines_strip_no_newline raw :
  Forall (fun l => no_newline (strip l) = true) (readlines raw).
Proof.
  unfold readlines.
  pose proof (split_keepends_forallb _ _ (universal_newlines_no_cr raw)) as Hcr.
  pose proof (split_keepends_shape (universal_newlines raw)) as Hshape.
  rewrite Forall_forall in *. intros l Hl.
  destruct (Hshape l Hl) as (body & Hb & Hlf). specialize (Hcr l Hl).
  assert (no_newline body = true) as Hbody.
  { assert (forallb (fun c => negb (is_cr c)) body = true) as Hcrb.
    { destruct Hb as [-> | ->]; [|done].
      rewrite forallb_app in Hcr. by apply andb_prop in Hcr as [? _]. }
    unfold no_newline. rewrite forallb_forall in *. intros c Hc.
    specialize (Hlf c Hc). specialize (Hcrb c Hc).
    apply negb_true_iff in Hlf, Hcrb. by rewrite Hlf, Hcrb. }
  destruct Hb as [-> | ->].
  - rewrite strip_snoc_lf. by apply forallb_strip.
  - by apply forallb_strip.
Qed.

(** The entries of [pkg_lines] are package tokens. *)
Lemma reread_tokens contents :
  Forall (fun t => no_newline t = true /\ strip t = t /\ is_package_line t = true)
         (reread_pkg_lines contents).
Proof.
  unfold reread_pkg_lines. apply Forall_forall.
  intros t (l & -> & [Hpl Hl]%list_elem_of_filter)%list_elem_of_fmap.
  split_and!.
  - pose proof (readlines_strip_no_newline contents) as H.
    rewrite Forall_forall in H. by apply H.
  - apply strip_idem.
  - by rewrite (is_package_line_strip_eq (strip l) l (strip_idem l)).
Qed.

Lemma base_packages_of_tokens ts :
  Forall (fun t => no_newline t = true /\ strip t = t /\ is_package_line t = true) ts ->
  base_packages_of ts = ts.
Proof.
  induction 1 as [|t ts (_ & Hs & Hp) Hts IH]; [done|].
  by rewrite base_packages_of_cons, Hp, Hs, IH.
Qed.

(** X1. The package list written for the installer holds the manifest and
    nothing else: read as a package list it is [pkg_lines] again, so it
    has one package on each line and no blank line or comment. *)
Theorem pkglist_holds_the_manifest o path raw packages excluded :
  let r := build_package_list o path raw packages excluded in
  reread_pkg_lines (pkglist_txt (pkg_lines r)) = pkg_lines r
  /\ length (readlines (pkglist_txt (pkg_lines r))) = pkg_count r.
Proof.
  intros r.
  pose proof (reread_tokens (pkg_file_contents r)) as Htok.
  change (reread_pkg_lines (pkg_file_contents r)) with (pkg_lines r) in Htok.
  assert (Forall (fun l => no_newline l = true) (pkg_lines r)) as Hnn.
  { eapply Forall_impl; [exact Htok|]. by intros t (? & _). }
  split.
  - unfold pkglist_txt. rewrite (reread_join _ [] Hnn).
    change (reread_pkg_lines []) with (@nil text). rewrite app_nil_r.
    by apply base_packages_of_tokens.
  - change (pkg_count r) with (length (pkg_lines r)).
    assert (pkg_lines r <> []) as Hne.
    { intros Hnil.
      pose proof (required_in_pkg_lines o path raw packages excluded (str "base")) as Hb.
      fold r in Hb. rewrite Hnil in Hb. eapply elem_of_nil, Hb. by vm_compute. }
    clear Htok. unfold pkglist_txt.
    induction Hnn as [|t ts Ht Hts IH]; [done|].
    destruct ts as [|t' ts].
    + cbn [join]. by rewrite (readlines_line t Ht).
    + change (join [LF] (t :: t' :: ts)) with (t ++ LF :: join [LF] (t' :: ts)).
      rewrite <- app_assoc. cbn [app].
      rewrite readlines_app_lf, (readlines_line t Ht). cbn [app length].
      by rewrite IH.
Qed.

Lemma StronglySorted_filter {A} (R : relation A) (P : A -> Prop)
    `{!forall x, Decision (P x)} (l : list A) :
  StronglySorted R l -> StronglySorted R (filter P l).
Proof.
  induction 1 as [|x l Hl IH Hx]; [constructor|].
  rewrite filter_cons. destruct (decide (P x)); [|done].
  constructor; [done|].
  rewrite Forall_forall in *. intros y [_ Hy]%list_elem_of_filter. by apply Hx.
Qed.

Lemma sorted_StronglySorted o (S : gset text) : StronglySorted text_le (sorted o S).
Proof. unfold sorted. apply StronglySorted_merge_sort; apply _. Qed.

Lemma clean_is_package_line p :
  clean_name p ->
  is_package_line p = true <-> p <> [] /\ startswith (str "#") p = false.
Proof.
  intros [Hs _]. unfold is_package_line. rewrite Hs.
  rewrite andb_true_iff, !negb_true_iff, bool_decide_eq_false. tauto.
Qed.

(** X2. The order of the manifest, for clean candidate names: the packages of
    the base list that are not excluded, in the order of the base list;
    then the required packages that neither the base list nor the
    candidates have, in alphabetical order; then the candidates that are
    new, each once, in alphabetical order. *)
Theorem manifest_order o path raw packages excluded :
  Forall clean_name packages ->
  let base := base_packages_of (splitlines (read raw)) in
  let E := excluded_effective_of excluded in
  exists missing added,
    pkg_lines (build_package_list o path raw packages excluded)
    = filter (fun t => t ∉ E) base ++ missing ++ added
    /\ StronglySorted text_le missing /\ NoDup missing
    /\ StronglySorted text_le added /\ NoDup added
    /\ (forall p, p ∈ missing
                  <-> p ∈ required_packages /\ (p ∉ base) /\ (p ∉ added))
    /\ (forall p, p ∈ added
                  <-> p ∈ packages /\ p <> [] /\ startswith (str "#") p = false
                      /\ (p ∉ E) /\ (p ∉ base)).
Proof.
  intros Hclean base E.
  set (custom := custom_packages_of o E (list_to_set base) packages).
  set (missing := required_missing_of o custom (list_to_set base)).
  assert (Forall clean_name custom) as Hcc by (by apply custom_packages_clean).
  exists missing, (filter (fun p => is_package_line p = true) custom).
  assert (forall p, p ∈ filter (fun p => is_package_line p = true) custom
                    <-> p ∈ packages /\ p <> [] /\ startswith (str "#") p = false
                        /\ (p ∉ E) /\ (p ∉ base)) as Hadded.
  { intros p. rewrite list_elem_of_filter. unfold custom.
    rewrite elem_of_custom_packages, elem_of_list_to_set. split.
    - intros (Hpl & Hin & Hne & HE & HB).
      rewrite Forall_forall in Hclean.
      apply (clean_is_package_line p (Hclean p Hin)) in Hpl. tauto.
    - intros (Hin & Hne & Hc & HE & HB).
      rewrite Forall_forall in Hclean. pose proof (Hclean p Hin) as Hp.
      split; [by apply clean_is_package_line|].
      split_and!; try done. destruct Hp as [-> _]. done. }
  split_and!.
  - rewrite pkg_lines_spec. fold base E custom missing.
    rewrite (line_tokens_all_required missing) by apply required_missing_required.
    by rewrite (concat_line_tokens_clean custom).
  - apply sorted_StronglySorted.
  - apply NoDup_sorted.
  - apply StronglySorted_filter, sorted_StronglySorted.
  - apply NoDup_filter, NoDup_sorted.
  - intros p. unfold missing. rewrite elem_of_required_missing, elem_of_list_to_set.
    split.
    + intros (Hr & Hc & HB). split_and!; [done|done|].
      by intros [_ ?]%list_elem_of_filter.
    + intros (Hr & HB & Ha). split_and!; [done| |done].
      intros Hc. apply Ha, list_elem_of_filter. split; [|done].
      rewrite Forall_forall in Hcc.
      apply (clean_is_package_line p (Hcc p Hc)).
      pose proof (required_name_shape p Hr) as (_ & Hne & _). split; [done|].
      apply required_cases in Hr.
      destruct Hr as [->|[->|[->|[->|[->| ->]]]]]; by vm_compute.
  - exact Hadded.
Qed.

Lemma manifest_order_witness :
  exists missing added,
    pkg_lines (build_package_list canonical_iteration (str "packages.x86_64")
                 (str "# base list
vim
git
") [str "zsh"; str "htop"; str "vim"] [str "git"])
    = [str "vim"] ++ missing ++ added
    /\ StronglySorted text_le added.
Proof.
  destruct (manifest_order canonical_iteration (str "packages.x86_64")
              (str "# base list
vim
git
") [str "zsh"; str "htop"; str "vim"] [str "git"])
    as (missing & added & Hlines & _ & _ & Hsorted & _).
  - repeat constructor; reflexivity.
  - exists missing, added. split; [exact Hlines|exact Hsorted].
Defined.



(** X4. The manifest never has fewer than the six required packages, so the
    warning about a small list (under ten packages) can still be given. *)
Theorem manifest_has_at_least_the_required o path raw packages excluded :
  (6 <= pkg_count (build_package_list o path raw packages excluded))%nat.
Proof.
  change (pkg_count (build_package_list o path raw packages excluded))
    with (length (pkg_lines (build_package_list o path raw packages excluded))).
  assert (length (elements required_packages) = 6%nat) as <- by (by vm_compute).
  apply submseteq_length, NoDup_submseteq; [apply NoDup_elements|].
  intros p Hp%elem_of_elements. by apply required_in_pkg_lines.
Qed.

End manifest_more.

(** ** The verifier and the staging, once more *)

Section pipeline_more.

Implicit Types (f : formatting) (h : host) (cfg : config) (site : build_site).
Implicit Types (pkg conf stdout build_dir output_dir : text) (lines : list text).

(** X5. Every build that reaches the build loop ends in exactly one outcome.
    It is a success exactly when an image is found and either a payload
    is found or the image has at least 1.0 GB; the exit code of the build
    process does not count then, and the artifact reported is the first
    image found. *)
Theorem build_ends_in_one_outcome f build_dir output_dir lines site :
  exists out,
    outcomes (build_and_verify f build_dir output_dir lines site) = [out]
    /\ ((exists artifact, out = Success artifact)
        <-> exists iso rest,
              iso_files site = iso :: rest
              /\ (located_squashfs site <> [] \/ (GiB <= st_size iso)%Z))
    /\ (forall artifact, out = Success artifact ->
         exists iso rest, iso_files site = iso :: rest /\ artifact = path iso).
Proof.
  rewrite outcomes_build_and_verify.
  destruct (iso_files site) as [|iso rest] eqn:Hiso.
  - unfold verify. rewrite Hiso. destruct (bool_decide _).
    + eexists. split_and!; [reflexivity| |by intros ? [=]].
      split; [by intros [? [=]]|by intros (? & ? & [=] & _)].
    + eexists. split_and!; [reflexivity| |by intros ? [=]].
      split; [by intros [? [=]]|by intros (? & ? & [=] & _)].
  - rewrite (verify_outcome _ _ _ _ _ _ _ Hiso).
    unfold size_gt_1, size_lt_1.
    destruct (located_squashfs site) as [|sq more] eqn:Hloc.
    + rewrite (bool_decide_eq_true_2 (@nil file_stat = [])) by done.
      destruct (Z.ltb_spec GiB (st_size iso)), (Z.ltb_spec (st_size iso) GiB);
        cbn [andb negb]; try lia.
      * eexists. split_and!; [reflexivity| |].
        -- split; [|by eauto]. intros _. exists iso, rest. split; [done|right; lia].
        -- intros ? [= <-]. eauto.
      * eexists. split_and!; [reflexivity| |].
        -- split; [by intros [? [=]]|]. intros (? & ? & [= <- <-] & [?|?]); [done|lia].
        -- by intros ? [=].
      * eexists. split_and!; [reflexivity| |].
        -- split; [|by eauto]. intros _. exists iso, rest. split; [done|right; lia].
        -- intros ? [= <-]. eauto.
    + rewrite (bool_decide_eq_false_2 (sq :: more = [])) by done. cbn [andb].
      eexists. split_and!; [reflexivity| |].
      * split; [|by eauto]. intros _. exists iso, rest. split; [done|by left].
      * intros ? [= <-]. eauto.
Qed.

Lemma insert_by_mtime_sorted (file : cache_file) (l : list cache_file) :
  StronglySorted (fun a b => (st_mtime a <= st_mtime b)%Z) l ->
  StronglySorted (fun a b => (st_mtime a <= st_mtime b)%Z) (insert_by_mtime file l).
Proof.
  induction 1 as [|g l Hl IH Hg]; [by repeat constructor|]. simpl.
  destruct (Z.leb_spec (st_mtime file) (st_mtime g)).
  - constructor; [by constructor|]. constructor; [done|].
    eapply Forall_impl; [exact Hg|]. intros x. simpl. lia.
  - constructor; [done|].
    rewrite Forall_forall in *. intros x Hx.
    rewrite insert_by_mtime_perm in Hx.
    apply elem_of_cons in Hx as [->|Hx]; [lia|by apply Hg].
Qed.

Lemma sorted_by_mtime_sorted (l : list cache_file) :
  StronglySorted (fun a b => (st_mtime a <= st_mtime b)%Z) (sorted_by_mtime l).
Proof.
  induction l as [|file l IH]; [constructor|].
  unfold sorted_by_mtime in *. cbn [foldr]. by apply insert_by_mtime_sorted.
Qed.

(** X6. Of the files the cache lists for a package, the one staged is one
    that was modified last. *)
Theorem newest_file_is_staged (files : list cache_file) (file : cache_file) :
  picked files = Some file ->
  file ∈ files /\ forall g, g ∈ files -> (st_mtime g <= st_mtime file)%Z.
Proof.
  intros Hpick. split; [by apply picked_elem_of|].
  destruct files as [|f0 fs]; [done|]. injection Hpick as <-.
  unfold newest.
  pose proof (sorted_by_mtime_sorted (f0 :: fs)) as Hsorted.
  pose proof (sorted_by_mtime_perm (f0 :: fs)) as Hperm.
  destruct (last (sorted_by_mtime (f0 :: fs))) as [x|] eqn:E.
  - apply last_Some in E as [l' E]. rewrite E in Hsorted, Hperm.
    intros g Hg. rewrite <- Hperm in Hg.
    apply elem_of_app in Hg as [Hg | ->%list_elem_of_singleton]; [|simpl; lia].
    apply (StronglySorted_app_1_elem_of _ _ _ g x Hsorted); [done|by left].
  - apply last_None in E. rewrite E in Hperm.
    by apply Permutation_nil_cons in Hperm.
Qed.

Lemma newest_file_is_staged_witness :
  let file :=
    {| file_name := str "yay-12.3.5-1-x86_64.pkg.tar.zst"; st_mtime := 200 |} in
  file ∈ cache_glob sample_host (str "yay")
  /\ forall g, g ∈ cache_glob sample_host (str "yay") ->
               (st_mtime g <= st_mtime file)%Z.
Proof.
  intros file.
  apply (newest_file_is_staged (cache_glob sample_host (str "yay")) file).
  reflexivity.
Defined.

(** X7. No copy into the local repository is checked. When every [cp] fails,
    a non-repository package whose file was found in the cache is still
    counted as copied and handed to the manifest builder, while the local
    repository stays empty and gets no index. *)
Theorem failed_copy_goes_unnoticed f h cfg conf stdout pkg file :
  include_custom_repos cfg = true ->
  pkg ∈ named_packages_of stdout ->
  pkg ∉ excluded_packages cfg ->
  pacman_Si h pkg = false ->
  pacman_Ql h pkg = true ->
  picked (cache_glob h pkg) = Some file ->
  (forall g, cp_ok h g = false) ->
  let sel := select_packages f h cfg [] conf stdout in
  pkg ∈ sel_packages sel /\ pkg ∈ sel_copied sel
  /\ sel_local_repo sel = [] /\ sel_repo_add sel = None
  /\ sel_pacman_conf sel = conf.
Proof.
  intros Hcustom Hnamed Hex Hsi Hql Hpick Hcp sel.
  assert (stageable h pkg = true) as Hst.
  { unfold stageable. rewrite Hql. cbn [andb]. apply negb_true_iff.
    apply bool_decide_eq_false. intros Hnil. by rewrite Hnil in Hpick. }
  destruct (select_packages_staging f h cfg [] conf stdout)
    as (_ & Hcopied & _ & Hrepo & Hadd & Hconf & _).
  fold sel in Hcopied, Hrepo, Hadd, Hconf.
  destruct (classify_and_stage_custom f h cfg [] conf stdout Hcustom)
    as (_ & Hcopied' & _ & Hrepo' & Hadd' & Hconf' & _).
  rewrite Hcopied' in Hcopied. rewrite Hrepo' in Hrepo.
  rewrite Hadd' in Hadd. rewrite Hconf' in Hconf.
  set (aur := filter (fun pkg => pacman_Si h pkg = false) (named_packages_of stdout))
    in *.
  assert (local_repo (stage_packages h [] aur) = []) as Hempty.
  { apply nil_of_no_elements. intros name Hname.
    apply foldl_stage_local_repo in Hname as [Hname|(p & g & _ & _ & _ & Hg & _)].
    - by apply elem_of_nil in Hname.
    - by rewrite Hcp in Hg. }
  rewrite Hempty in Hrepo, Hadd, Hconf. rewrite filter_nil in Hadd, Hconf.
  rewrite (bool_decide_eq_true_2 (@nil text = [])) in Hadd, Hconf by done.
  rewrite andb_false_r in Hadd, Hconf.
  split_and!.
  - apply elem_of_sel_packages. left. split; [done|].
    unfold selectable. rewrite Hcustom, Hst, orb_true_r.
    by rewrite (bool_decide_eq_false_2 _ Hex).
  - rewrite Hcopied. unfold stage_packages.
    destruct (foldl_stage_lists h
                {| successfully_copied_aur := []; failed_aur_packages := [];
                   local_repo := []; staging_log := [] |} aur)
      as [-> _].
    cbn [successfully_copied_aur app]. unfold aur.
    by rewrite !list_elem_of_filter.
  - done.
  - done.
  - done.
Qed.

Lemma failed_copy_goes_unnoticed_witness :
  let sel := select_packages plain_formatting host_with_failing_cp sample_config []
               sample_pacman_conf sample_inventory in
  str "yay" ∈ sel_packages sel /\ str "yay" ∈ sel_copied sel
  /\ sel_local_repo sel = [] /\ sel_repo_add sel = None
  /\ sel_pacman_conf sel = sample_pacman_conf.
Proof.
  apply (failed_copy_goes_unnoticed plain_formatting host_with_failing_cp
           sample_config sample_pacman_conf sample_inventory (str "yay")
           {| file_name := str "yay-12.3.5-1-x86_64.pkg.tar.zst"; st_mtime := 200 |});
    try reflexivity.
  - apply (bool_decide_unpack _). by vm_compute.
  - apply (bool_decide_unpack _). by vm_compute.
Defined.

End pipeline_more.

(** ** The profile definition *)

Section profiledef_facts.

Implicit Types (iso_name iso_label line key value : text) (ls : list text).

Lemma split_keepends_cons c s :
  split_keepends (c :: s)
  = if is_lf c then [c] :: split_keepends s
    else match split_keepends s with
         | [] => [[c]]
         | l :: ls => (c :: l) :: ls
         end.
Proof. done. Qed.

Lemma no_newline_no_lf l :
  no_newline l = true -> forallb (fun c => negb (is_lf c)) l = true.
Proof.
  unfold no_newline. rewrite !forallb_forall. intros H c Hc.
  specialize (H c Hc). apply negb_true_iff, orb_false_iff in H as [-> _]. done.
Qed.

Lemma no_newline_no_cr l :
  no_newline l = true -> forallb (fun c => negb (is_cr c)) l = true.
Proof.
  unfold no_newline. rewrite !forallb_forall. intros H c Hc.
  specialize (H c Hc). apply negb_true_iff, orb_false_iff in H as [_ ->]. done.
Qed.

Lemma split_keepends_part l :
  l <> [] -> forallb (fun c => negb (is_lf c)) l = true -> split_keepends l = [l].
Proof.
  induction l as [|c l IH]; [done|]. intros _ [Hc Hl]%andb_prop.
  apply negb_true_iff in Hc. rewrite split_keepends_cons, Hc.
  destruct l as [|c' l]; [done|]. by rewrite IH.
Qed.

Lemma line_list_split_keepends s :
  forallb (fun c => negb (is_cr c)) s = true -> line_list (split_keepends s).
Proof.
  induction s as [|c s IH]; [done|]. intros [Hc Hs]%andb_prop.
  apply negb_true_iff in Hc. specialize (IH Hs).
  rewrite split_keepends_cons. destruct (is_lf c) eqn:Hlf.
  - split; [|done]. left. exists []. by apply is_lf_eq in Hlf as ->.
  - destruct (split_keepends s) as [|l ls].
    + split; [|done]. right. split; [|done]. split; [done|].
      by apply no_newline_cons.
    + destruct IH as [[(b & -> & Hb) | [[Hne Hl] ->]] Hls].
      * split; [|done]. left. exists (c :: b). split; [done|].
        by apply no_newline_cons.
      * split; [|done]. right. split; [|done]. split; [done|].
        by apply no_newline_cons.
Qed.

Lemma line_list_readlines raw : line_list (readlines raw).
Proof. apply line_list_split_keepends, universal_newlines_no_cr. Qed.

Lemma split_keepends_concat ls : line_list ls -> split_keepends (concat ls) = ls.
Proof.
  induction ls as [|l ls IH]; [done|].
  intros [[(b & -> & Hb) | [[Hne Hl] ->]] Hls].
  - cbn [concat]. rewrite <- app_assoc. cbn [app].
    rewrite split_keepends_app_lf, (split_keepends_line b Hb), IH; done.
  - cbn [concat]. rewrite app_nil_r.
    apply split_keepends_part; [done|by apply no_newline_no_lf].
Qed.

Lemma line_list_no_cr ls :
  line_list ls -> forallb (fun c => negb (is_cr c)) (concat ls) = true.
Proof.
  induction ls as [|l ls IH]; [done|].
  intros [Hl Hls]. cbn [concat]. rewrite forallb_app, (IH Hls), andb_true_r.
  destruct Hl as [(b & -> & Hb) | [[_ Hl] _]].
  - by rewrite forallb_app, (no_newline_no_cr b Hb).
  - by apply no_newline_no_cr.
Qed.

(** Reading back what [writelines] wrote gives the lines written. *)
Lemma readlines_concat ls : line_list ls -> readlines (concat ls) = ls.
Proof.
  intros Hls. unfold readlines.
  rewrite (universal_newlines_id _ (line_list_no_cr ls Hls)).
  by apply split_keepends_concat.
Qed.

Lemma strip_setting key value :
  match key with c :: _ => is_space c | [] => true end = false ->
  strip (setting key value) = key ++ [DQ] ++ value ++ [DQ].
Proof.
  destruct key as [|c key]; [done|]. intros Hc. unfold setting.
  replace ((c :: key) ++ [DQ] ++ value ++ [DQ; LF])
    with (((c :: key) ++ [DQ] ++ value ++ [DQ]) ++ [LF])
    by (by rewrite <- !app_assoc).
  rewrite strip_snoc_lf. unfold strip. cbn [app lstrip]. rewrite Hc.
  replace (c :: key ++ DQ :: value ++ [DQ])
    with ((c :: key ++ DQ :: value) ++ [DQ])
    by (by rewrite <- app_comm_cons, <- app_assoc).
  by rewrite rstrip_app.
Qed.

Lemma configured_cases iso_name iso_label key value :
  (key, value) ∈ configured iso_name iso_label ->
  (key = str "iso_name=" /\ value = iso_name)
  \/ (key = str "iso_label=" /\ value = iso_label)
  \/ (key = str "iso_publisher=" /\ value = str "Custom Arch Linux")
  \/ (key = str "iso_application="
      /\ value = str "Custom Arch Linux Live/Install")
  \/ (key = str "pacman_conf=" /\ value = str "pacman.conf").
Proof.
  unfold configured. rewrite !elem_of_cons, elem_of_nil.
  intros [[= -> ->]|[[= -> ->]|[[= -> ->]|[[= -> ->]|[[= -> ->]|[]]]]]]; tauto.
Qed.

(** What one turn of the loop appends. *)
Lemma profiledef_line_cases iso_name iso_label line :
  (is_setting line = false /\ profiledef_line iso_name iso_label line = line)
  \/ (exists key value,
        (key, value) ∈ configured iso_name iso_label
        /\ is_setting line = true
        /\ profiledef_line iso_name iso_label line = setting key value).
Proof.
  unfold profiledef_line, is_setting, configured. cbn [existsb fst].
  destruct (startswith (str "iso_name=") (strip line)).
  { right. eexists _, _. split_and!; [|done|reflexivity]. by left. }
  destruct (startswith (str "iso_label=") (strip line)).
  { right. eexists _, _. split_and!; [|done|reflexivity]. by right; left. }
  destruct (startswith (str "iso_publisher=") (strip line)).
  { right. eexists _, _. split_and!; [|done|reflexivity].
    by right; right; left. }
  destruct (startswith (str "iso_application=") (strip line)).
  { right. eexists _, _. split_and!; [|done|reflexivity].
    by right; right; right; left. }
  destruct (startswith (str "pacman_conf=") (strip line)).
  { right. eexists _, _. split_and!; [|done|reflexivity].
    by right; right; right; right; left. }
  by left.
Qed.

(** A setting starts with its own key and with no other one. *)
Lemma setting_key iso_name iso_label key value key' value' :
  (key, value) ∈ configured iso_name iso_label ->
  (key', value') ∈ configured iso_name iso_label ->
  startswith key' (strip (setting key value)) = true ->
  key' = key /\ value' = value.
Proof.
  intros H H'.
  apply configured_cases in H as [[-> ->]|[[-> ->]|[[-> ->]|[[-> ->]|[-> ->]]]]];
    apply configured_cases in H'
      as [[-> ->]|[[-> ->]|[[-> ->]|[[-> ->]|[-> ->]]]]];
    try done;
    rewrite strip_setting by reflexivity; vm_compute; discriminate.
Qed.


Lemma is_setting_key iso_name iso_label key value line :
  (key, value) ∈ configured iso_name iso_label ->
  startswith key (strip line) = true -> is_setting line = true.
Proof.
  intros H Hk. unfold is_setting, configured. cbn [existsb fst].
  apply configured_cases in H as [[-> ->]|[[-> ->]|[[-> ->]|[[-> ->]|[-> ->]]]]];
    rewrite Hk; by rewrite ?orb_true_r.
Qed.



Lemma setting_full_line iso_name iso_label key value :
  no_newline iso_name = true -> no_newline iso_label = true ->
  (key, value) ∈ configured iso_name iso_label ->
  full_line (setting key value).
Proof.
  intros Hn Hl H. exists (key ++ [DQ] ++ value ++ [DQ]). split.
  { unfold setting. by rewrite <- !app_assoc. }
  unfold no_newline in *. rewrite !forallb_app.
  apply configured_cases in H as [[-> ->]|[[-> ->]|[[-> ->]|[[-> ->]|[-> ->]]]]];
    by rewrite ?Hn, ?Hl.
Qed.

Lemma full_line_not_nil l : full_line l -> l <> [].
Proof. intros (b & -> & _). by destruct b. Qed.

Lemma line_list_profiledef iso_name iso_label ls :
  no_newline iso_name = true -> no_newline iso_label = true ->
  line_list ls -> line_list (map (profiledef_line iso_name iso_label) ls).
Proof.
  intros Hn Hl. induction ls as [|l ls IH]; [done|].
  intros [Hline Hls]. cbn [map line_list]. split; [|by apply IH].
  destruct (profiledef_line_cases iso_name iso_label l)
    as [[_ ->] | (key & value & H & _ & ->)].
  - destruct Hline as [?|[? ->]]; [by left|by right].
  - left. by apply (setting_full_line iso_name iso_label).
Qed.

(** The file written, read again, has the lines appended to
    [updated_lines]. *)
Lemma customized_lines iso_name iso_label original own out :
  no_newline iso_name = true -> no_newline iso_label = true ->
  customize_profiledef iso_name iso_label original (Some own) = inr out ->
  out <> []
  /\ readlines out
     = map (profiledef_line iso_name iso_label) (readlines (default own original)).
Proof.
  intros Hn Hl. unfold customize_profiledef. case_bool_decide as Hnil; [done|].
  intros [= <-]. split; [done|].
  apply readlines_concat, line_list_profiledef, line_list_readlines; done.
Qed.

(** X8. After the step every line of [profiledef.sh] that sets one of the
    five keys, whatever the space before it, is the line that gives the
    key the value of the build; the file has as many lines as the one that
    was read. *)
Theorem profiledef_settings_take_effect iso_name iso_label original own out :
  no_newline iso_name = true -> no_newline iso_label = true ->
  customize_profiledef iso_name iso_label original (Some own) = inr out ->
  length (readlines out) = length (readlines (default own original))
  /\ forall line key value,
       line ∈ readlines out ->
       (key, value) ∈ configured iso_name iso_label ->
       startswith key (strip line) = true ->
       line = setting key value.
Proof.
  intros Hn Hl Hout.
  destruct (customized_lines _ _ _ _ _ Hn Hl Hout) as [_ ->].
  split; [by rewrite length_map|].
  intros line key value (l & -> & _)%list_elem_of_fmap Hkey Hstart.
  destruct (profiledef_line_cases iso_name iso_label l)
    as [[Hno Heq] | (key' & value' & H' & _ & Heq)]; rewrite Heq in *.
  - by rewrite (is_setting_key _ _ _ _ _ Hkey Hstart) in Hno.
  - by destruct (setting_key _ _ _ _ _ _ H' Hkey Hstart) as [-> ->].
Qed.

Lemma profiledef_settings_take_effect_witness :
  let out := str "#!/usr/bin/env bash
" ++ setting (str "iso_name=") (str "custom-arch-live")
   ++ setting (str "iso_label=") (str "ARCH_CUSTOM")
   ++ str "install_dir=arch
" ++ setting (str "pacman_conf=") (str "pacman.conf") in
  length (readlines out) = length (readlines sample_profiledef)
  /\ forall line key value,
       line ∈ readlines out ->
       (key, value) ∈ configured (str "custom-arch-live") (str "ARCH_CUSTOM") ->
       startswith key (strip line) = true ->
       line = setting key value.
Proof.
  intros out.
  apply (profiledef_settings_take_effect (str "custom-arch-live")
           (str "ARCH_CUSTOM") None sample_profiledef out);
    reflexivity.
Defined.






Lemma universal_newlines_nil s : universal_newlines s = [] -> s = [].
Proof.
  destruct s as [|c s]; [done|]. simpl.
  destruct (is_cr c); [|done]. destruct s as [|c' s]; [done|].
  by destruct (is_lf c').
Qed.

Lemma profiledef_line_not_nil iso_name iso_label line :
  line <> [] -> profiledef_line iso_name iso_label line <> [].
Proof.
  intros Hne.
  destruct (profiledef_line_cases iso_name iso_label line)
    as [[_ ->] | (key & value & H & _ & ->)]; [done|].
  unfold setting. by destruct key.
Qed.

(** X11. The step fails in two cases only: the profile has no [profiledef.sh],
    or the file that is read, the one of the releng profile when there is
    one and the one of the profile otherwise, is empty. *)
Theorem profiledef_failures iso_name iso_label original profiledef e :
  customize_profiledef iso_name iso_label original profiledef = inl e
  <-> (profiledef = None /\ e = profiledef_not_found)
      \/ (exists own, profiledef = Some own /\ default own original = []
                      /\ e = profiledef_write_failed).
Proof.
  unfold customize_profiledef. destruct profiledef as [own|].
  - destruct (readlines (default own original)) as [|l ls] eqn:Hread.
    + cbn [map concat]. rewrite (bool_decide_eq_true_2 (@nil ascii = [])) by done.
      apply split_keepends_nil, universal_newlines_nil in Hread.
      split.
      * intros [= <-]. right. by exists own.
      * by intros [[[=] _] | (? & [= <-] & _ & ->)].
    + pose proof (line_list_readlines (default own original)) as Hls.
      rewrite Hread in Hls. destruct Hls as [Hl _].
      assert (l <> []) as Hne.
      { destruct Hl as [?%full_line_not_nil|[[? _] _]]; done. }
      cbn [map concat]. rewrite bool_decide_eq_false_2.
      2:{ intros [Hnil _]%app_eq_nil.
          by apply (profiledef_line_not_nil iso_name iso_label l Hne). }
      split; [done|].
      intros [[[=] _] | (own' & [= <-] & Hnil & _)].
      by rewrite Hnil in Hread.
  - split.
    + intros [= <-]. by left.
    + by intros [[_ ->] | (? & [=] & _)].
Qed.

End profiledef_facts.

(** ** The USB writer *)

Section usb_facts.

Implicit Types (f : formatting) (site : usb_site) (iso_path device : text).

Lemma outcomes_dd_lines lines : outcomes (concat (map dd_line lines)) = [].
Proof.
  induction lines as [|line lines IH]; [done|].
  cbn [map concat]. rewrite outcomes_app, IH, app_nil_r.
  unfold dd_line. by repeat case_match.
Qed.

Lemma progress_dd_lines lines v :
  v ∈ progress_values (concat (map dd_line lines)) -> v = 60%Z \/ v = 80%Z.
Proof.
  induction lines as [|line lines IH]; [by intros ?%elem_of_nil|].
  cbn [map concat]. unfold progress_values in *. rewrite omap_app.
  intros [Hv|Hv]%elem_of_app; [|by apply IH].
  revert Hv. unfold dd_line. repeat case_match; cbn; set_unfold; tauto.
Qed.

Lemma progress_values_app (t1 t2 : list signal) :
  progress_values (t1 ++ t2) = progress_values t1 ++ progress_values t2.
Proof. apply omap_app. Qed.

(** X12. Every run of the writer ends with its one outcome, sent last. The
    outcome is a success exactly when everything the writer needs goes
    well; its message then names the device, and the progress reaches 100
    in this case only. *)
Theorem usb_write_outcome f iso_path device site :
  let t := usb_run f iso_path device site in
  exists b m,
    last t = Some (finished_signal b m)
    /\ outcomes t = [if b then Success m else Failure m]
    /\ (b = true <-> usb_write_possible site)
    /\ (b = true -> m = str "ISO written to " ++ device)
    /\ (100%Z ∈ progress_values t <-> b = true).
Proof.
  unfold usb_run, usb_write_possible. cbv zeta.
  case_bool_decide as Heuid; cbn [negb].
  2:{ eexists false, _. split_and!; [reflexivity|reflexivity| |done|].
      - split; [done|]. by intros [? _].
      - cbn. split; [by intros ?%elem_of_nil|done]. }
  destruct (device_exists site) eqn:Hdev; cbn [negb].
  2:{ eexists false, _. split_and!; [reflexivity|reflexivity| |done|].
      - split; [done|]. by intros (_ & [=] & _).
      - cbn. split; [by intros ?%elem_of_nil|done]. }
  destruct (iso_getsize site) as [e|iso_size] eqn:Hsize.
  { eexists false, e. split_and!; [reflexivity|reflexivity| |done|].
    - split; [done|]. by intros (_ & _ & [? [=]] & _).
    - cbn. split; [by intros ?%elem_of_nil|done]. }
  destruct (umount_device site) as [e|returncode] eqn:Humount.
  { eexists false, e. split_and!; [reflexivity|reflexivity| |done|].
    - split; [done|]. by intros (_ & _ & _ & (? & [=] & _) & _).
    - cbn. set_unfold. split; [|done]. intros [|[]]; done. }
  destruct (if bool_decide (returncode <> 0%Z) then _ else None) as [e|] eqn:Hparts.
  { eexists false, e. split_and!; [reflexivity|reflexivity| |done|].
    - split; [done|]. intros (_ & _ & _ & (? & [= <-] & Hnone) & _).
      case_bool_decide as Hrc; [|done]. by rewrite (Hnone Hrc) in Hparts.
    - cbn. set_unfold. split; [|done]. intros [|[]]; done. }
  assert (returncode <> 0%Z ->
          umount_partitions site [1; 2; 3; 4; 5; 6; 7; 8; 9]%Z = None) as Hnone.
  { intros Hrc. by rewrite (bool_decide_eq_true_2 _ Hrc) in Hparts. }
  destruct (dd site) as [e|[lines dd_returncode]] eqn:Hdd.
  { eexists false, e. split_and!; [reflexivity|reflexivity| |done|].
    - split; [done|]. by intros (_ & _ & _ & _ & [? [=]]).
    - cbn. set_unfold. split; [|done]. intros [|[|[]]]; done. }
  clear Hparts.
  destruct (decide (dd_returncode = 0%Z)) as [Hrc|Hrc];
    [rewrite (bool_decide_eq_true_2 _ Hrc)|rewrite (bool_decide_eq_false_2 _ Hrc)].
  - eexists true, _. split_and!.
    + by rewrite !app_assoc, last_snoc.
    + rewrite !outcomes_app, outcomes_dd_lines. reflexivity.
    + split; [|done]. intros _. subst dd_returncode. split_and!; eauto.
    + done.
    + split; [done|]. intros _. rewrite !progress_values_app.
      rewrite !elem_of_app. cbn. right. right. left. by left.
  - eexists false, _. split_and!.
    + by rewrite !app_assoc, last_snoc.
    + rewrite !outcomes_app, outcomes_dd_lines. reflexivity.
    + split; [done|]. intros (_ & _ & _ & _ & [? [= _ ?]]). done.
    + done.
    + split; [|done]. rewrite !progress_values_app, !elem_of_app.
      cbn. rewrite !list_elem_of_singleton, !elem_of_nil.
      intros [[Hv|Hv]|[Hv|[Hv|Hv]]]; try done.
      apply progress_dd_lines in Hv as [|]; done.
Qed.

End usb_facts.

(** ** The dialogs *)

Section dialog_facts.

Implicit Types (rows d : list (text * bool)) (k pkg : text).

Lemma dict_set_fresh d k (v : bool) :
  k ∉ map fst d -> dict_set d k v = d ++ [(k, v)].
Proof.
  induction d as [|[k' v'] d IH]; [done|]. cbn [map fst dict_set].
  rewrite not_elem_of_cons. intros [Hne Hk].
  rewrite bool_decide_eq_false_2 by done. by rewrite IH.
Qed.

Lemma foldl_dict_set d rows :
  NoDup (map fst (d ++ rows)) ->
  foldl (fun exclusions item => dict_set exclusions item.1 item.2) d rows
  = d ++ rows.
Proof.
  revert d. induction rows as [|[k v] rows IH]; intros d Hnd.
  - by rewrite app_nil_r.
  - cbn [foldl fst snd]. rewrite dict_set_fresh.
    + rewrite IH; rewrite <- app_assoc; done.
    + rewrite map_app in Hnd. cbn [map fst] in Hnd.
      apply NoDup_app in Hnd as (_ & Hdisj & _).
      intros Hk. apply (Hdisj k Hk). by left.
Qed.

(** Rows with distinct texts are stored as they are. *)
Lemma get_all_exclusions_rows rows :
  NoDup (map fst rows) -> ExclusionsDialog.get_all_exclusions rows = rows.
Proof. intros Hnd. by apply (foldl_dict_set [] rows). Qed.

Lemma init_rows d : ExclusionsDialog.init d = d.
Proof.
  unfold ExclusionsDialog.init. induction d as [|[k v] d IH]; [done|].
  cbn [map]. by rewrite IH.
Qed.

Lemma map_fst_delete rows i : map fst (delete i rows) = delete i (map fst rows).
Proof.
  revert i. induction rows as [|x rows IH]; intros [|i]; try done.
  cbn. by rewrite <- IH.
Qed.

Lemma handle_distinct rows e :
  NoDup (map fst rows) -> NoDup (map fst (ExclusionsDialog.handle rows e)).
Proof.
  intros Hnd. destruct e as [input ok|current_row| |]; cbn [ExclusionsDialog.handle].
  - unfold ExclusionsDialog.add_custom_exclusion.
    destruct (ok && negb (bool_decide (strip input = []))); [|done].
    destruct (existsb _ rows) eqn:Hex; [done|].
    rewrite map_app. cbn [map fst]. apply NoDup_app. split_and!.
    + done.
    + intros k Hk ->%list_elem_of_singleton.
      apply list_elem_of_In, in_map_iff in Hk as (item & Hitem & Hin).
      apply not_true_iff_false in Hex. apply Hex, existsb_exists.
      exists item. split; [done|]. by apply bool_decide_eq_true.
    + apply NoDup_singleton.
  - unfold ExclusionsDialog.remove_exclusion.
    destruct (0 <=? current_row)%Z; [|done].
    rewrite map_fst_delete. eapply sublist_NoDup; [done|apply sublist_delete].
  - unfold ExclusionsDialog.select_all_exclusions. by rewrite map_map.
  - unfold ExclusionsDialog.deselect_all_exclusions. by rewrite map_map.
Qed.

Lemma exec_distinct d events :
  NoDup (map fst d) -> NoDup (map fst (ExclusionsDialog.exec d events)).
Proof.
  unfold ExclusionsDialog.exec. rewrite init_rows. revert d.
  induction events as [|e events IH]; intros d Hnd; [done|].
  cbn [foldl]. by apply IH, handle_distinct.
Qed.

(** X13. Whatever is done in the dialog of exclusions, the patterns it shows
    stay distinct. Closing it with OK stores the rows as they are shown,
    text and check mark, and the build is given the checked patterns, in
    the order shown. *)
Theorem exclusions_dialog_stores_its_rows
    (exclude_list_items : list (text * bool)) (events : list exclusions_event) :
  NoDup (map fst exclude_list_items) ->
  let rows := ExclusionsDialog.exec exclude_list_items events in
  let stored := ISOBuilderGUI.show_exclusions_dialog exclude_list_items events true in
  NoDup (map fst rows)
  /\ stored = rows
  /\ ISOBuilderGUI.get_selected_exclusions stored
     = ExclusionsDialog.get_selected_exclusions rows.
Proof.
  intros Hnd rows stored.
  pose proof (exec_distinct exclude_list_items events Hnd) as Hrows.
  assert (stored = rows) as ->.
  { unfold stored, ISOBuilderGUI.show_exclusions_dialog.
    by apply get_all_exclusions_rows. }
  done.
Qed.

Lemma exclusions_dialog_stores_its_rows_witness :
  let events :=
    [press_deselect_all; press_add_custom (str "  Videos ") true;
     press_add_custom (str " .thumbnails") true; press_remove 0] in
  let rows :=
    ExclusionsDialog.exec ISOBuilderGUI.initial_exclude_list_items events in
  let stored :=
    ISOBuilderGUI.show_exclusions_dialog
      ISOBuilderGUI.initial_exclude_list_items events true in
  NoDup (map fst rows)
  /\ stored = rows
  /\ ISOBuilderGUI.get_selected_exclusions stored
     = ExclusionsDialog.get_selected_exclusions rows.
Proof.
  intros events.
  apply (exclusions_dialog_stores_its_rows
           ISOBuilderGUI.initial_exclude_list_items events).
  apply (bool_decide_unpack _). by vm_compute.
Defined.

Lemma check_first_names pkg rows :
  map fst (PackageSelectionDialog.check_first pkg rows) = map fst rows.
Proof.
  induction rows as [|[t c] rows IH]; [done|].
  cbn [PackageSelectionDialog.check_first fst].
  case_bool_decide; cbn [map fst]; [done|by rewrite IH].
Qed.

Lemma check_first_checked pkg rows p :
  (p, true) ∈ PackageSelectionDialog.check_first pkg rows
  <-> (p, true) ∈ rows \/ (p = pkg /\ pkg ∈ map fst rows).
Proof.
  induction rows as [|[t c] rows IH].
  - cbn. rewrite elem_of_nil. split; [done|]. by intros [|[_ ?%elem_of_nil]].
  - cbn [PackageSelectionDialog.check_first fst map].
    case_bool_decide as Ht.
    + subst t. rewrite !elem_of_cons. split.
      * intros [[= ->]|Hin]; [right; split; [done|by left]|by left; right].
      * intros [[[= -> ->]|Hin]|[-> _]]; [by left|by right|by left].
    + rewrite !elem_of_cons, IH. split.
      * intros [?|[?|[-> ?]]]; [by left; left|by left; right|by right; split; [|right]].
      * intros [[?|?]|[-> [?|?]]]; [by left|by right; left|done|by right; right].
Qed.

Lemma foldl_check_first excluded rows p :
  (p, true) ∈ foldl (fun rows pkg => PackageSelectionDialog.check_first pkg rows)
                    rows excluded
  <-> (p, true) ∈ rows \/ (p ∈ excluded /\ p ∈ map fst rows).
Proof.
  revert rows. induction excluded as [|pkg excluded IH]; intros rows.
  - cbn. rewrite elem_of_nil. tauto.
  - cbn [foldl]. rewrite IH, check_first_checked, check_first_names, elem_of_cons.
    split.
    + intros [[?|[-> ?]]|[? ?]]; tauto.
    + intros [?|[[->|?] ?]]; tauto.
Qed.

Lemma checked_rows rows p :
  p ∈ map fst (filter (fun item => item.2 = true) rows) <-> (p, true) ∈ rows.
Proof.
  rewrite list_elem_of_In, in_map_iff. split.
  - intros ([t c] & <- & Hin). apply list_elem_of_In, list_elem_of_filter in Hin
      as [Hc Hin]. cbn in Hc. by subst c.
  - intros Hin. exists (p, true). split; [done|].
    apply list_elem_of_In, list_elem_of_filter. by split.
Qed.

Lemma populate_list_unchecked (st : PackageSelectionDialog.state) input p :
  (p, true) ∉ PackageSelectionDialog.package_list
                (PackageSelectionDialog.populate_list st input).
Proof.
  cbn [PackageSelectionDialog.populate_list PackageSelectionDialog.package_list].
  rewrite list_elem_of_In, in_map_iff. by intros (? & [=] & _).
Qed.

(** X14. When the loader has delivered the packages, every package is shown,
    in the order delivered, and the checked ones are the saved exclusions
    that are among them: a saved exclusion of a package that is no longer
    installed is dropped. *)
Theorem saved_exclusions_are_restored
    (excluded : list text) (loaded : list (text * bool)) (aur : gset text) :
  loaded <> [] ->
  let st :=
    PackageSelectionDialog.on_loading_finished
      (PackageSelectionDialog.init excluded) loaded aur in
  map fst (PackageSelectionDialog.package_list st) = map fst loaded
  /\ forall p, p ∈ PackageSelectionDialog.get_excluded_packages st
               <-> p ∈ excluded /\ p ∈ map fst loaded.
Proof.
  intros Hne st. unfold st, PackageSelectionDialog.on_loading_finished.
  rewrite (bool_decide_eq_false_2 _ Hne).
  cbn [PackageSelectionDialog.populate_list PackageSelectionDialog.package_list
       PackageSelectionDialog.all_packages
       PackageSelectionDialog.excluded_packages PackageSelectionDialog.init].
  rewrite (bool_decide_eq_true_2 (@nil ascii = [])) by done. cbn [negb andb].
  rewrite (filter_all (fun _ : text * bool => false = false)) by done.
  assert (map fst (map (fun pkg_info : text * bool => (pkg_info.1, false)) loaded)
          = map fst loaded) as Hnames by (by rewrite map_map).
  split.
  - set (rows := map _ loaded) in *. clearbody rows. revert rows Hnames.
    induction excluded as [|pkg excluded IH]; intros rows Hnames; [done|].
    cbn [foldl]. apply IH. by rewrite check_first_names.
  - intros p. unfold PackageSelectionDialog.get_excluded_packages.
    cbn [PackageSelectionDialog.package_list].
    rewrite checked_rows, foldl_check_first, Hnames.
    split; [|tauto]. intros [Hin|?]; [|done].
    apply list_elem_of_In, in_map_iff in Hin as (? & [=] & _).
Qed.

Lemma saved_exclusions_are_restored_witness :
  let loaded := [(str "yay", true); (str "vim", false)] in
  let st :=
    PackageSelectionDialog.on_loading_finished
      (PackageSelectionDialog.init [str "vim"; str "emacs"]) loaded
      {[ str "yay" ]} in
  map fst (PackageSelectionDialog.package_list st) = map fst loaded
  /\ forall p, p ∈ PackageSelectionDialog.get_excluded_packages st
               <-> p ∈ [str "vim"; str "emacs"] /\ p ∈ map fst loaded.
Proof.
  intros loaded.
  apply (saved_exclusions_are_restored [str "vim"; str "emacs"] loaded
           {[ str "yay" ]}).
  done.
Defined.

(** X15. A change of the search text fills the list anew: the rows are the
    packages whose name contains the text, without regard to case, all of
    them when the text is empty, and no row is checked, whatever was
    checked before. *)
Theorem search_clears_the_check_marks (st : PackageSelectionDialog.state)
    (input : text) :
  let st' := PackageSelectionDialog.filter_packages st input in
  PackageSelectionDialog.get_excluded_packages st' = []
  /\ map fst (PackageSelectionDialog.package_list st')
     = filter (fun name => input = [] \/ contains (lower input) (lower name) = true)
              (map fst (PackageSelectionDialog.all_packages st)).
Proof.
  intros st'. split.
  - apply nil_of_no_elements. intros p Hp.
    apply checked_rows in Hp. by apply populate_list_unchecked in Hp.
  - unfold st', PackageSelectionDialog.filter_packages.
    cbn [PackageSelectionDialog.populate_list PackageSelectionDialog.package_list].
    rewrite map_map. cbn [fst].
    induction (PackageSelectionDialog.all_packages st) as [|[name is_aur] l IH];
      [done|].
    cbn [map fst]. rewrite !filter_cons, <- IH. cbn [fst].
    destruct (decide (input = [])) as [->|Hne].
    + rewrite (bool_decide_eq_true_2 (@nil ascii = [])) by done. cbn [negb andb].
      rewrite decide_True by done. rewrite decide_True by (by left). done.
    + rewrite (bool_decide_eq_false_2 _ Hne). cbn [negb andb].
      destruct (contains (lower input) (lower name)) eqn:Hc; cbn [negb].
      * rewrite decide_True by done. rewrite decide_True by (by right). done.
      * rewrite decide_False by done.
        rewrite decide_False by (by intros [?|?]). done.
Qed.

End dialog_facts.

(** ** The package loader and the main window *)

Section loader_facts.

Import PackageLoaderThread.

Implicit Types (x y z : text * bool) (l : list (text * bool)).

Lemma key_leb_aur_first x y : key_leb (key x) (key y) = true <-> aur_first x y.
Proof.
  unfold key_leb, key, aur_first, text_le. destruct x as [n [|]], y as [m [|]];
    cbn [fst snd negb]; case_bool_decide; try done; cbn; intuition congruence.
Qed.

Lemma aur_first_trans x y z : aur_first x y -> aur_first y z -> aur_first x z.
Proof.
  unfold aur_first. intros [[? ?]|[Hxy Hle]] [[? ?]|[Hyz Hle']].
  - congruence.
  - left. split; congruence.
  - left. split; congruence.
  - right. split; [congruence|]. by etrans.
Qed.

Lemma aur_first_total x y : aur_first x y \/ aur_first y x.
Proof.
  unfold aur_first. destruct x as [n [|]], y as [m [|]]; cbn [fst snd];
    try (by left; left); try (by right; left);
    destruct (total text_le (lower n) (lower m)); [left|right|left|right];
    by right.
Qed.

Lemma insert_by_key_perm x l : insert_by_key x l ≡ₚ x :: l.
Proof.
  induction l as [|y l IH]; [done|]. simpl.
  destruct (key_leb (key x) (key y)); [done|].
  by rewrite IH, Permutation_swap.
Qed.

Lemma sort_by_key_perm l : sort_by_key l ≡ₚ l.
Proof.
  induction l as [|x l IH]; [done|]. unfold sort_by_key in *. cbn [foldr].
  by rewrite insert_by_key_perm, IH.
Qed.

Lemma insert_by_key_sorted x l :
  StronglySorted aur_first l -> StronglySorted aur_first (insert_by_key x l).
Proof.
  induction 1 as [|y l Hl IH Hy]; [by repeat constructor|]. simpl.
  destruct (key_leb (key x) (key y)) eqn:Hk.
  - apply key_leb_aur_first in Hk.
    constructor; [by constructor|]. constructor; [done|].
    eapply Forall_impl; [exact Hy|]. intros z. by apply aur_first_trans.
  - assert (aur_first y x) as Hyx.
    { destruct (aur_first_total x y) as [Hxy|?]; [|done].
      apply key_leb_aur_first in Hxy. congruence. }
    constructor; [done|]. rewrite Forall_forall in *. intros z Hz.
    rewrite insert_by_key_perm in Hz.
    apply elem_of_cons in Hz as [->|Hz]; [done|by apply Hy].
Qed.

Lemma sort_by_key_sorted l : StronglySorted aur_first (sort_by_key l).
Proof.
  induction l as [|x l IH]; [constructor|].
  unfold sort_by_key in *. cbn [foldr]. by apply insert_by_key_sorted.
Qed.

(** X16. The list the loader sends holds the packages of the inventory, each
    marked as AUR package when [pacman -Si] does not know it; the AUR
    packages come first, and the names are in order without regard to
    case within each kind. The set it sends holds the names marked. *)
Theorem loaded_packages_order (h : host) (stdout : text) :
  let loaded := run h (Some stdout) in
  loaded.1 ≡ₚ loader_packages_of h stdout
  /\ StronglySorted aur_first loaded.1
  /\ forall pkg, pkg ∈ loaded.2 <-> (pkg, true) ∈ loaded.1.
Proof.
  cbn [run fst snd]. fold (all_packages_of stdout).
  fold (named_packages_of stdout). fold (loader_packages_of h stdout).
  split_and!.
  - apply sort_by_key_perm.
  - apply sort_by_key_sorted.
  - intros pkg. rewrite sort_by_key_perm, elem_of_list_to_set, list_elem_of_filter.
    unfold loader_packages_of. split.
    + intros [Hsi Hin]. apply list_elem_of_In, in_map_iff.
      exists pkg. rewrite Hsi. split; [done|]. by apply list_elem_of_In.
    + intros (name & [= -> Hsi] & Hin)%list_elem_of_In%in_map_iff.
      apply negb_true_iff in Hsi. split; [done|]. by apply list_elem_of_In.
Qed.

End loader_facts.

Section window_facts.

Implicit Types (f : formatting) (site : build_site) (t : list signal).



End window_facts.

(** ** The theme script *)

Section theme_facts.

Implicit Types (theme_name line : text).

(** Text without CR that does not begin with LF is read as it is,
    whatever it is appended to. *)
Lemma universal_newlines_app_plain a x :
  forallb (fun c => negb (is_cr c)) x = true ->
  match x with c :: _ => is_lf c = false | [] => True end ->
  universal_newlines (a ++ x) = universal_newlines a ++ x.
Proof.
  intros Hcr Hlf. remember (length a) as n eqn:Hn. revert a Hn.
  induction n as [n IH] using lt_wf_ind. intros a Hn.
  destruct a as [|c a]; [by apply universal_newlines_id|]. cbn [app].
  destruct (is_cr c) eqn:Hc.
  - destruct a as [|c' a].
    + cbn [app]. destruct x as [|c' x]; [by cbn; rewrite Hc|].
      rewrite (universal_newlines_cr c c') by done.
      rewrite (universal_newlines_id (c' :: x)) by done.
      cbn. by rewrite Hc.
    + cbn [app]. destruct (is_lf c') eqn:Hc'.
      * rewrite !(universal_newlines_cr_lf c c') by done.
        cbn [app]. f_equal. apply (IH (length a)); simpl in *; [lia|done].
      * rewrite !(universal_newlines_cr c c') by done.
        cbn [app]. f_equal.
        apply (IH (length (c' :: a)) ltac:(simpl in *; lia) (c' :: a) eq_refl).
  - rewrite !(universal_newlines_other c) by done.
    cbn [app]. f_equal. apply (IH (length a)); simpl in *; [lia|done].
Qed.

Lemma occurs_app_l sub a b : occurs sub a -> occurs sub (a ++ b).
Proof.
  intros (pre & post & ->). exists pre, (post ++ b). by rewrite <- !app_assoc.
Qed.

Lemma occurs_app_r sub a b : occurs sub b -> occurs sub (a ++ b).
Proof.
  intros (pre & post & ->). exists (a ++ pre), post. by rewrite <- !app_assoc.
Qed.

Lemma occurs_concat_lines line lines :
  line ∈ lines -> occurs line (concat (map (fun l => l ++ [LF]) lines)).
Proof.
  induction lines as [|l lines IH]; [by intros ?%elem_of_nil|].
  cbn [map concat]. intros [->|Hin]%elem_of_cons.
  - apply occurs_app_l. by exists [], [LF].
  - by apply occurs_app_r, IH.
Qed.

Lemma new_exports_plain theme_name lines :
  forallb (fun c => negb (is_cr c)) theme_name = true ->
  lines ⊆ ApplyQogir.new_exports theme_name ->
  let added := concat (map (fun l => l ++ [LF]) lines) in
  forallb (fun c => negb (is_cr c)) added = true
  /\ match added with c :: _ => is_lf c = false | [] => True end.
Proof.
  intros Hcr Hsub. induction lines as [|l lines IH]; [done|].
  cbn [map concat]. cbv zeta in *.
  assert (l ∈ ApplyQogir.new_exports theme_name) as Hl by (apply Hsub; by left).
  destruct IH as [IH _]. { intros x Hx. apply Hsub. by right. }
  unfold ApplyQogir.new_exports in Hl.
  rewrite !elem_of_cons, elem_of_nil in Hl.
  destruct Hl as [->|[->|[->|[]]]];
    (split; [rewrite !forallb_app, ?Hcr, IH; done|done]).
Qed.

(** X18. After [apply_qt_theme] each of the three export lines occurs in
    [~/.profile]; applying the same theme once more appends nothing. *)
Theorem profile_exports_added_once theme_name (profile : option text) :
  forallb (fun c => negb (is_cr c)) theme_name = true ->
  let after := ApplyQogir.profile_after theme_name profile in
  (forall line, line ∈ ApplyQogir.new_exports theme_name ->
                contains line (read after) = true)
  /\ ApplyQogir.profile_after theme_name (Some after) = after.
Proof.
  intros Hcr after.
  set (profile_text := match profile with Some raw => read raw | None => [] end).
  set (lines := filter (fun line => contains line profile_text = false)
                       (ApplyQogir.new_exports theme_name)).
  assert (read after = profile_text ++ concat (map (fun l => l ++ [LF]) lines))
    as Hread.
  { destruct (new_exports_plain theme_name lines Hcr) as [Hplain Hfirst].
    { intros x [_ Hx]%list_elem_of_filter. done. }
    unfold after, ApplyQogir.profile_after, read. fold profile_text. fold lines.
    rewrite universal_newlines_app_plain by done.
    unfold profile_text, read. by destruct profile. }
  assert (forall line, line ∈ ApplyQogir.new_exports theme_name ->
                       contains line (read after) = true) as Hall.
  { intros line Hline. rewrite Hread. apply contains_occurs.
    destruct (contains line profile_text) eqn:Hc.
    - by apply occurs_app_l, contains_occurs.
    - apply occurs_app_r, occurs_concat_lines. by apply list_elem_of_filter. }
  split; [done|].
  unfold ApplyQogir.profile_after at 1. cbn [default].
  rewrite filter_none, app_nil_r; [done|].
  intros line Hline. rewrite (Hall line Hline). done.
Qed.

Lemma profile_exports_added_once_witness :
  let after := ApplyQogir.profile_after ApplyQogir.THEME_DARK None in
  (forall line, line ∈ ApplyQogir.new_exports ApplyQogir.THEME_DARK ->
                contains line (read after) = true)
  /\ ApplyQogir.profile_after ApplyQogir.THEME_DARK (Some after) = after.
Proof.
  apply (profile_exports_added_once ApplyQogir.THEME_DARK None).
  reflexivity.
Defined.

End theme_facts.

(** ** From the dialog of exclusions to the build *)

Section exclusions_facts.

Implicit Types (rows : list (text * bool)) (p : text).

Lemma handle_pattern_names rows e :
  single_line_input e ->
  Forall pattern_name (map fst rows) ->
  Forall pattern_name (map fst (ExclusionsDialog.handle rows e)).
Proof.
  intros He Hrows.
  destruct e as [input ok|current_row| |]; cbn [ExclusionsDialog.handle].
  - unfold ExclusionsDialog.add_custom_exclusion.
    destruct ok; cbn [andb]; [|done].
    case_bool_decide as Hblank; cbn [negb]; [done|].
    destruct (existsb _ rows); [done|].
    rewrite map_app. apply Forall_app. split; [done|].
    apply Forall_singleton. cbn [fst]. split_and!.
    + apply strip_idem.
    + done.
    + by apply forallb_strip.
  - unfold ExclusionsDialog.remove_exclusion.
    destruct (0 <=? current_row)%Z; [|done].
    rewrite map_fst_delete. rewrite Forall_forall in *.
    intros p Hp. by apply Hrows, (list_elem_of_delete_inv _ (Z.to_nat current_row)).
  - unfold ExclusionsDialog.select_all_exclusions. by rewrite map_map.
  - unfold ExclusionsDialog.deselect_all_exclusions. by rewrite map_map.
Qed.

Lemma exec_pattern_names (items : list (text * bool)) events :
  Forall single_line_input events ->
  Forall pattern_name (map fst items) ->
  Forall pattern_name (map fst (ExclusionsDialog.exec items events)).
Proof.
  unfold ExclusionsDialog.exec. rewrite init_rows. revert items.
  induction events as [|e events IH]; intros items Hev Hitems; [done|].
  inversion Hev as [|? ? He Hev']; subst.
  cbn [foldl]. apply IH; [done|]. by apply handle_pattern_names.
Qed.

Lemma selected_pattern_names rows :
  Forall pattern_name (map fst rows) ->
  Forall pattern_name (ExclusionsDialog.get_selected_exclusions rows).
Proof.
  unfold ExclusionsDialog.get_selected_exclusions.
  rewrite !Forall_forall. intros Hrows p Hp. apply Hrows.
  apply list_elem_of_In, in_map_iff in Hp as (item & <- & Hin).
  apply list_elem_of_In, list_elem_of_filter in Hin as [_ Hin].
  apply list_elem_of_In, in_map. by apply list_elem_of_In.
Qed.

(** X19. The file of exclusions of a build lists the patterns checked when the
    dialog was closed with OK, one on a line, in the order shown. It is
    written unless no pattern is checked. *)
Theorem exclude_file_lists_the_checked_patterns
    (exclude_list_items : list (text * bool)) (events : list exclusions_event) :
  NoDup (map fst exclude_list_items) ->
  Forall pattern_name (map fst exclude_list_items) ->
  Forall single_line_input events ->
  let checked :=
    ExclusionsDialog.get_selected_exclusions
      (ExclusionsDialog.exec exclude_list_items events) in
  let exclude_dirs :=
    ISOBuilderGUI.get_selected_exclusions
      (ISOBuilderGUI.show_exclusions_dialog exclude_list_items events true) in
  exclude_dirs = checked
  /\ (exclude_dirs_txt exclude_dirs = None <-> checked = [])
  /\ forall contents, exclude_dirs_txt exclude_dirs = Some contents ->
                      splitlines contents = checked.
Proof.
  intros Hnd Hnames Hev checked exclude_dirs.
  assert (exclude_dirs = checked) as ->.
  { unfold exclude_dirs, ISOBuilderGUI.show_exclusions_dialog.
    rewrite get_all_exclusions_rows; [done|by apply exec_distinct]. }
  split; [done|].
  pose proof (selected_pattern_names _
                (exec_pattern_names _ _ Hev Hnames)) as Hchecked.
  fold checked in Hchecked. clearbody checked.
  unfold exclude_dirs_txt. case_bool_decide as Hnil; [by split|].
  split; [by split|]. intros contents [= <-].
  destruct checked as [|p0 checked _] using rev_ind; [done|].
  apply Forall_app in Hchecked as [Hinit Hlast].
  apply Forall_singleton in Hlast as (Hstrip & Hne & Hline).
  rewrite rstrip_join_last by (by try apply strip_fixed_rstrip).
  apply splitlines_join; [|by destruct checked].
  apply Forall_app. split.
  - eapply Forall_impl; [exact Hinit|]. by intros ? (_ & _ & ?).
  - by apply Forall_singleton.
Qed.

Lemma exclude_file_lists_the_checked_patterns_witness :
  let events :=
    [press_deselect_all; press_add_custom (str "  Videos ") true;
     press_add_custom (str " .thumbnails") true; press_remove 0] in
  let checked :=
    ExclusionsDialog.get_selected_exclusions
      (ExclusionsDialog.exec ISOBuilderGUI.initial_exclude_list_items events) in
  let exclude_dirs :=
    ISOBuilderGUI.get_selected_exclusions
      (ISOBuilderGUI.show_exclusions_dialog
         ISOBuilderGUI.initial_exclude_list_items events true) in
  exclude_dirs = checked
  /\ (exclude_dirs_txt exclude_dirs = None <-> checked = [])
  /\ forall contents, exclude_dirs_txt exclude_dirs = Some contents ->
                      splitlines contents = checked.
Proof.
  intros events.
  apply (exclude_file_lists_the_checked_patterns
           ISOBuilderGUI.initial_exclude_list_items events).
  - apply (bool_decide_unpack _). by vm_compute.
  - repeat constructor; by vm_compute.
  - repeat constructor; by vm_compute.
Defined.

End exclusions_facts.

(** ** The theme switcher *)

Section switcher_facts.

Import SetGtk4Theme.

Lemma replace_absent old new s : contains old s = false -> replace old new s = s.
Proof.
  unfold replace. induction s as [|c s IH]; [done|].
  cbn [contains]. intros [Hstart Hrest]%orb_false_iff.
  cbn [replace_skip]. rewrite Hstart. by rewrite IH.
Qed.

(** X20. A configuration file that names neither of the two GTK styles is
    left with the text that was read: a file that sets another style, or
    none, keeps it, whatever style is asked for. *)
Theorem other_qt_style_is_kept (style raw : text) :
  contains (str "style=gtk2") (read raw) = false ->
  contains (str "style=gtk3") (read raw) = false ->
  set_qt_theme style (Some raw) = read raw.
Proof.
  intros H2 H3. unfold set_qt_theme.
  rewrite (replace_absent _ _ _ H2). by apply replace_absent.
Qed.

Lemma other_qt_style_is_kept_witness :
  set_qt_theme (str "gtk3") (Some (str "[Appearance]
style=Fusion
"))
  = read (str "[Appearance]
style=Fusion
").
Proof.
  apply (other_qt_style_is_kept (str "gtk3")); reflexivity.
Defined.

End switcher_facts.
